(** * AudioControl3: the coordination engine and the plugin lifecycle

    A shallow embedding of [ac3/audio_controller.py], [ac3/addons/plugin.py],
    the two plugins under [ac3/addons/audiocontroller/] and the volume path
    of [ac3/player/mpd.py], with the properties of the engine stated and
    proved over it.

    Conventions of the embedding.
    - Python [float] seconds (positions, durations, clock readings) are
      exact rationals [Q]; every reading of [time.time()] is an explicit
      argument [now] of the operation that performs it.
    - A Python [dict] keeps insertion order, which the engine relies on, so
      the registry is an association list with unique keys.
    - A backend ([PlayerController]) is a black box: the record
      [PlayerController.t] lists what each of its methods answers.  Queries
      are values, commands answer [Returned b] or raise ([Raised]).
    - Everything the engine does to the outside world (a method invoked on
      a backend, a listener callback invoked) is appended to a trace of
      [effect]s, so that "forwards", "issues pause" and "never invoked"
      are statements about that trace.
    - A backend command is taken to return (or raise) without calling back
      into the engine while it runs; the events a backend pushes are
      separate calls of the [on_..._change] handlers.
    - [self._listeners] is a Python [set]; it is a duplicate-free list here
      and its iteration order is the order of the list.
    - [with self._lock] is a re-entrant lock taken by one thread of control
      at a time; the model is sequential and the lock disappears. *)

From Stdlib Require Import String List Bool ZArith QArith Qminmax Lia Lqa.
Import ListNotations.

Local Open Scope string_scope.
Local Open Scope list_scope.

(** ** Shared vocabulary ([ac3/player/player_controller.py], [ac3/metadata.py]) *)

(** [class LoopMode(Enum)] *)
Inductive LoopMode := LOOP_NONE | LOOP_TRACK | LOOP_PLAYLIST.

(** [class PlayerState(Enum)] of [ac3.player.player_controller]. *)
Inductive PlayerState := PLAYING | PAUSED | STOPPED | KILLED | UNKNOWN.

Definition PlayerState_eqb (a b : PlayerState) : bool :=
  match a, b with
  | PLAYING, PLAYING | PAUSED, PAUSED | STOPPED, STOPPED
  | KILLED, KILLED | UNKNOWN, UNKNOWN => true
  | _, _ => false
  end.

(** [Player.state : Union[PlayerState, str]].  Backends store either an enum
    member (the MPD backend, through [MPD_STATE_MAP]) or a plain string (the
    base class and the null backend store ["stopped"]). *)
Inductive state_value :=
| StateEnum (s : PlayerState)
| StateStr (s : string).

(** [state == PlayerState.PLAYING]: a plain [Enum] member is equal only to
    itself, never to a string. *)
Definition is_PLAYING (v : state_value) : bool :=
  match v with
  | StateEnum s => PlayerState_eqb s PLAYING
  | StateStr _ => false
  end.

(** [@dataclass class Song]; only the fields the engine reads. *)
Record Song := {
  title : option string;
  duration : option Q
}.

(** [@dataclass class Player]; [player_id] is [Optional[str]]. *)
Record Player := {
  name : string;
  player_id : option string;
  state : state_value;
  volume : option Z;
  position : option Q
}.

(** ** Outcomes of calls and the trace of outside effects *)

(** What a Python call does: it returns a value or raises. *)
Inductive outcome (A : Type) :=
| Returned (a : A)
| Raised.
Arguments Returned {A} a.
Arguments Raised {A}.

(** [class EventType(enum.Enum)] of [ac3/audio_controller.py]. *)
Inductive EventType :=
| PLAYER_STATE_CHANGE
| SONG_CHANGE
| VOLUME_CHANGE
| POSITION_CHANGE
| CAPABILITY_CHANGE.

Definition EventType_eqb (a b : EventType) : bool :=
  match a, b with
  | PLAYER_STATE_CHANGE, PLAYER_STATE_CHANGE
  | SONG_CHANGE, SONG_CHANGE
  | VOLUME_CHANGE, VOLUME_CHANGE
  | POSITION_CHANGE, POSITION_CHANGE
  | CAPABILITY_CHANGE, CAPABILITY_CHANGE => true
  | _, _ => false
  end.

(** The value of an enum member, [EventType.X.value]. *)
Definition EventType_value (e : EventType) : string :=
  match e with
  | PLAYER_STATE_CHANGE => "player_state_change"
  | SONG_CHANGE => "song_change"
  | VOLUME_CHANGE => "volume_change"
  | POSITION_CHANGE => "position_change"
  | CAPABILITY_CHANGE => "capability_change"
  end.

(** The payload handed to listeners. *)
Inductive event_data :=
| DataPlayer (p : Player)
| DataSong (s : option Song)
| DataVolume (v : Z)
| DataPosition (p : option Q)
| DataCapabilities (caps : list string).

(** A listener callback is opaque to the engine; it is named. *)
Definition callback := string.

(** The methods the engine invokes on a backend. *)
Inductive command :=
| CmdAddStateListener
| CmdRemoveStateListener
| CmdPlay
| CmdPause
| CmdStop
| CmdNext
| CmdPrevious
| CmdSetVolume (v : Z)
| CmdMute (m : bool)
| CmdSeek (p : Q)
| CmdSetShuffle (enabled : bool)
| CmdSetLoopMode (mode : LoopMode).

Inductive effect :=
| Call (id : string) (c : command)          (* [controller.c(...)] on backend [id] *)
| Dispatched (e : EventType) (d : event_data) (* a run of [_notify_listeners] *)
| Invoked (cb : callback) (d : event_data)  (* [callback(data)] *)
| HookEnable (plugin : string)              (* [plugin._enable_plugin()] *)
| HookDisable (plugin : string)             (* [plugin._disable_plugin()] *)
| ClientPing                                (* [self._client.ping()] *)
| ClientSetvol (v : Z)                      (* [self._client.setvol(v)] *)
| NotifyVolumeChange (v : Z).               (* [self._notify_volume_change(v)] *)

(** ** A state, trace and exception monad for the methods

    A method reads and updates the object it belongs to, appends to the
    trace, and returns or raises.  When it raises, the updates and effects
    made so far stay, as in Python. *)

Section Method.
Context {St : Type}.

Definition M (A : Type) : Type := St -> outcome A * St * list effect.

Definition ret {A} (a : A) : M A := fun s => (Returned a, s, []).

Definition bind {A B} (m : M A) (k : A -> M B) : M B :=
  fun s =>
    match m s with
    | (Returned a, s1, tr1) =>
        let '(r, s2, tr2) := k a s1 in (r, s2, tr1 ++ tr2)
    | (Raised, s1, tr1) => (Raised, s1, tr1)
    end.

Definition get : M St := fun s => (Returned s, s, []).
Definition put (s : St) : M unit := fun _ => (Returned tt, s, []).
Definition modify (f : St -> St) : M unit := fun s => (Returned tt, f s, []).
Definition emit (e : effect) : M unit := fun s => (Returned tt, s, [e]).

(** The answer of a black-box call, spliced into the method. *)
Definition answer {A} (o : outcome A) : M A := fun s => (o, s, []).

(** [try: m  except Exception: handler] *)
Definition try_except {A} (m : M A) (handler : M A) : M A :=
  fun s =>
    match m s with
    | (Returned a, s1, tr1) => (Returned a, s1, tr1)
    | (Raised, s1, tr1) =>
        let '(r, s2, tr2) := handler s1 in (r, s2, tr1 ++ tr2)
    end.

(** [for x in xs: body x] *)
Fixpoint for_each {A} (xs : list A) (body : A -> M unit) : M unit :=
  match xs with
  | [] => ret tt
  | x :: rest => bind (body x) (fun _ => for_each rest body)
  end.

Definition result_of {A} (r : outcome A * St * list effect) : outcome A :=
  fst (fst r).
Definition state_of {A} (r : outcome A * St * list effect) : St :=
  snd (fst r).
Definition trace_of {A} (r : outcome A * St * list effect) : list effect :=
  snd r.
End Method.

Declare Scope method_scope.
Delimit Scope method_scope with method.
Notation "x <- m ;; k" := (bind m (fun x => k))
  (at level 61, m at next level, right associativity) : method_scope.
Notation "m ;; k" := (bind m (fun _ => k))
  (at level 61, right associativity) : method_scope.
Local Open Scope method_scope.

(** ** Insertion-ordered dictionaries with string keys *)

Module Dict.
Section Dict.
Context {V : Type}.

Definition t := list (string * V).

Definition keys (d : t) : list string := map fst d.

(** [k in d] *)
Definition mem (k : string) (d : t) : bool :=
  existsb (String.eqb k) (keys d).

(** [d.get(k)] *)
Fixpoint lookup (k : string) (d : t) : option V :=
  match d with
  | [] => None
  | (k', v) :: rest => if String.eqb k k' then Some v else lookup k rest
  end.

(** [d[k] = v]: an existing key keeps its place, a new key goes last. *)
Fixpoint set (k : string) (v : V) (d : t) : t :=
  match d with
  | [] => [(k, v)]
  | (k', v') :: rest =>
      if String.eqb k k' then (k, v) :: rest else (k', v') :: set k v rest
  end.

(** [d.pop(k)] for a key that is present: the binding is removed and
    the others keep their order. *)
Definition remove (k : string) (d : t) : t :=
  filter (fun kv => negb (String.eqb k (fst kv))) d.

(** [next(iter(d))] on a non-empty dictionary: the first key. *)
Definition first_key (d : t) : option string :=
  match d with
  | [] => None
  | (k, _) :: _ => Some k
  end.
End Dict.
Arguments t V : clear implicits.
End Dict.

(** ** The controller interface, as the engine sees a backend *)

Module PlayerController.
Record t := {
  player_id : string;
  name : string;
  get_player_info : option Player;
  get_current_song : option Song;
  get_position : option Q;
  isActive : bool;
  isConnected : bool;
  play : outcome bool;
  pause : outcome bool;
  stop : outcome bool;
  next : outcome bool;
  previous : outcome bool;
  set_volume : Z -> outcome bool;
  mute : bool -> outcome bool;
  seek : Q -> outcome bool;
  set_shuffle : bool -> outcome bool;
  set_loop_mode : LoopMode -> outcome bool
}.
End PlayerController.

(** ** The coordination engine ([class AudioController]) *)

(** The first component of a listener pair.  [add_listener] is annotated
    with [EventType], but Python does not check it and the plugins pass
    plain strings, so both kinds of key occur in [_listeners]. *)
Inductive listener_key :=
| KeyEvent (e : EventType)
| KeyStr (s : string).

(** [a == b] on listener keys: enum members are equal to themselves only,
    strings compare by contents, and a string never equals a member of a
    plain [enum.Enum]. *)
Definition listener_key_eqb (a b : listener_key) : bool :=
  match a, b with
  | KeyEvent x, KeyEvent y => EventType_eqb x y
  | KeyStr x, KeyStr y => String.eqb x y
  | _, _ => false
  end.

Definition listener_eqb (a b : listener_key * callback) : bool :=
  listener_key_eqb (fst a) (fst b) && String.eqb (snd a) (snd b).

(** [a == b] on [Optional[str]]. *)
Definition opt_id_eqb (a b : option string) : bool :=
  match a, b with
  | Some x, Some y => String.eqb x y
  | None, None => true
  | _, _ => false
  end.

(** [o is None] *)
Definition is_None {A} (o : option A) : bool :=
  match o with None => true | Some _ => false end.

Module AudioController.

Record t := {
  _controllers : Dict.t PlayerController.t;
  _active_controller_id : option string;
  _listeners : list (listener_key * callback);
  _auto_pause : bool;
  _auto_progress : Q;
  _last_known_position : option Q;
  _last_position_update_time : option Q;
  _current_song_duration : option Q
}.

(** [AudioController.__init__] (the plugin manager and the thread handles
    are not part of the registry or extrapolation state). *)
Definition __init__ : t := {|
  _controllers := [];
  _active_controller_id := None;
  _listeners := [];
  _auto_pause := true;
  _auto_progress := 0;
  _last_known_position := None;
  _last_position_update_time := None;
  _current_song_duration := None
|}.

(** Attribute assignments [self._x = v]. *)
Definition set_controllers (v : Dict.t PlayerController.t) (self : t) : t :=
  {| _controllers := v;
     _active_controller_id := _active_controller_id self;
     _listeners := _listeners self;
     _auto_pause := _auto_pause self;
     _auto_progress := _auto_progress self;
     _last_known_position := _last_known_position self;
     _last_position_update_time := _last_position_update_time self;
     _current_song_duration := _current_song_duration self |}.

Definition set_active_controller_id (v : option string) (self : t) : t :=
  {| _controllers := _controllers self;
     _active_controller_id := v;
     _listeners := _listeners self;
     _auto_pause := _auto_pause self;
     _auto_progress := _auto_progress self;
     _last_known_position := _last_known_position self;
     _last_position_update_time := _last_position_update_time self;
     _current_song_duration := _current_song_duration self |}.

Definition set_listeners (v : list (listener_key * callback)) (self : t) : t :=
  {| _controllers := _controllers self;
     _active_controller_id := _active_controller_id self;
     _listeners := v;
     _auto_pause := _auto_pause self;
     _auto_progress := _auto_progress self;
     _last_known_position := _last_known_position self;
     _last_position_update_time := _last_position_update_time self;
     _current_song_duration := _current_song_duration self |}.

Definition set_auto_progress_value (v : Q) (self : t) : t :=
  {| _controllers := _controllers self;
     _active_controller_id := _active_controller_id self;
     _listeners := _listeners self;
     _auto_pause := _auto_pause self;
     _auto_progress := v;
     _last_known_position := _last_known_position self;
     _last_position_update_time := _last_position_update_time self;
     _current_song_duration := _current_song_duration self |}.

Definition set_last_known_position (v : option Q) (self : t) : t :=
  {| _controllers := _controllers self;
     _active_controller_id := _active_controller_id self;
     _listeners := _listeners self;
     _auto_pause := _auto_pause self;
     _auto_progress := _auto_progress self;
     _last_known_position := v;
     _last_position_update_time := _last_position_update_time self;
     _current_song_duration := _current_song_duration self |}.

Definition set_last_position_update_time (v : option Q) (self : t) : t :=
  {| _controllers := _controllers self;
     _active_controller_id := _active_controller_id self;
     _listeners := _listeners self;
     _auto_pause := _auto_pause self;
     _auto_progress := _auto_progress self;
     _last_known_position := _last_known_position self;
     _last_position_update_time := v;
     _current_song_duration := _current_song_duration self |}.

Definition set_current_song_duration (v : option Q) (self : t) : t :=
  {| _controllers := _controllers self;
     _active_controller_id := _active_controller_id self;
     _listeners := _listeners self;
     _auto_pause := _auto_pause self;
     _auto_progress := _auto_progress self;
     _last_known_position := _last_known_position self;
     _last_position_update_time := _last_position_update_time self;
     _current_song_duration := v |}.

(** A method call on a backend: the call is recorded, then the backend
    answers. *)
Definition invoke {A} (controller : PlayerController.t) (c : command)
    (o : outcome A) : M (St := t) A :=
  emit (Call (PlayerController.player_id controller) c) ;;
  answer o.

(** *** Registry *)

(** [register_controller] *)
Definition register_controller (controller : PlayerController.t) : M bool :=
  self <- get ;;
  let player_id := PlayerController.player_id controller in
  if Dict.mem player_id (_controllers self) then ret false
  else
    modify (set_controllers (Dict.set player_id controller (_controllers self))) ;;
    emit (Call player_id CmdAddStateListener) ;;
    self <- get ;;
    match _active_controller_id self with
    | None => modify (set_active_controller_id (Some player_id))
    | Some _ => ret tt
    end ;;
    ret true.

(** [unregister_controller] *)
Definition unregister_controller (player_id : string) : M bool :=
  self <- get ;;
  if negb (Dict.mem player_id (_controllers self)) then ret false
  else
    modify (set_controllers (Dict.remove player_id (_controllers self))) ;;
    emit (Call player_id CmdRemoveStateListener) ;;
    self <- get ;;
    (if opt_id_eqb (_active_controller_id self) (Some player_id) then
       match Dict.first_key (_controllers self) with
       | Some first => modify (set_active_controller_id (Some first))
       | None => modify (set_active_controller_id None)
       end
     else ret tt) ;;
    ret true.

(** [get_controller_ids] *)
Definition get_controller_ids (self : t) : list string :=
  Dict.keys (_controllers self).

(** The property [active_controller]. *)
Definition active_controller (self : t) : option PlayerController.t :=
  match _active_controller_id self with
  | None => None
  | Some id => Dict.lookup id (_controllers self)
  end.

(** *** Event fan-out *)

(** [add_listener]: [set.add] of the pair. *)
Definition add_listener (event_type : listener_key) (cb : callback) : M unit :=
  self <- get ;;
  if existsb (listener_eqb (event_type, cb)) (_listeners self) then ret tt
  else modify (set_listeners (_listeners self ++ [(event_type, cb)])).

(** [remove_listener]: [set.discard] of the pair. *)
Definition remove_listener (event_type : listener_key) (cb : callback) : M unit :=
  self <- get ;;
  modify (set_listeners
    (filter (fun l => negb (listener_eqb (event_type, cb) l)) (_listeners self))).

(** [_notify_listeners].  The set is iterated in some fixed order, here the
    order of the list.  What a callback does is outside the engine; an
    exception it raises is caught and logged. *)
Definition _notify_listeners (event_type : EventType) (data : event_data) : M unit :=
  self <- get ;;
  emit (Dispatched event_type data) ;;
  for_each (_listeners self) (fun '(listener_type, cb) =>
    if listener_key_eqb listener_type (KeyEvent event_type)
    then try_except (emit (Invoked cb data)) (ret tt)
    else ret tt).

(** *** Position queries *)

(** [position >= duration] clamps to the duration when it is known. *)
Definition clamp_to_duration (position : Q) (dur : option Q) : Q :=
  match dur with
  | Some d => if Qle_bool d position then d else position
  | None => position
  end.

(** [get_position].  [now] is the reading of [time.time()]. *)
Definition get_position (now : Q) (self : t) : option Q :=
  let fallback :=
    match active_controller self with
    | Some controller => PlayerController.get_position controller
    | None => None
    end in
  if negb (Qle_bool (_auto_progress self) 0) then
    match _last_known_position self, _last_position_update_time self with
    | Some last_known, Some last_update =>
        match active_controller self with
        | Some controller =>
            match PlayerController.get_player_info controller with
            | Some player_info =>
                if is_PLAYING (state player_info) then
                  let elapsed := now - last_update in
                  let position := last_known + elapsed in
                  Some (clamp_to_duration position (_current_song_duration self))
                else fallback
            | None => fallback
            end
        | None => fallback
        end
    | _, _ => fallback
    end
  else fallback.

(** *** Active-controller selection *)

(** [song.duration if song else None] *)
Definition duration_of (song : option Song) : option Q :=
  match song with
  | Some s => duration s
  | None => None
  end.

(** [set_active_controller] *)
Definition set_active_controller (player_id : string) (now : Q) : M bool :=
  self <- get ;;
  if negb (Dict.mem player_id (_controllers self)) then ret false
  else if opt_id_eqb (_active_controller_id self) (Some player_id) then ret true
  else
    modify (set_active_controller_id (Some player_id)) ;;
    match Dict.lookup player_id (_controllers self) with
    | Some controller =>
        let position := PlayerController.get_position controller in
        let song := PlayerController.get_current_song controller in
        modify (set_last_known_position position) ;;
        modify (set_last_position_update_time
                  (match position with Some _ => Some now | None => None end)) ;;
        modify (set_current_song_duration (duration_of song)) ;;
        ret true
    | None => answer Raised (* KeyError; excluded by the membership test *)
    end.

(** [auto_select_active_controller]: two scans of the registry in
    insertion order, each stopping at the first hit. *)
Definition auto_select_active_controller : M bool :=
  self <- get ;;
  match find (fun kv => PlayerController.isActive (snd kv)) (_controllers self) with
  | Some (player_id, _) =>
      modify (set_active_controller_id (Some player_id)) ;;
      ret true
  | None =>
      match find (fun kv => PlayerController.isConnected (snd kv)) (_controllers self) with
      | Some (player_id, _) =>
          modify (set_active_controller_id (Some player_id)) ;;
          ret true
      | None => ret false
      end
  end.

(** *** Command forwarding *)

(** [play] *)
Definition play (now : Q) : M bool :=
  self <- get ;;
  match active_controller self with
  | Some controller =>
      result <- invoke controller CmdPlay (PlayerController.play controller) ;;
      (if (result : bool) then
         match PlayerController.get_position controller with
         | Some position =>
             modify (set_last_known_position (Some position)) ;;
             modify (set_last_position_update_time (Some now))
         | None => ret tt
         end
       else ret tt) ;;
      ret result
  | None => ret false
  end.

(** [pause] *)
Definition pause : M bool :=
  self <- get ;;
  match active_controller self with
  | Some controller =>
      result <- invoke controller CmdPause (PlayerController.pause controller) ;;
      (if (result : bool) then modify (set_last_position_update_time None)
       else ret tt) ;;
      ret result
  | None => ret false
  end.

(** [pause_other_controllers]: every registered controller except the
    active one is sent [pause]; an exception is caught per controller. *)
Definition pause_other_controllers : M unit :=
  self <- get ;;
  for_each (_controllers self) (fun '(player_id, controller) =>
    self <- get ;;
    if negb (opt_id_eqb (Some player_id) (_active_controller_id self)) then
      try_except
        (_ <- invoke controller CmdPause (PlayerController.pause controller) ;;
         ret tt)
        (ret tt)
    else ret tt).

(** [stop] *)
Definition stop : M bool :=
  self <- get ;;
  match active_controller self with
  | Some controller =>
      result <- invoke controller CmdStop (PlayerController.stop controller) ;;
      (if (result : bool) then
         modify (set_last_position_update_time None) ;;
         modify (set_last_known_position (Some 0))
       else ret tt) ;;
      ret result
  | None => ret false
  end.

(** [next] *)
Definition next : M bool :=
  self <- get ;;
  match active_controller self with
  | Some controller => invoke controller CmdNext (PlayerController.next controller)
  | None => ret false
  end.

(** [previous] *)
Definition previous : M bool :=
  self <- get ;;
  match active_controller self with
  | Some controller =>
      invoke controller CmdPrevious (PlayerController.previous controller)
  | None => ret false
  end.

(** [set_volume] *)
Definition set_volume (volume : Z) : M bool :=
  self <- get ;;
  match active_controller self with
  | Some controller =>
      invoke controller (CmdSetVolume volume)
        (PlayerController.set_volume controller volume)
  | None => ret false
  end.

(** [mute] *)
Definition mute (m : bool) : M bool :=
  self <- get ;;
  match active_controller self with
  | Some controller => invoke controller (CmdMute m) (PlayerController.mute controller m)
  | None => ret false
  end.

(** [seek] *)
Definition seek (position : Q) (now : Q) : M bool :=
  self <- get ;;
  match active_controller self with
  | Some controller =>
      result <- invoke controller (CmdSeek position)
                  (PlayerController.seek controller position) ;;
      (if (result : bool) then
         modify (set_last_known_position (Some position)) ;;
         modify (set_last_position_update_time (Some now))
       else ret tt) ;;
      ret result
  | None => ret false
  end.

(** [set_shuffle] *)
Definition set_shuffle (enabled : bool) : M bool :=
  self <- get ;;
  match active_controller self with
  | Some controller =>
      invoke controller (CmdSetShuffle enabled)
        (PlayerController.set_shuffle controller enabled)
  | None => ret false
  end.

(** [set_loop_mode] *)
Definition set_loop_mode (mode : LoopMode) : M bool :=
  self <- get ;;
  match active_controller self with
  | Some controller =>
      invoke controller (CmdSetLoopMode mode)
        (PlayerController.set_loop_mode controller mode)
  | None => ret false
  end.

(** *** [PlayerStateListener] implementation: events pushed by backends *)

(** [on_player_state_change] *)
Definition on_player_state_change (player : Player) (now : Q) : M unit :=
  self <- get ;;
  (if is_PLAYING (state player)
      && negb (opt_id_eqb (player_id player) (_active_controller_id self))
   then
     modify (set_active_controller_id (player_id player)) ;;
     self <- get ;;
     if _auto_pause self then pause_other_controllers else ret tt
   else ret tt) ;;
  self <- get ;;
  if opt_id_eqb (player_id player) (_active_controller_id self)
     || (is_PLAYING (state player) && is_None (_active_controller_id self))
  then
    (if is_PLAYING (state player) && is_None (_active_controller_id self) then
       match player_id player with
       | Some id => _ <- set_active_controller id now ;; ret tt
       | None => ret tt (* [None] is not a key: the call returns False *)
       end
     else ret tt) ;;
    (if is_PLAYING (state player) then
       self <- get ;;
       match get_position now self with
       | Some current_pos =>
           modify (set_last_known_position (Some current_pos)) ;;
           modify (set_last_position_update_time (Some now))
       | None => ret tt
       end
     else modify (set_last_position_update_time None)) ;;
    _notify_listeners PLAYER_STATE_CHANGE (DataPlayer player)
  else ret tt.

(** [on_song_change] *)
Definition on_song_change (song : option Song) (now : Q) : M unit :=
  self <- get ;;
  if negb (is_None (_active_controller_id self)) then
    modify (set_current_song_duration (duration_of song)) ;;
    modify (set_last_known_position (Some 0)) ;;
    modify (set_last_position_update_time (Some now)) ;;
    _notify_listeners SONG_CHANGE (DataSong song)
  else ret tt.

(** [on_volume_change] *)
Definition on_volume_change (volume : Z) : M unit :=
  self <- get ;;
  if negb (is_None (_active_controller_id self)) then
    _notify_listeners VOLUME_CHANGE (DataVolume volume)
  else ret tt.

(** [on_position_change] *)
Definition on_position_change (position : option Q) (now : Q) : M unit :=
  self <- get ;;
  if negb (is_None (_active_controller_id self)) then
    modify (set_last_known_position position) ;;
    modify (set_last_position_update_time (Some now)) ;;
    _notify_listeners POSITION_CHANGE (DataPosition position)
  else ret tt.

(** [on_capability_change] *)
Definition on_capability_change (capabilities : list string) : M unit :=
  _notify_listeners CAPABILITY_CHANGE (DataCapabilities capabilities).

(** *** Position extrapolation *)

(** [set_auto_progress]: [max(0.0, float(interval))]. *)
Definition set_auto_progress (interval : Q) : M unit :=
  modify (set_auto_progress_value (if Qle_bool 0 interval then interval else 0)).

(** The second locked block of the worker's loop body: the extrapolation
    proper.  [is_playing] is the loop's local flag; the new value of the
    flag is returned. *)
Definition extrapolate (current_time : Q) (is_playing : bool) : M bool :=
  self <- get ;;
  match _last_known_position self, _last_position_update_time self with
  | Some last_known, Some last_update =>
      let elapsed := current_time - last_update in
      if Qle_bool (_auto_progress self) elapsed then
        let new_position := last_known + elapsed in
        let at_end :=
          match _current_song_duration self with
          | Some d => Qle_bool d new_position
          | None => false
          end in
        let new_position := clamp_to_duration new_position (_current_song_duration self) in
        modify (set_last_known_position (Some new_position)) ;;
        modify (set_last_position_update_time (Some current_time)) ;;
        _notify_listeners POSITION_CHANGE (DataPosition (Some new_position)) ;;
        ret (if at_end then false else is_playing)
      else ret is_playing
  | _, _ => ret is_playing
  end.

(** One turn of the [while] loop of [_auto_progress_worker], after the
    sleep.  [init_time] and [current_time] are the two readings of
    [time.time()]; a [continue] returns the flag as it then stands. *)
Definition _auto_progress_worker (init_time current_time : Q)
    (is_playing : bool) : M bool :=
  try_except
    (self <- get ;;
     if Qle_bool (_auto_progress self) 0 then ret false
     else
       match active_controller self with
       | None => ret false
       | Some controller =>
           if negb is_playing then
             match PlayerController.get_player_info controller with
             | Some player_info =>
                 if is_PLAYING (state player_info) then
                   (match _last_known_position self with
                    | None =>
                        modify (set_last_known_position
                          (Some (match PlayerController.get_position controller with
                                 | Some p => p
                                 | None => 0
                                 end))) ;;
                        modify (set_last_position_update_time (Some init_time))
                    | Some _ => ret tt
                    end) ;;
                   extrapolate current_time true
                 else ret is_playing
             | None => ret is_playing
             end
           else extrapolate current_time is_playing
       end)
    (ret false).

End AudioController.

(** ** The MPD backend's volume path ([MPDPlayerController.set_volume]) *)

Module MPDPlayerController.

(** The fields the volume path touches, and what the MPD client answers:
    [ping] and [setvol] return nothing or raise. *)
Record t := {
  _is_muted : bool;
  _volume_before_mute : Z;
  client_ping : outcome unit;
  client_setvol : Z -> outcome unit
}.

Definition set_is_muted (v : bool) (self : t) : t :=
  {| _is_muted := v;
     _volume_before_mute := _volume_before_mute self;
     client_ping := client_ping self;
     client_setvol := client_setvol self |}.

(** [_ensure_connected] *)
Definition _ensure_connected : M (St := t) bool :=
  try_except
    (self <- get ;;
     emit ClientPing ;;
     answer (client_ping self) ;;
     ret true)
    (ret false).

(** [set_volume] *)
Definition set_volume (volume : Z) : M (St := t) bool :=
  connected <- _ensure_connected ;;
  if negb connected then ret false
  else
    try_except
      (self <- get ;;
       let volume := Z.max 0 (Z.min 100 volume) in
       emit (ClientSetvol volume) ;;
       answer (client_setvol self volume) ;;
       (if (0 <? volume)%Z then modify (set_is_muted false) else ret tt) ;;
       emit (NotifyVolumeChange volume) ;;
       ret true)
      (ret false).

End MPDPlayerController.

(** ** Plugins ([ac3/addons/plugin.py]) *)

Module Plugin.

(** The attributes of [class Plugin].  [_audio_controller] refers to the
    engine the plugin is bound to, or is [None]; the engine is reached and
    updated through it. *)
Record t := {
  _audio_controller : option AudioController.t;
  _enabled : bool
}.

(** [Plugin.__init__] *)
Definition __init__ : t := {| _audio_controller := None; _enabled := false |}.

Definition set_enabled (v : bool) (self : t) : t :=
  {| _audio_controller := _audio_controller self; _enabled := v |}.

(** [set_audio_controller] *)
Definition set_audio_controller (audio_controller : AudioController.t) : M (St := t) unit :=
  modify (fun self =>
    {| _audio_controller := Some audio_controller; _enabled := _enabled self |}).

(** The abstract part of [class Plugin]: what a subclass provides. *)
Class Hooks := {
  name : string;
  _enable_plugin : M (St := t) bool;
  _disable_plugin : M (St := t) bool
}.

(** [enable] *)
Definition enable `{Hooks} : M (St := t) bool :=
  self <- get ;;
  if _enabled self then ret true
  else
    try_except
      (emit (HookEnable name) ;;
       enabled <- _enable_plugin ;;
       modify (set_enabled enabled) ;;
       ret enabled)
      (ret false).

(** [disable] *)
Definition disable `{Hooks} : M (St := t) bool :=
  self <- get ;;
  if negb (_enabled self) then ret true
  else
    try_except
      (emit (HookDisable name) ;;
       disabled <- _disable_plugin ;;
       modify (set_enabled (negb disabled)) ;;
       self <- get ;;
       ret (negb (_enabled self)))
      (ret false).

(** A call [self._audio_controller.m(...)] on the bound engine. *)
Definition on_engine {A} (m : M (St := AudioController.t) A) : M (St := t) A :=
  fun self =>
    match _audio_controller self with
    | Some ac =>
        let '(r, ac', tr) := m ac in
        (r, {| _audio_controller := Some ac'; _enabled := _enabled self |}, tr)
    | None => (Raised, self, []) (* AttributeError on [None] *)
    end.

End Plugin.

(** [class AutoPausePlugin(Plugin)]: the lifecycle hooks. *)
Module AutoPausePlugin.

Definition _on_player_state_change : callback :=
  "AutoPausePlugin._on_player_state_change".

Definition _enable_plugin : M (St := Plugin.t) bool :=
  self <- get ;;
  if is_None (Plugin._audio_controller self) then ret false
  else
    Plugin.on_engine
      (AudioController.add_listener (KeyStr "player_state_change")
         _on_player_state_change) ;;
    ret true.

Definition _disable_plugin : M (St := Plugin.t) bool :=
  self <- get ;;
  if is_None (Plugin._audio_controller self) then ret true
  else
    Plugin.on_engine
      (AudioController.remove_listener (KeyStr "player_state_change")
         _on_player_state_change) ;;
    ret true.

#[export] Instance hooks : Plugin.Hooks := {|
  Plugin.name := "AutoPause";
  Plugin._enable_plugin := _enable_plugin;
  Plugin._disable_plugin := _disable_plugin
|}.

End AutoPausePlugin.

(** [class VolumeNormalizationPlugin(Plugin)]: the lifecycle hooks. *)
Module VolumeNormalizationPlugin.

Definition _on_song_change : callback :=
  "VolumeNormalizationPlugin._on_song_change".

Definition _enable_plugin : M (St := Plugin.t) bool :=
  self <- get ;;
  if is_None (Plugin._audio_controller self) then ret false
  else
    Plugin.on_engine
      (AudioController.add_listener (KeyStr "song_change") _on_song_change) ;;
    ret true.

Definition _disable_plugin : M (St := Plugin.t) bool :=
  self <- get ;;
  if is_None (Plugin._audio_controller self) then ret true
  else
    Plugin.on_engine
      (AudioController.remove_listener (KeyStr "song_change") _on_song_change) ;;
    ret true.

#[export] Instance hooks : Plugin.Hooks := {|
  Plugin.name := "VolumeNormalization";
  Plugin._enable_plugin := _enable_plugin;
  Plugin._disable_plugin := _disable_plugin
|}.

End VolumeNormalizationPlugin.

(** ** Runs of registry calls *)

Inductive registry_call :=
| Register (controller : PlayerController.t)
| Unregister (player_id : string).

Definition perform (c : registry_call) : M (St := AudioController.t) bool :=
  match c with
  | Register controller => AudioController.register_controller controller
  | Unregister player_id => AudioController.unregister_controller player_id
  end.

(** The engine after the calls [cs], made one after the other. *)
Fixpoint perform_all (cs : list registry_call) (self : AudioController.t)
    : AudioController.t :=
  match cs with
  | [] => self
  | c :: rest => perform_all rest (state_of (perform c self))
  end.

(** The registered ids that the engine marks as active. *)
Definition marked_active (self : AudioController.t) : list string :=
  filter (fun k => opt_id_eqb (Some k) (AudioController._active_controller_id self))
    (AudioController.get_controller_ids self).

(** The registry invariant: keys are unique (it is a [dict]) and the active
    id, when there is one, is a key. *)
Definition registry_ok (self : AudioController.t) : Prop :=
  NoDup (AudioController.get_controller_ids self) /\
  forall id, AudioController._active_controller_id self = Some id ->
             In id (AudioController.get_controller_ids self).

(** ** Sample backends *)

(** [class NullPlayerController]: every command returns [False], the state
    is the string ["stopped"], no position, not connected. *)
Definition NullPlayerController (player_id : string) : PlayerController.t := {|
  PlayerController.player_id := player_id;
  PlayerController.name := "Null Player";
  PlayerController.get_player_info :=
    Some {| name := "Null Player"; player_id := Some player_id;
            state := StateStr "stopped"; volume := Some 0%Z; position := None |};
  PlayerController.get_current_song := None;
  PlayerController.get_position := None;
  PlayerController.isActive := false;
  PlayerController.isConnected := false;
  PlayerController.play := Returned false;
  PlayerController.pause := Returned false;
  PlayerController.stop := Returned false;
  PlayerController.next := Returned false;
  PlayerController.previous := Returned false;
  PlayerController.set_volume := fun _ => Returned false;
  PlayerController.mute := fun _ => Returned false;
  PlayerController.seek := fun _ => Returned false;
  PlayerController.set_shuffle := fun _ => Returned false;
  PlayerController.set_loop_mode := fun _ => Returned false
|}.

(** A connected backend in state [st] at position [pos] of a song of
    duration [dur], which accepts every command. *)
Definition connected_backend (id : string) (st : PlayerState)
    (pos dur : option Q) : PlayerController.t := {|
  PlayerController.player_id := id;
  PlayerController.name := id;
  PlayerController.get_player_info :=
    Some {| name := id; player_id := Some id; state := StateEnum st;
            volume := Some 50%Z; position := pos |};
  PlayerController.get_current_song := Some {| title := None; duration := dur |};
  PlayerController.get_position := pos;
  PlayerController.isActive := PlayerState_eqb st PLAYING;
  PlayerController.isConnected := true;
  PlayerController.play := Returned true;
  PlayerController.pause := Returned true;
  PlayerController.stop := Returned true;
  PlayerController.next := Returned true;
  PlayerController.previous := Returned true;
  PlayerController.set_volume := fun _ => Returned true;
  PlayerController.mute := fun _ => Returned true;
  PlayerController.seek := fun _ => Returned true;
  PlayerController.set_shuffle := fun _ => Returned true;
  PlayerController.set_loop_mode := fun _ => Returned true
|}.

(** A backend whose [pause] raises. *)
Definition failing_pause_backend (id : string) (st : PlayerState) : PlayerController.t := {|
  PlayerController.player_id := id;
  PlayerController.name := id;
  PlayerController.get_player_info :=
    Some {| name := id; player_id := Some id; state := StateEnum st;
            volume := None; position := None |};
  PlayerController.get_current_song := None;
  PlayerController.get_position := None;
  PlayerController.isActive := PlayerState_eqb st PLAYING;
  PlayerController.isConnected := true;
  PlayerController.play := Returned true;
  PlayerController.pause := Raised;
  PlayerController.stop := Returned true;
  PlayerController.next := Returned true;
  PlayerController.previous := Returned true;
  PlayerController.set_volume := fun _ => Returned true;
  PlayerController.mute := fun _ => Returned true;
  PlayerController.seek := fun _ => Returned true;
  PlayerController.set_shuffle := fun _ => Returned true;
  PlayerController.set_loop_mode := fun _ => Returned true
|}.

(** ** Vocabulary of the statements *)

Import AudioController.

(** The callbacks a dispatch of [event_type] invokes: those of the pairs
    whose key is that member of [EventType]. *)
Definition matching_callbacks (event_type : EventType)
    (listeners : list (listener_key * callback)) : list callback :=
  map snd (filter (fun l => listener_key_eqb (fst l) (KeyEvent event_type)) listeners).

(** The backends that [pause_other_controllers] pauses: all the registered
    ones but the active one, in registration order. *)
Definition other_controllers (self : t) : list PlayerController.t :=
  map snd
    (filter (fun kv => negb (opt_id_eqb (Some (fst kv)) (_active_controller_id self)))
       (_controllers self)).

(** The calls on backends within a trace. *)
Definition backend_calls (tr : list effect) : list effect :=
  filter (fun e => match e with Call _ _ => true | _ => false end) tr.

(** [get_player_info().state == PlayerState.PLAYING] on a backend. *)
Definition reports_PLAYING (c : PlayerController.t) : bool :=
  match PlayerController.get_player_info c with
  | Some info => is_PLAYING (state info)
  | None => false
  end.

(** The engine a plugin is bound to, after a step of the plugin. *)
Definition bound_engine (r : outcome bool * Plugin.t * list effect)
    (default : t) : t :=
  match Plugin._audio_controller (state_of r) with
  | Some ac => ac
  | None => default
  end.

(** *** Observing the position *)

(** What is seen of the position while the extrapolation state is left to
    the worker: a [get_position] call at a given time, or a turn of the
    worker's loop. *)
Inductive observation :=
| Query (now : Q)
| Tick (init_time current_time : Q).

Definition time_of (o : observation) : Q :=
  match o with
  | Query now => now
  | Tick _ current_time => current_time
  end.

(** The positions handed to [_notify_listeners(POSITION_CHANGE, _)]. *)
Fixpoint emitted_positions (tr : list effect) : list Q :=
  match tr with
  | [] => []
  | Dispatched POSITION_CHANGE (DataPosition (Some p)) :: rest =>
      p :: emitted_positions rest
  | _ :: rest => emitted_positions rest
  end.

(** The worker's local flag after a turn of the loop. *)
Definition flag_of (r : outcome bool * t * list effect) : bool :=
  match result_of r with
  | Returned b => b
  | Raised => false
  end.

(** The positions returned by [get_position] and emitted by the worker, in
    order, along a series of observations. *)
Fixpoint observe (obs : list observation) (is_playing : bool) (self : t) : list Q :=
  match obs with
  | [] => []
  | Query now :: rest =>
      match get_position now self with
      | Some p => p :: observe rest is_playing self
      | None => observe rest is_playing self
      end
  | Tick init_time current_time :: rest =>
      let r := _auto_progress_worker init_time current_time is_playing self in
      emitted_positions (trace_of r) ++ observe rest (flag_of r) (state_of r)
  end.

(** The clock readings of the observations do not go back, starting from
    [t]. *)
Fixpoint clock_from (t : Q) (obs : list observation) : Prop :=
  match obs with
  | [] => True
  | o :: rest => t <= time_of o /\ clock_from (time_of o) rest
  end.

(** Each position is at most the next one. *)
Fixpoint nondecreasing (l : list Q) : Prop :=
  match l with
  | [] => True
  | p :: rest =>
      match rest with
      | [] => True
      | q :: _ => p <= q
      end /\ nondecreasing rest
  end.

(** The engine extrapolates: auto-progress is on, a position [p0] was
    stored at time [t0], and the active backend reports PLAYING. *)
Definition extrapolating (self : t) (p0 t0 : Q) : Prop :=
  0 < _auto_progress self /\
  _last_known_position self = Some p0 /\
  _last_position_update_time self = Some t0 /\
  exists controller info,
    active_controller self = Some controller /\
    PlayerController.get_player_info controller = Some info /\
    is_PLAYING (state info) = true.

(** *** Sample engines *)

(** The engine with one registered, active backend "mpd". *)
Definition one_backend : t :=
  perform_all [Register (connected_backend "mpd" PLAYING (Some 50) (Some 200))]
    __init__.

(** Three registered backends: "radio" is active and stopped, "bt" raises
    on [pause], "mpd" is the one that starts playing. *)
Definition three_backends : t :=
  perform_all [Register (connected_backend "radio" STOPPED None None);
               Register (failing_pause_backend "bt" PAUSED);
               Register (connected_backend "mpd" PLAYING (Some 50) (Some 200))]
    __init__.

Definition mpd_playing : Player :=
  {| name := "mpd"; player_id := Some "mpd"; state := StateEnum PLAYING;
     volume := Some 50%Z; position := Some 50 |}.

(** The engine with auto-progress every second, bound to "mpd", which plays
    a song of 200 s; [play] was called at time 0, when "mpd" was at 50 s. *)
Definition playing_engine : t :=
  state_of (play 0
    (state_of (on_song_change (Some {| title := None; duration := Some 200 |}) 0
       (state_of (set_auto_progress 1 one_backend))))).

(** The engine bound to "mpd", which plays a song of 200 s. *)
Definition engine_with_song : t :=
  state_of (on_song_change (Some {| title := None; duration := Some 200 |}) 0
    one_backend).

(** ** More of the engine *)

(** [get_controller] *)
Definition get_controller (player_id : string) (self : t)
    : option PlayerController.t :=
  Dict.lookup player_id (_controllers self).

(** [get_controllers] *)
Definition get_controllers (self : t) : list PlayerController.t :=
  map snd (_controllers self).

(** [get_auto_progress] *)
Definition get_auto_progress (self : t) : Q := _auto_progress self.

(** [get_active_player_info] *)
Definition get_active_player_info (self : t) : option Player :=
  match active_controller self with
  | Some controller => PlayerController.get_player_info controller
  | None => None
  end.

(** [get_current_song] *)
Definition get_current_song (self : t) : option Song :=
  match active_controller self with
  | Some controller => PlayerController.get_current_song controller
  | None => None
  end.

(** The worker's [sleep_time]:
    [max(0.1, min(0.5, self._auto_progress / 2.0)) if self._auto_progress > 0 else 0.5]. *)
Definition sleep_time (self : t) : Q :=
  if negb (Qle_bool (_auto_progress self) 0)
  then Qmax (1 # 10) (Qmin (1 # 2) (_auto_progress self / 2))
  else 1 # 2.

(** What the operations other than registration and selection leave
    alone: the registry, the active id, the listeners and the auto-pause
    flag. *)
Definition same_registry (before after : t) : Prop :=
  _controllers after = _controllers before /\
  _active_controller_id after = _active_controller_id before /\
  _listeners after = _listeners before /\
  _auto_pause after = _auto_pause before.

(** The engine as runs of registrations and unregistrations leave it: the
    registry invariant, and a controller is active as soon as one is
    registered. *)
Definition settled (self : t) : Prop :=
  registry_ok self /\
  (_active_controller_id self = None -> _controllers self = []).

(** The registered controllers other than [id] that report PLAYING. *)
Definition playing_others (id : option string) (ac : t) : list PlayerController.t :=
  filter reports_PLAYING
    (map snd (filter (fun kv => negb (opt_id_eqb (Some (fst kv)) id)) (_controllers ac))).

(** No pair occurs twice in the listener set. *)
Definition listeners_unique (self : t) : Prop := NoDup (_listeners self).

(** ** The AutoPause plugin's handler ([AutoPausePlugin._on_player_state_change]) *)

Module AutoPauseHandler.

(** [_pause_other_players] *)
Definition _pause_other_players (active_player_id : option string)
    : M (St := Plugin.t) unit :=
  self <- get ;;
  match Plugin._audio_controller self with
  | None => answer Raised (* AttributeError on [None] *)
  | Some ac =>
      for_each (_controllers ac) (fun '(player_id, controller) =>
        if negb (opt_id_eqb (Some player_id) active_player_id) then
          try_except
            (match PlayerController.get_player_info controller with
             | Some player_info =>
                 if is_PLAYING (state player_info) then
                   emit (Call (PlayerController.player_id controller) CmdPause) ;;
                   _ <- answer (PlayerController.pause controller) ;;
                   ret tt
                 else ret tt
             | None => ret tt
             end)
            (ret tt)
        else ret tt)
  end.

(** [_on_player_state_change] *)
Definition _on_player_state_change (player : Player) (now : Q)
    : M (St := Plugin.t) unit :=
  if negb (is_PLAYING (state player)) then ret tt
  else
    self <- get ;;
    match Plugin._audio_controller self with
    | None => answer Raised (* AttributeError on [None] *)
    | Some ac =>
        if opt_id_eqb (_active_controller_id ac) (player_id player) then ret tt
        else
          match player_id player with
          | Some id =>
              _ <- Plugin.on_engine (set_active_controller id now) ;; ret tt
          | None => ret tt (* [None] is not a key: the call returns False *)
          end ;;
          _pause_other_players (player_id player)
    end.

End AutoPauseHandler.

(** ** The plugin manager ([class PluginManager]) *)

Module PluginManager.

(** A plugin class as [discover_plugins] records it: its [__name__], under
    which it is filed, and what calling it gives (an instance, with its
    own [name] and hooks, or an exception). *)
Record plugin_class := {
  __name__ : string;
  instantiate : outcome Plugin.Hooks
}.

(** A loaded instance.  Every instance the manager loads is bound to the
    manager's engine by [set_audio_controller]; the engine is kept once, in
    the manager, and lent to the instance for the time of a call. *)
Record instance := {
  hooks : Plugin.Hooks;
  _enabled : bool
}.

Record t := {
  _audio_controller : AudioController.t;
  _plugins : Dict.t instance;
  _plugin_classes : Dict.t plugin_class
}.

(** [PluginManager.__init__] *)
Definition __init__ (audio_controller : AudioController.t) : t := {|
  _audio_controller := audio_controller;
  _plugins := [];
  _plugin_classes := []
|}.

Definition set_plugins (v : Dict.t instance) (self : t) : t :=
  {| _audio_controller := _audio_controller self;
     _plugins := v;
     _plugin_classes := _plugin_classes self |}.

(** [load_plugin].  The result stands for the returned instance by the
    key it is stored under. *)
Definition load_plugin (cls : plugin_class) : M (St := t) (option string) :=
  try_except
    (plugin <- answer (instantiate cls) ;;
     self <- get ;;
     let plugin_id := @Plugin.name plugin in
     if Dict.mem plugin_id (_plugins self) then ret (Some plugin_id)
     else
       modify (set_plugins
         (Dict.set plugin_id {| hooks := plugin; _enabled := false |}
            (_plugins self))) ;;
       ret (Some plugin_id))
    (ret None).

(** [load_plugin_by_name] *)
Definition load_plugin_by_name (plugin_name : string) : M (St := t) (option string) :=
  self <- get ;;
  if Dict.mem plugin_name (_plugins self) then ret (Some plugin_name)
  else
    match Dict.lookup plugin_name (_plugin_classes self) with
    | Some cls => load_plugin cls
    | None => ret None
    end.

(** [load_all_plugins] *)
Definition load_all_plugins : M (St := t) (list string) :=
  self <- get ;;
  fold_left
    (fun (acc : M (St := t) (list string)) (cls : plugin_class) =>
       loaded <- acc ;;
       plugin <- load_plugin cls ;;
       match plugin with
       | Some plugin_id => ret (loaded ++ [plugin_id])
       | None => ret loaded
       end)
    (map snd (_plugin_classes self)) (ret []).

(** [self._plugins[plugin_id].m()]: a method of a loaded instance, run on
    the instance with the manager's engine; a missing key is a KeyError. *)
Definition on_plugin {A} (plugin_id : string)
    (m : Plugin.Hooks -> M (St := Plugin.t) A) : M (St := t) A :=
  fun self =>
    match Dict.lookup plugin_id (_plugins self) with
    | None => (Raised, self, [])
    | Some inst =>
        let '(r, plugin, tr) :=
          m (hooks inst)
            {| Plugin._audio_controller := Some (_audio_controller self);
               Plugin._enabled := _enabled inst |} in
        (r,
         {| _audio_controller :=
              match Plugin._audio_controller plugin with
              | Some ac => ac
              | None => _audio_controller self
              end;
            _plugins :=
              Dict.set plugin_id
                {| hooks := hooks inst; _enabled := Plugin._enabled plugin |}
                (_plugins self);
            _plugin_classes := _plugin_classes self |},
         tr)
    end.

(** [enable_plugin] *)
Definition enable_plugin (plugin_id : string) : M (St := t) bool :=
  self <- get ;;
  found <-
    (if negb (Dict.mem plugin_id (_plugins self)) then
       plugin <- load_plugin_by_name plugin_id ;;
       ret (negb (is_None plugin))
     else ret true) ;;
  if negb (found : bool) then ret false
  else on_plugin plugin_id (fun h => @Plugin.enable h).

(** [disable_plugin] *)
Definition disable_plugin (plugin_id : string) : M (St := t) bool :=
  self <- get ;;
  if negb (Dict.mem plugin_id (_plugins self)) then ret false
  else on_plugin plugin_id (fun h => @Plugin.disable h).

(** [get_plugin] *)
Definition get_plugin (plugin_id : string) (self : t) : option instance :=
  Dict.lookup plugin_id (_plugins self).

(** [get_enabled_plugins] *)
Definition get_enabled_plugins (self : t) : Dict.t instance :=
  filter (fun kv => _enabled (snd kv)) (_plugins self).

End PluginManager.

(** The two plugin classes as discovery files them: under the class name,
    which is not the name the instance reports. *)
Definition AutoPausePlugin_class : PluginManager.plugin_class :=
  {| PluginManager.__name__ := "AutoPausePlugin";
     PluginManager.instantiate := Returned AutoPausePlugin.hooks |}.

Definition VolumeNormalizationPlugin_class : PluginManager.plugin_class :=
  {| PluginManager.__name__ := "VolumeNormalizationPlugin";
     PluginManager.instantiate := Returned VolumeNormalizationPlugin.hooks |}.

(** The manager after discovery of the two classes, on an engine. *)
Definition discovered (audio_controller : AudioController.t) : PluginManager.t :=
  {| PluginManager._audio_controller := audio_controller;
     PluginManager._plugins := [];
     PluginManager._plugin_classes :=
       [("AutoPausePlugin", AutoPausePlugin_class);
        ("VolumeNormalizationPlugin", VolumeNormalizationPlugin_class)] |}.

(** ** Muting on the MPD backend ([MPDPlayerController.mute], [get_volume]) *)

Module MPDMute.

(** The MPD controller with what [self._client.status()] answers about the
    volume: it raises, or the status has no usable ["volume"] entry, or it
    has one. *)
Record t := {
  base : MPDPlayerController.t;
  client_status_volume : outcome (option Z)
}.

(** A method of the volume path, run on this controller. *)
Definition on_base {A} (m : M (St := MPDPlayerController.t) A) : M (St := t) A :=
  fun self =>
    let '(r, b, tr) := m (base self) in
    (r, {| base := b; client_status_volume := client_status_volume self |}, tr).

Definition set_volume_before_mute (v : Z) (self : MPDPlayerController.t)
    : MPDPlayerController.t :=
  {| MPDPlayerController._is_muted := MPDPlayerController._is_muted self;
     MPDPlayerController._volume_before_mute := v;
     MPDPlayerController.client_ping := MPDPlayerController.client_ping self;
     MPDPlayerController.client_setvol := MPDPlayerController.client_setvol self |}.

(** [get_volume] *)
Definition get_volume : M (St := t) Z :=
  connected <- on_base MPDPlayerController._ensure_connected ;;
  if negb connected then ret 0%Z
  else
    try_except
      (self <- get ;;
       status <- answer (client_status_volume self) ;;
       match status with
       | Some v => ret v
       | None => ret 0%Z
       end)
      (ret 0%Z).

(** [mute] *)
Definition mute (m : bool) : M (St := t) bool :=
  connected <- on_base MPDPlayerController._ensure_connected ;;
  if negb connected then ret false
  else
    try_except
      (self <- get ;;
       if m && negb (MPDPlayerController._is_muted (base self)) then
         v <- get_volume ;;
         on_base (modify (set_volume_before_mute v)) ;;
         self <- get ;;
         emit (ClientSetvol 0) ;;
         answer (MPDPlayerController.client_setvol (base self) 0%Z) ;;
         on_base (modify (MPDPlayerController.set_is_muted true)) ;;
         emit (NotifyVolumeChange 0) ;;
         ret true
       else if negb m && MPDPlayerController._is_muted (base self) then
         let v := MPDPlayerController._volume_before_mute (base self) in
         emit (ClientSetvol v) ;;
         answer (MPDPlayerController.client_setvol (base self) v) ;;
         on_base (modify (MPDPlayerController.set_is_muted false)) ;;
         emit (NotifyVolumeChange v) ;;
         ret true
       else ret true)
      (ret false).

(** [is_muted] *)
Definition is_muted (self : t) : bool := MPDPlayerController._is_muted (base self).

(** [set_volume], on this controller. *)
Definition set_volume (volume : Z) : M (St := t) bool :=
  on_base (MPDPlayerController.set_volume volume).

End MPDMute.

(** ** The callback table of a backend ([PlayerController.register_callback] ...) *)

Module Callbacks.

(** [self._callbacks : Dict[str, List[Callable]]] *)
Definition t := Dict.t (list callback).

(** [list.remove(x)]: the first occurrence goes. *)
Fixpoint list_remove (cb : callback) (l : list callback) : list callback :=
  match l with
  | [] => []
  | x :: rest => if String.eqb cb x then rest else x :: list_remove cb rest
  end.

(** [register_callback] *)
Definition register_callback (event_type : string) (cb : callback) (d : t) : t :=
  let d := if Dict.mem event_type d then d else Dict.set event_type [] d in
  match Dict.lookup event_type d with
  | Some l =>
      if existsb (String.eqb cb) l then d
      else Dict.set event_type (l ++ [cb]) d
  | None => d
  end.

(** [unregister_callback] *)
Definition unregister_callback (event_type : string) (cb : callback) (d : t) : t :=
  match Dict.lookup event_type d with
  | Some l =>
      if existsb (String.eqb cb) l then
        match list_remove cb l with
        | [] => Dict.remove event_type d
        | l' => Dict.set event_type l' d
        end
      else d
  | None => d
  end.

(** [trigger_callback].  [run cb] is what calling the callback does; an
    exception is caught and logged, per callback. *)
Definition trigger_callback (run : callback -> outcome unit)
    (event_type : string) (data : event_data) : M (St := t) unit :=
  self <- get ;;
  match Dict.lookup event_type self with
  | Some l =>
      for_each l (fun cb =>
        try_except (emit (Invoked cb data) ;; answer (run cb)) (ret tt))
  | None => ret tt
  end.

(** The table as the three methods keep it: no key without a callback, no
    callback twice under a key, no key twice. *)
Definition well_formed (d : t) : Prop :=
  NoDup (Dict.keys d) /\
  forall k l, In (k, l) d -> l <> [] /\ NoDup l.

End Callbacks.



(** ** The earlier controller ([ac3/controller.py])

    [ac3/controller.py] defines a class of the same name as the engine.  It
    keeps the registry and the active id and forwards the commands; it has
    no event fan-out and no position tracking.  Its [_listeners] set is
    created and never used; the lock is left out. *)

Module LegacyController.

Record t := {
  _controllers : Dict.t PlayerController.t;
  _active_controller_id : option string;
  _auto_pause : bool
}.

(** [__init__] *)
Definition __init__ : t :=
  {| _controllers := []; _active_controller_id := None; _auto_pause := true |}.

Definition set_controllers (v : Dict.t PlayerController.t) (self : t) : t :=
  {| _controllers := v;
     _active_controller_id := _active_controller_id self;
     _auto_pause := _auto_pause self |}.

Definition set_active_controller_id (v : option string) (self : t) : t :=
  {| _controllers := _controllers self;
     _active_controller_id := v;
     _auto_pause := _auto_pause self |}.

(** The setter of the property [auto_pause]. *)
Definition set_auto_pause (value : bool) (self : t) : t :=
  {| _controllers := _controllers self;
     _active_controller_id := _active_controller_id self;
     _auto_pause := value |}.

(** A method call on a backend: the call is recorded, then the backend
    answers. *)
Definition invoke {A} (controller : PlayerController.t) (c : command)
    (o : outcome A) : M (St := t) A :=
  emit (Call (PlayerController.player_id controller) c) ;;
  answer o.

(** [player_info and player_info.state == "playing"]: the state is compared
    with a string, which no member of the enum is equal to. *)
Definition state_is_playing (player_info : option Player) : bool :=
  match player_info with
  | Some info =>
      match state info with
      | StateStr s => String.eqb s "playing"
      | StateEnum _ => false
      end
  | None => false
  end.

(** [not self._active_controller_id]: no id, or the empty string. *)
Definition no_active_id (self : t) : bool :=
  match _active_controller_id self with
  | None => true
  | Some id => String.eqb id ""
  end.

(** [pause_other_controllers] *)
Definition pause_other_controllers : M unit :=
  self <- get ;;
  if no_active_id self then ret tt
  else
    for_each (_controllers self) (fun '(player_id, controller) =>
      self <- get ;;
      if negb (opt_id_eqb (Some player_id) (_active_controller_id self)) then
        try_except
          (if state_is_playing (PlayerController.get_player_info controller) then
             _ <- invoke controller CmdPause (PlayerController.pause controller) ;;
             ret tt
           else ret tt)
          (ret tt)
      else ret tt).

(** [register_controller] *)
Definition register_controller (controller : PlayerController.t) : M bool :=
  self <- get ;;
  let player_id := PlayerController.player_id controller in
  if Dict.mem player_id (_controllers self) then ret false
  else
    modify (set_controllers (Dict.set player_id controller (_controllers self))) ;;
    self <- get ;;
    match _active_controller_id self with
    | None => modify (set_active_controller_id (Some player_id))
    | Some _ => ret tt
    end ;;
    ret true.

(** [unregister_controller] *)
Definition unregister_controller (player_id : string) : M bool :=
  self <- get ;;
  if negb (Dict.mem player_id (_controllers self)) then ret false
  else
    modify (set_controllers (Dict.remove player_id (_controllers self))) ;;
    self <- get ;;
    (if opt_id_eqb (_active_controller_id self) (Some player_id) then
       match Dict.first_key (_controllers self) with
       | Some first => modify (set_active_controller_id (Some first))
       | None => modify (set_active_controller_id None)
       end
     else ret tt) ;;
    ret true.

(** [get_controller] *)
Definition get_controller (player_id : string) (self : t) : option PlayerController.t :=
  Dict.lookup player_id (_controllers self).

(** [get_controller_ids] *)
Definition get_controller_ids (self : t) : list string :=
  Dict.keys (_controllers self).

(** The property [active_controller]. *)
Definition active_controller (self : t) : option PlayerController.t :=
  match _active_controller_id self with
  | None => None
  | Some id => Dict.lookup id (_controllers self)
  end.

(** [set_active_controller] *)
Definition set_active_controller (player_id : string) : M bool :=
  self <- get ;;
  if negb (Dict.mem player_id (_controllers self)) then ret false
  else if opt_id_eqb (_active_controller_id self) (Some player_id) then ret true
  else
    modify (set_active_controller_id (Some player_id)) ;;
    self <- get ;;
    (if _auto_pause self then pause_other_controllers else ret tt) ;;
    ret true.

(** [auto_select_active_controller] *)
Definition auto_select_active_controller : M bool :=
  self <- get ;;
  match find (fun kv => PlayerController.isActive (snd kv)) (_controllers self) with
  | Some (player_id, _) =>
      let old_active_id := _active_controller_id self in
      modify (set_active_controller_id (Some player_id)) ;;
      self <- get ;;
      (if _auto_pause self && negb (opt_id_eqb old_active_id (Some player_id))
       then pause_other_controllers else ret tt) ;;
      ret true
  | None =>
      match find (fun kv => PlayerController.isConnected (snd kv)) (_controllers self) with
      | Some (player_id, _) =>
          modify (set_active_controller_id (Some player_id)) ;;
          ret true
      | None => ret false
      end
  end.

(** [get_active_player_info] *)
Definition get_active_player_info (self : t) : option Player :=
  match active_controller self with
  | Some controller => PlayerController.get_player_info controller
  | None => None
  end.

(** [get_current_song] *)
Definition get_current_song (self : t) : option Song :=
  match active_controller self with
  | Some controller => PlayerController.get_current_song controller
  | None => None
  end.

(** [get_position] *)
Definition get_position (self : t) : option Q :=
  match active_controller self with
  | Some controller => PlayerController.get_position controller
  | None => None
  end.

(** [play] *)
Definition play : M bool :=
  self <- get ;;
  match active_controller self with
  | Some controller => invoke controller CmdPlay (PlayerController.play controller)
  | None => ret false
  end.

(** [pause] *)
Definition pause : M bool :=
  self <- get ;;
  match active_controller self with
  | Some controller => invoke controller CmdPause (PlayerController.pause controller)
  | None => ret false
  end.

(** [stop] *)
Definition stop : M bool :=
  self <- get ;;
  match active_controller self with
  | Some controller => invoke controller CmdStop (PlayerController.stop controller)
  | None => ret false
  end.

(** [next] *)
Definition next : M bool :=
  self <- get ;;
  match active_controller self with
  | Some controller => invoke controller CmdNext (PlayerController.next controller)
  | None => ret false
  end.

(** [previous] *)
Definition previous : M bool :=
  self <- get ;;
  match active_controller self with
  | Some controller =>
      invoke controller CmdPrevious (PlayerController.previous controller)
  | None => ret false
  end.

(** [set_volume] *)
Definition set_volume (volume : Z) : M bool :=
  self <- get ;;
  match active_controller self with
  | Some controller =>
      invoke controller (CmdSetVolume volume)
        (PlayerController.set_volume controller volume)
  | None => ret false
  end.

(** [mute] *)
Definition mute (m : bool) : M bool :=
  self <- get ;;
  match active_controller self with
  | Some controller => invoke controller (CmdMute m) (PlayerController.mute controller m)
  | None => ret false
  end.

(** [seek] *)
Definition seek (position : Q) : M bool :=
  self <- get ;;
  match active_controller self with
  | Some controller =>
      invoke controller (CmdSeek position) (PlayerController.seek controller position)
  | None => ret false
  end.

(** [set_shuffle] *)
Definition set_shuffle (enabled : bool) : M bool :=
  self <- get ;;
  match active_controller self with
  | Some controller =>
      invoke controller (CmdSetShuffle enabled)
        (PlayerController.set_shuffle controller enabled)
  | None => ret false
  end.

(** [set_loop_mode] *)
Definition set_loop_mode (mode : LoopMode) : M bool :=
  self <- get ;;
  match active_controller self with
  | Some controller =>
      invoke controller (CmdSetLoopMode mode)
        (PlayerController.set_loop_mode controller mode)
  | None => ret false
  end.

End LegacyController.

(** ** The two controllers side by side *)






(** The two objects hold the same registry and the same active id. *)
Definition same_selection (l : LegacyController.t) (e : AudioController.t) : Prop :=
  LegacyController._controllers l = _controllers e /\
  LegacyController._active_controller_id l = _active_controller_id e.

(** The pairs of the registry that the earlier [pause_other_controllers]
    sends [pause]: not under the active id, state the string ["playing"]. *)
Definition legacy_paused (self : LegacyController.t)
    : list (string * PlayerController.t) :=
  filter (fun kv =>
            negb (opt_id_eqb (Some (fst kv)) (LegacyController._active_controller_id self))
            && LegacyController.state_is_playing (PlayerController.get_player_info (snd kv)))
    (LegacyController._controllers self).

(** A backend that reports its state as a member of the enum. *)
Definition reports_enum (controller : PlayerController.t) : Prop :=
  exists info st, PlayerController.get_player_info controller = Some info /\
                  state info = StateEnum st.

(** Vocabulary for the MPD volume and the callback table. *)

(** What [get_volume] reads when the daemon answers: the status volume, 0
    when the status has none or cannot be had. *)
Definition volume_read (self : MPDMute.t) : Z :=
  match MPDMute.client_status_volume self with
  | Returned (Some v) => v
  | _ => 0%Z
  end.

(** A reachable MPD daemon that accepts every [setvol]. *)
Definition daemon_accepts (self : MPDMute.t) : Prop :=
  MPDPlayerController.client_ping (MPDMute.base self) = Returned tt /\
  forall v, MPDPlayerController.client_setvol (MPDMute.base self) v = Returned tt.

(** An MPD backend at volume 35, not muted, with a daemon that accepts. *)
Definition mpd_at_35 : MPDMute.t :=
  {| MPDMute.base :=
       {| MPDPlayerController._is_muted := false;
          MPDPlayerController._volume_before_mute := 100;
          MPDPlayerController.client_ping := Returned tt;
          MPDPlayerController.client_setvol := fun _ => Returned tt |};
     MPDMute.client_status_volume := Returned (Some 35%Z) |}.

(** The callbacks registered for an event. *)
Definition registered_for (event_type : string) (d : Callbacks.t) : list callback :=
  match Dict.lookup event_type d with
  | Some l => l
  | None => []
  end.

(** * Properties *)

(** ** The model on concrete runs *)

(** Controllers are kept in registration order; the first one registered
    becomes active and a second registration of an id is refused. *)
Example registration_order :
  let self := perform_all [Register (NullPlayerController "a");
                           Register (NullPlayerController "b");
                           Register (NullPlayerController "a");
                           Register (NullPlayerController "c")] __init__ in
  get_controller_ids self = ["a"; "b"; "c"] /\
  _active_controller_id self = Some "a" /\
  result_of (register_controller (NullPlayerController "b") self) = Returned false.
Proof. repeat split. Qed.

(** An id registered again after its removal goes last. *)
Example registration_order_after_removal :
  get_controller_ids
    (perform_all [Register (NullPlayerController "a");
                  Register (NullPlayerController "b");
                  Unregister "a";
                  Register (NullPlayerController "a")] __init__)
  = ["b"; "a"].
Proof. reflexivity. Qed.

(** The scenario of a stopped "radio" and a playing "mpd": "radio" is
    active after the registrations, "mpd" after it reports PLAYING, and
    [pause] is then forwarded to "mpd" only. *)
Example promotion_scenario :
  let self :=
    perform_all [Register (connected_backend "radio" STOPPED None None);
                 Register (connected_backend "mpd" PLAYING (Some 50) (Some 200))]
      __init__ in
  let promoted := state_of (on_player_state_change mpd_playing 0 self) in
  _active_controller_id self = Some "radio" /\
  _active_controller_id promoted = Some "mpd" /\
  trace_of (pause promoted) = [Call "mpd" CmdPause].
Proof. repeat split. Qed.

(** A listener subscribed under the enum member is called, the one the
    AutoPause plugin subscribes under a string is not. *)
Example dispatch_with_plugin_enabled :
  let ui := state_of (add_listener (KeyEvent PLAYER_STATE_CHANGE)
                        "TextUI._on_player_state_change" one_backend) in
  let r := @Plugin.enable AutoPausePlugin.hooks
             {| Plugin._audio_controller := Some ui; Plugin._enabled := false |} in
  _listeners (bound_engine r ui)
  = [(KeyEvent PLAYER_STATE_CHANGE, "TextUI._on_player_state_change");
     (KeyStr "player_state_change", AutoPausePlugin._on_player_state_change)] /\
  trace_of (_notify_listeners PLAYER_STATE_CHANGE (DataPlayer mpd_playing)
              (bound_engine r ui))
  = [Dispatched PLAYER_STATE_CHANGE (DataPlayer mpd_playing);
     Invoked "TextUI._on_player_state_change" (DataPlayer mpd_playing)].
Proof. split; reflexivity. Qed.

(** The MPD backend sends 100 to the daemon when asked for 150. *)
Example mpd_set_volume_150 :
  trace_of (MPDPlayerController.set_volume 150
    {| MPDPlayerController._is_muted := true;
       MPDPlayerController._volume_before_mute := 100;
       MPDPlayerController.client_ping := Returned tt;
       MPDPlayerController.client_setvol := fun _ => Returned tt |})
  = [ClientPing; ClientSetvol 100; NotifyVolumeChange 100].
Proof. reflexivity. Qed.

(** A plugin whose hook raises stays disabled and [enable] reports
    failure. *)
Example enable_with_raising_hook :
  @Plugin.enable
    {| Plugin.name := "Broken";
       Plugin._enable_plugin := answer Raised;
       Plugin._disable_plugin := ret true |}
    Plugin.__init__
  = (Returned false, Plugin.__init__, [HookEnable "Broken"]).
Proof. reflexivity. Qed.

(** ** Dictionaries *)

Section DictFacts.
Context {V : Type}.
Implicit Types (d : Dict.t V) (k : string).

Lemma mem_In k d : Dict.mem k d = true <-> In k (Dict.keys d).
Proof.
  unfold Dict.mem. rewrite existsb_exists. split.
  - intros [x [Hin Heq]]. apply String.eqb_eq in Heq. now subst.
  - intros Hin. exists k. split; [assumption | apply String.eqb_refl].
Qed.

Lemma mem_false_not_In k d : Dict.mem k d = false <-> ~ In k (Dict.keys d).
Proof.
  rewrite <- mem_In. destruct (Dict.mem k d); split; congruence.
Qed.

Lemma keys_set_fresh k (v : V) d :
  Dict.mem k d = false -> Dict.keys (Dict.set k v d) = Dict.keys d ++ [k].
Proof.
  induction d as [|[k' v'] d IH]; simpl; intros Hm; [reflexivity|].
  unfold Dict.mem in Hm. simpl in Hm. apply orb_false_elim in Hm as [Hk Hm].
  rewrite Hk. simpl. f_equal. apply IH. exact Hm.
Qed.

Lemma keys_remove k d :
  Dict.keys (Dict.remove k d) = filter (fun k' => negb (String.eqb k k')) (Dict.keys d).
Proof.
  induction d as [|[k' v'] d IH]; simpl; [reflexivity|].
  destruct (String.eqb k k'); simpl; now rewrite IH.
Qed.

Lemma first_key_In d k : Dict.first_key d = Some k -> In k (Dict.keys d).
Proof.
  destruct d as [|[k' v'] d]; simpl; [discriminate|].
  intros [= ->]. now left.
Qed.

Lemma first_key_head d : Dict.first_key d = hd_error (Dict.keys d).
Proof. destruct d as [|[k' v'] d]; reflexivity. Qed.

End DictFacts.

Lemma NoDup_at_most_one (k : option string) (l : list string) :
  NoDup l -> (length (filter (fun x => opt_id_eqb (Some x) k) l) <= 1)%nat.
Proof.
  destruct k as [k|]; simpl.
  - induction 1 as [|x l Hx Hl IH]; simpl; [lia|].
    destruct (String.eqb x k) eqn:E; [|exact IH].
    apply String.eqb_eq in E. subst x.
    assert (Hnone : filter (fun x => String.eqb x k) l = []).
    { clear -Hx. induction l as [|y l IH]; simpl; [reflexivity|].
      destruct (String.eqb y k) eqn:E.
      - apply String.eqb_eq in E. subst. exfalso. apply Hx. now left.
      - apply IH. intros H. apply Hx. now right. }
    rewrite Hnone. simpl. lia.
  - intros _. induction l; simpl; lia.
Qed.

(** ** Registration and unregistration *)

Lemma register_controller_duplicate controller self :
  Dict.mem (PlayerController.player_id controller) (_controllers self) = true ->
  register_controller controller self = (Returned false, self, []).
Proof.
  intros Hm. unfold register_controller, bind, get. cbn. now rewrite Hm.
Qed.

Lemma register_controller_fresh controller self :
  Dict.mem (PlayerController.player_id controller) (_controllers self) = false ->
  let id := PlayerController.player_id controller in
  let stored := set_controllers (Dict.set id controller (_controllers self)) self in
  register_controller controller self =
    (Returned true,
     match _active_controller_id self with
     | None => set_active_controller_id (Some id) stored
     | Some _ => stored
     end,
     [Call id CmdAddStateListener]).
Proof.
  intros Hm. unfold register_controller, bind, get. cbn. rewrite Hm. cbn.
  destruct (_active_controller_id self); reflexivity.
Qed.

Lemma unregister_controller_absent player_id self :
  Dict.mem player_id (_controllers self) = false ->
  unregister_controller player_id self = (Returned false, self, []).
Proof.
  intros Hm. unfold unregister_controller, bind, get. cbn. now rewrite Hm.
Qed.

Lemma unregister_controller_present player_id self :
  Dict.mem player_id (_controllers self) = true ->
  let rest := Dict.remove player_id (_controllers self) in
  let removed := set_controllers rest self in
  unregister_controller player_id self =
    (Returned true,
     if opt_id_eqb (_active_controller_id self) (Some player_id)
     then set_active_controller_id (Dict.first_key rest) removed
     else removed,
     [Call player_id CmdRemoveStateListener]).
Proof.
  intros Hm. unfold unregister_controller, bind, get. cbn. rewrite Hm. cbn.
  destruct (opt_id_eqb (_active_controller_id self) (Some player_id)); cbn;
    [|reflexivity].
  destruct (Dict.first_key (Dict.remove player_id (_controllers self))); reflexivity.
Qed.

Lemma opt_id_eqb_eq a b : opt_id_eqb a b = true <-> a = b.
Proof.
  destruct a, b; simpl; try (split; congruence).
  rewrite String.eqb_eq. split; congruence.
Qed.

Lemma registry_ok_init : registry_ok __init__.
Proof. split; [constructor | discriminate]. Qed.

Lemma registry_ok_register controller self :
  registry_ok self -> registry_ok (state_of (register_controller controller self)).
Proof.
  intros [Hnd Hact].
  destruct (Dict.mem (PlayerController.player_id controller) (_controllers self)) eqn:Hm.
  - rewrite register_controller_duplicate by assumption. now split.
  - rewrite register_controller_fresh by assumption.
    unfold registry_ok, get_controller_ids, state_of in *.
    assert (Hkeys : NoDup (Dict.keys (_controllers self)
                           ++ [PlayerController.player_id controller])).
    { apply NoDup_app; [assumption | repeat constructor; simpl; tauto |].
      intros x Hx [<- | []]. now apply mem_false_not_In in Hm. }
    destruct (_active_controller_id self) as [a|] eqn:Ha;
      cbn [fst snd _controllers _active_controller_id set_controllers
           set_active_controller_id];
      rewrite keys_set_fresh by assumption; (split; [assumption|]).
    + rewrite Ha. intros id Hid. apply in_or_app. left. now apply Hact.
    + intros id [= <-]. apply in_or_app. right. now left.
Qed.

Lemma registry_ok_unregister player_id self :
  registry_ok self -> registry_ok (state_of (unregister_controller player_id self)).
Proof.
  intros [Hnd Hact].
  destruct (Dict.mem player_id (_controllers self)) eqn:Hm.
  - rewrite unregister_controller_present by assumption.
    unfold registry_ok, get_controller_ids, state_of in *.
    destruct (opt_id_eqb (_active_controller_id self) (Some player_id)) eqn:Ha;
      cbn [fst snd _controllers _active_controller_id set_controllers
           set_active_controller_id].
    + split.
      * rewrite keys_remove. now apply NoDup_filter.
      * intros id Hid. now apply first_key_In.
    + split.
      * rewrite keys_remove. now apply NoDup_filter.
      * intros id Hid. rewrite keys_remove, filter_In. split; [now apply Hact|].
        destruct (String.eqb player_id id) eqn:E; [|reflexivity].
        apply String.eqb_eq in E. subst id.
        rewrite Hid in Ha. simpl in Ha. now rewrite String.eqb_refl in Ha.
  - rewrite unregister_controller_absent by assumption. now split.
Qed.

Lemma registry_ok_perform_all cs self :
  registry_ok self -> registry_ok (perform_all cs self).
Proof.
  revert self. induction cs as [|c cs IH]; intros self Hok; simpl; [assumption|].
  apply IH. destruct c; simpl.
  - now apply registry_ok_register.
  - now apply registry_ok_unregister.
Qed.

(** C1.  After any run of [register_controller] and [unregister_controller]
    calls on a fresh engine, and after every prefix of such a run, at most
    one registered controller is marked active, and the active id, when
    there is one, is a key of the registry. *)
Theorem C1_at_most_one_active_and_registered :
  forall (cs : list registry_call) (n : nat),
    let self := perform_all (firstn n cs) __init__ in
    (length (marked_active self) <= 1)%nat /\
    (forall id, _active_controller_id self = Some id ->
                In id (get_controller_ids self)) /\
    (_active_controller_id self = None -> marked_active self = []).
Proof.
  intros cs n self.
  destruct (registry_ok_perform_all (firstn n cs) __init__ registry_ok_init)
    as [Hnd Hact].
  fold self in Hnd, Hact. split; [|split].
  - apply NoDup_at_most_one. exact Hnd.
  - exact Hact.
  - intros Hnone. unfold marked_active. rewrite Hnone.
    clear. induction (get_controller_ids self); simpl; auto.
Qed.

(** C6.  Unregistering an id that is not registered fails and changes
    nothing.  Unregistering a registered id removes it and keeps the others
    in registration order (a newly registered id always goes last); when the
    removed id was the active one, the first remaining controller in that
    order becomes active, and none when no controller remains.  On an engine
    whose active id is registered or absent, unregistering the only
    registered controller leaves no controller active. *)
Theorem C6_unregister_controller :
  forall (self : t) (player_id : string),
    (Dict.mem player_id (_controllers self) = false ->
     unregister_controller player_id self = (Returned false, self, [])) /\
    (Dict.mem player_id (_controllers self) = true ->
     let r := unregister_controller player_id self in
     result_of r = Returned true /\
     get_controller_ids (state_of r) =
       filter (fun k => negb (String.eqb player_id k)) (get_controller_ids self) /\
     (_active_controller_id self = Some player_id ->
      _active_controller_id (state_of r) = hd_error (get_controller_ids (state_of r))) /\
     (_active_controller_id self <> Some player_id ->
      _active_controller_id (state_of r) = _active_controller_id self) /\
     (registry_ok self -> get_controller_ids self = [player_id] ->
      get_controller_ids (state_of r) = [] /\
      _active_controller_id (state_of r) = None)) /\
    (forall controller,
       Dict.mem (PlayerController.player_id controller) (_controllers self) = false ->
       get_controller_ids (state_of (register_controller controller self)) =
         get_controller_ids self ++ [PlayerController.player_id controller]).
Proof.
  intros self player_id. split; [|split].
  - apply unregister_controller_absent.
  - intros Hm r. subst r. rewrite unregister_controller_present by assumption.
    unfold result_of, state_of, get_controller_ids.
    cbn [fst snd].
    assert (Hkeys : forall s',
      Dict.keys (_controllers
        (if opt_id_eqb (_active_controller_id self) (Some player_id)
         then set_active_controller_id s'
                (set_controllers (Dict.remove player_id (_controllers self)) self)
         else set_controllers (Dict.remove player_id (_controllers self)) self))
      = filter (fun k => negb (String.eqb player_id k)) (Dict.keys (_controllers self))).
    { intros s'. rewrite <- keys_remove.
      now destruct (opt_id_eqb (_active_controller_id self) (Some player_id)). }
    split; [reflexivity|]. split; [apply Hkeys|]. split; [|split].
    + intros Ha. rewrite Hkeys, <- keys_remove, <- first_key_head.
      rewrite Ha. simpl. now rewrite String.eqb_refl.
    + intros Ha.
      destruct (opt_id_eqb (_active_controller_id self) (Some player_id)) eqn:E;
        [|reflexivity].
      apply opt_id_eqb_eq in E. contradiction.
    + intros [Hnd Hact] Hone. unfold get_controller_ids in *.
      rewrite Hkeys, Hone. simpl. rewrite String.eqb_refl. simpl.
      split; [reflexivity|].
      destruct (_active_controller_id self) as [a|] eqn:Ha; simpl.
      * assert (a = player_id) as ->.
        { specialize (Hact a eq_refl). rewrite Hone in Hact.
          destruct Hact as [<- | []]. reflexivity. }
        rewrite String.eqb_refl.
        cbn [_active_controller_id set_active_controller_id].
        rewrite first_key_head, keys_remove, Hone. simpl.
        now rewrite String.eqb_refl.
      * cbn [_active_controller_id set_controllers]. exact Ha.
  - intros controller Hm. rewrite register_controller_fresh by assumption.
    unfold state_of, get_controller_ids. cbn [fst snd].
    destruct (_active_controller_id self);
      cbn [_controllers set_controllers set_active_controller_id];
      now apply keys_set_fresh.
Qed.

Lemma C6_unregister_controller_witness :
  let self :=
    perform_all [Register (NullPlayerController "a");
                 Register (NullPlayerController "b");
                 Register (NullPlayerController "c")] __init__ in
  let r := unregister_controller "a" self in
  Dict.mem "a" (_controllers self) = true /\
  _active_controller_id self = Some "a" /\
  _active_controller_id (state_of r) = hd_error (get_controller_ids (state_of r)) /\
  hd_error (get_controller_ids (state_of r)) = Some "b".
Proof.
  intros self r.
  split; [reflexivity|]. split; [reflexivity|]. split; [|reflexivity].
  apply (proj1 (proj2 (C6_unregister_controller self "a"))); reflexivity.
Defined.

(** ** Automatic selection *)

Lemma find_first_hit {A} (p : A -> bool) (before after : list A) (x : A) :
  (forall y, In y before -> p y = false) -> p x = true ->
  find p (before ++ x :: after) = Some x.
Proof.
  intros Hb Hx. induction before as [|y before IH]; simpl.
  - now rewrite Hx.
  - rewrite (Hb y) by now left. apply IH. intros z Hz. apply Hb. now right.
Qed.

Lemma find_no_hit {A} (p : A -> bool) (l : list A) :
  (forall y, In y l -> p y = false) -> find p l = None.
Proof.
  intros Hl. induction l as [|y l IH]; simpl; [reflexivity|].
  rewrite (Hl y) by now left. apply IH. intros z Hz. apply Hl. now right.
Qed.

(** C7.  [auto_select_active_controller] makes active the first registered
    controller, in registration order, whose [isActive()] probe answers
    true; when no probe does, the first whose [isConnected()] answers true;
    when neither exists it returns [False] and changes nothing.  With one
    playing and one merely connected controller the playing one is
    selected in either registration order. *)
Theorem C7_auto_select_active_controller :
  forall (self : t),
    let r := auto_select_active_controller self in
    (forall before id c after,
       _controllers self = before ++ (id, c) :: after ->
       PlayerController.isActive c = true ->
       (forall kv, In kv before -> PlayerController.isActive (snd kv) = false) ->
       r = (Returned true, set_active_controller_id (Some id) self, [])) /\
    (forall before id c after,
       (forall kv, In kv (_controllers self) ->
                   PlayerController.isActive (snd kv) = false) ->
       _controllers self = before ++ (id, c) :: after ->
       PlayerController.isConnected c = true ->
       (forall kv, In kv before -> PlayerController.isConnected (snd kv) = false) ->
       r = (Returned true, set_active_controller_id (Some id) self, [])) /\
    ((forall kv, In kv (_controllers self) ->
                 PlayerController.isActive (snd kv) = false /\
                 PlayerController.isConnected (snd kv) = false) ->
     r = (Returned false, self, [])) /\
    (forall pid playing cid connected,
       PlayerController.isActive playing = true ->
       PlayerController.isActive connected = false ->
       PlayerController.isConnected connected = true ->
       _controllers self = [(pid, playing); (cid, connected)] \/
       _controllers self = [(cid, connected); (pid, playing)] ->
       result_of r = Returned true /\
       _active_controller_id (state_of r) = Some pid).
Proof.
  intros self r. subst r. unfold auto_select_active_controller, bind, get.
  cbn [fst snd]. split; [|split; [|split]].
  - intros before id c after Hc Hact Hbefore.
    rewrite Hc, (find_first_hit _ before after (id, c)) by assumption.
    reflexivity.
  - intros before id c after Hnone Hc Hcon Hbefore.
    rewrite (find_no_hit _ (_controllers self)) by assumption.
    rewrite Hc, (find_first_hit _ before after (id, c)) by assumption.
    reflexivity.
  - intros Hnone.
    rewrite !find_no_hit; [reflexivity | |]; intros kv Hkv; now apply Hnone.
  - intros pid playing cid connected Hp Hc Hcc [-> | ->]; cbn.
    + rewrite Hp. cbn. now split.
    + rewrite Hc, Hp. cbn. now split.
Qed.

Lemma C7_auto_select_active_controller_witness :
  let self :=
    perform_all [Register (connected_backend "radio" PAUSED None None);
                 Register (connected_backend "mpd" PLAYING (Some 50) (Some 200))]
      __init__ in
  _active_controller_id self = Some "radio" /\
  _active_controller_id (state_of (auto_select_active_controller self)) = Some "mpd".
Proof.
  intros self. split; [reflexivity|].
  apply (proj2 (proj2 (proj2 (C7_auto_select_active_controller self)))
           "mpd" (connected_backend "mpd" PLAYING (Some 50) (Some 200))
           "radio" (connected_backend "radio" PAUSED None None));
    try reflexivity.
  right. reflexivity.
Defined.

(** ** Commands without an active controller *)

Lemma active_controller_none self :
  _active_controller_id self = None -> active_controller self = None.
Proof. unfold active_controller. now intros ->. Qed.

Ltac no_controller H :=
  unfold bind, get; cbn [fst snd]; rewrite H; reflexivity.

(** Whenever the property [active_controller] is [None] (no active id, or an
    active id that is not a key), a command returns [False], does not raise,
    leaves the engine as it was and calls no backend. *)
Lemma commands_without_controller self :
  active_controller self = None ->
  forall now position volume m enabled mode,
    play now self = (Returned false, self, []) /\
    pause self = (Returned false, self, []) /\
    stop self = (Returned false, self, []) /\
    next self = (Returned false, self, []) /\
    previous self = (Returned false, self, []) /\
    set_volume volume self = (Returned false, self, []) /\
    seek position now self = (Returned false, self, []) /\
    set_shuffle enabled self = (Returned false, self, []) /\
    set_loop_mode mode self = (Returned false, self, []) /\
    mute m self = (Returned false, self, []).
Proof.
  intros H now position volume m enabled mode.
  repeat split;
    [ unfold play | unfold pause | unfold stop | unfold next | unfold previous
    | unfold set_volume | unfold seek | unfold set_shuffle
    | unfold set_loop_mode | unfold mute ];
    no_controller H.
Qed.

(** C8.  With no controller active, each of [play], [pause], [stop],
    [next], [previous], [set_volume], [seek], [set_shuffle],
    [set_loop_mode] and [mute] returns [False] (it does not raise), leaves
    the engine's state unchanged and invokes nothing on any backend. *)
Theorem C8_commands_without_active_controller :
  forall (self : t) (now position : Q) (volume : Z) (m enabled : bool)
         (mode : LoopMode),
    _active_controller_id self = None ->
    play now self = (Returned false, self, []) /\
    pause self = (Returned false, self, []) /\
    stop self = (Returned false, self, []) /\
    next self = (Returned false, self, []) /\
    previous self = (Returned false, self, []) /\
    set_volume volume self = (Returned false, self, []) /\
    seek position now self = (Returned false, self, []) /\
    set_shuffle enabled self = (Returned false, self, []) /\
    set_loop_mode mode self = (Returned false, self, []) /\
    mute m self = (Returned false, self, []).
Proof.
  intros self now position volume m enabled mode Hnone.
  apply commands_without_controller. now apply active_controller_none.
Qed.

Lemma C8_commands_without_active_controller_witness :
  _active_controller_id __init__ = None /\
  play 0 __init__ = (Returned false, __init__, []) /\
  set_volume 150 __init__ = (Returned false, __init__, []) /\
  set_loop_mode LOOP_TRACK __init__ = (Returned false, __init__, []).
Proof.
  pose proof (C8_commands_without_active_controller
                __init__ 0 0 150%Z true true LOOP_TRACK eq_refl) as H.
  split; [reflexivity|]. split; [apply H|]. split; apply H.
Defined.

(** ** Loops that leave the object unchanged *)

Lemma for_each_pure {St A} (body : A -> M (St := St) unit)
    (out : A -> list effect) (xs : list A) (s : St) :
  (forall x, In x xs -> body x s = (Returned tt, s, out x)) ->
  for_each xs body s = (Returned tt, s, flat_map out xs).
Proof.
  induction xs as [|x xs IH]; intros Hbody; simpl; [reflexivity|].
  unfold bind. rewrite (Hbody x) by now left.
  rewrite IH by (intros y Hy; apply Hbody; now right). reflexivity.
Qed.

Lemma flat_map_filter {A B} (p : A -> bool) (f : A -> B) (l : list A) :
  flat_map (fun x => if p x then [f x] else []) l = map f (filter p l).
Proof.
  induction l as [|x l IH]; simpl; [reflexivity|].
  destruct (p x); simpl; now rewrite IH.
Qed.

Lemma _notify_listeners_spec event_type data self :
  _notify_listeners event_type data self =
    (Returned tt, self,
     Dispatched event_type data ::
     map (fun cb => Invoked cb data) (matching_callbacks event_type (_listeners self))).
Proof.
  unfold _notify_listeners, bind, get, emit. cbn [fst snd].
  rewrite (for_each_pure _
    (fun l : listener_key * callback =>
       if listener_key_eqb (fst l) (KeyEvent event_type)
       then [Invoked (snd l) data] else [])).
  - rewrite (flat_map_filter
               (fun l => listener_key_eqb (fst l) (KeyEvent event_type))
               (fun l => Invoked (snd l) data)).
    unfold matching_callbacks. now rewrite map_map.
  - intros [k cb] _. simpl.
    destruct (listener_key_eqb k (KeyEvent event_type)); reflexivity.
Qed.

Lemma pause_other_controllers_spec self :
  pause_other_controllers self =
    (Returned tt, self,
     map (fun c => Call (PlayerController.player_id c) CmdPause) (other_controllers self)).
Proof.
  unfold pause_other_controllers, bind, get. cbn [fst snd].
  rewrite (for_each_pure _
    (fun kv : string * PlayerController.t =>
       if negb (opt_id_eqb (Some (fst kv)) (_active_controller_id self))
       then [Call (PlayerController.player_id (snd kv)) CmdPause] else [])).
  - rewrite (flat_map_filter
               (fun kv => negb (opt_id_eqb (Some (fst kv)) (_active_controller_id self)))
               (fun kv => Call (PlayerController.player_id (snd kv)) CmdPause)).
    unfold other_controllers. now rewrite map_map.
  - intros [k c] _. cbn [fst snd].
    destruct (negb (opt_id_eqb (Some k) (_active_controller_id self)));
      [|reflexivity].
    unfold try_except, invoke, bind, emit, answer, ret.
    destruct (PlayerController.pause c); reflexivity.
Qed.

(** ** Promotion of a backend that starts playing *)

Lemma backend_calls_app tr1 tr2 :
  backend_calls (tr1 ++ tr2) = backend_calls tr1 ++ backend_calls tr2.
Proof. apply filter_app. Qed.

Lemma backend_calls_pauses (cs : list PlayerController.t) :
  backend_calls (map (fun c => Call (PlayerController.player_id c) CmdPause) cs)
  = map (fun c => Call (PlayerController.player_id c) CmdPause) cs.
Proof. induction cs as [|c cs IH]; simpl; [reflexivity | now rewrite IH]. Qed.

Lemma backend_calls_dispatch event_type data self :
  backend_calls (trace_of (_notify_listeners event_type data self)) = [].
Proof.
  rewrite _notify_listeners_spec. unfold trace_of. cbn [snd]. simpl.
  induction (matching_callbacks event_type (_listeners self)); simpl; auto.
Qed.

Lemma other_controllers_promoted id self :
  other_controllers (set_active_controller_id (Some id) self)
  = map snd (filter (fun kv => negb (String.eqb (fst kv) id)) (_controllers self)).
Proof. reflexivity. Qed.

Lemma on_player_state_change_promotes self player id now :
  player_id player = Some id ->
  is_PLAYING (state player) = true ->
  _active_controller_id self <> Some id ->
  let promoted := set_active_controller_id (Some id) self in
  on_player_state_change player now self =
    (Returned tt,
     match get_position now promoted with
     | Some current_pos =>
         set_last_position_update_time (Some now)
           (set_last_known_position (Some current_pos) promoted)
     | None => promoted
     end,
     (if _auto_pause self
      then map (fun c => Call (PlayerController.player_id c) CmdPause)
             (other_controllers promoted)
      else [])
     ++ Dispatched PLAYER_STATE_CHANGE (DataPlayer player)
        :: map (fun cb => Invoked cb (DataPlayer player))
             (matching_callbacks PLAYER_STATE_CHANGE (_listeners self))).
Proof.
  intros Hid Hplay Hother promoted.
  assert (Hneq : opt_id_eqb (Some id) (_active_controller_id self) = false).
  { destruct (opt_id_eqb (Some id) (_active_controller_id self)) eqn:E;
      [|reflexivity].
    apply opt_id_eqb_eq in E. congruence. }
  unfold on_player_state_change. cbv [bind get]. rewrite Hid, Hplay, Hneq.
  cbv [andb negb modify]. fold promoted.
  change (_auto_pause promoted) with (_auto_pause self).
  assert (Hpause :
    (if _auto_pause self then pause_other_controllers else ret tt) promoted
    = (Returned tt, promoted,
       if _auto_pause self
       then map (fun c => Call (PlayerController.player_id c) CmdPause)
              (other_controllers promoted)
       else [])).
  { destruct (_auto_pause self);
      [apply pause_other_controllers_spec | reflexivity]. }
  rewrite Hpause. clear Hpause.
  change (_active_controller_id promoted) with (Some id).
  assert (Hsame : opt_id_eqb (Some id) (Some id) = true)
    by now apply opt_id_eqb_eq.
  rewrite Hsame. cbv [orb is_None ret].
  destruct (get_position now promoted) as [pos|];
    rewrite _notify_listeners_spec; cbn [app]; rewrite ?app_nil_r; reflexivity.
Qed.

(** C2 (amended).  When a backend other than the active one reports state
    PLAYING, the engine makes it the active controller and, with auto-pause
    enabled (the default), sends [pause] to every other registered
    controller, in registration order and whatever its state; the outcome
    of a [pause] (returning [False] or raising) changes neither the
    remaining pauses nor the promotion, and the handler does not raise.
    With auto-pause disabled no backend is called. *)
Theorem C2_promotion_pauses_every_other_controller :
  forall (self : t) (player : Player) (id : string) (now : Q),
    player_id player = Some id ->
    is_PLAYING (state player) = true ->
    _active_controller_id self <> Some id ->
    let r := on_player_state_change player now self in
    _auto_pause __init__ = true /\
    result_of r = Returned tt /\
    _active_controller_id (state_of r) = Some id /\
    _controllers (state_of r) = _controllers self /\
    backend_calls (trace_of r) =
      if _auto_pause self
      then map (fun c => Call (PlayerController.player_id c) CmdPause)
             (map snd (filter (fun kv => negb (String.eqb (fst kv) id))
                         (_controllers self)))
      else [].
Proof.
  intros self player id now Hid Hplay Hother r. subst r.
  rewrite (on_player_state_change_promotes self player id now Hid Hplay Hother).
  unfold result_of, state_of, trace_of. cbn [fst snd].
  split; [reflexivity|]. split; [reflexivity|].
  split; [now destruct (get_position now _)|].
  split; [now destruct (get_position now _)|].
  rewrite backend_calls_app.
  pose proof (backend_calls_dispatch PLAYER_STATE_CHANGE (DataPlayer player) self)
    as Hd.
  rewrite _notify_listeners_spec in Hd. unfold trace_of in Hd. cbn [snd] in Hd.
  rewrite Hd, app_nil_r, other_controllers_promoted.
  destruct (_auto_pause self); [apply backend_calls_pauses | reflexivity].
Qed.

Lemma C2_promotion_pauses_every_other_controller_witness :
  _active_controller_id three_backends = Some "radio" /\
  _active_controller_id
    (state_of (on_player_state_change mpd_playing 0 three_backends)) = Some "mpd" /\
  backend_calls (trace_of (on_player_state_change mpd_playing 0 three_backends))
  = [Call "radio" CmdPause; Call "bt" CmdPause].
Proof.
  split; [reflexivity|].
  destruct (C2_promotion_pauses_every_other_controller
              three_backends mpd_playing "mpd" 0 eq_refl eq_refl)
    as (_ & _ & Hactive & _ & Hcalls).
  - discriminate.
  - split; [exact Hactive | exact Hcalls].
Defined.

(** C2 as stated fails: "radio" and "bt" are not in state PLAYING when
    "mpd" starts playing, and both are sent [pause]. *)
Lemma C2_counterexample :
  map reports_PLAYING (other_controllers
    (state_of (on_player_state_change mpd_playing 0 three_backends)))
  = [false; false] /\
  backend_calls (trace_of (on_player_state_change mpd_playing 0 three_backends))
  = [Call "radio" CmdPause; Call "bt" CmdPause] /\
  backend_calls (trace_of (on_player_state_change mpd_playing 0 three_backends))
  <> map (fun c => Call (PlayerController.player_id c) CmdPause)
       (filter reports_PLAYING (other_controllers
          (state_of (on_player_state_change mpd_playing 0 three_backends)))).
Proof.
  split; [reflexivity|]. split; [reflexivity|]. discriminate.
Qed.

(** ** Volume *)

Lemma set_volume_forwards self controller volume :
  active_controller self = Some controller ->
  set_volume volume self =
    (PlayerController.set_volume controller volume, self,
     [Call (PlayerController.player_id controller) (CmdSetVolume volume)]).
Proof.
  intros Hc. unfold set_volume, invoke. cbv [bind get emit answer].
  rewrite Hc. now destruct (PlayerController.set_volume controller volume).
Qed.

Lemma mpd_set_volume_trace (mpd : MPDPlayerController.t) (volume : Z) :
  let v := Z.max 0 (Z.min 100 volume) in
  trace_of (MPDPlayerController.set_volume volume mpd) =
    match MPDPlayerController.client_ping mpd with
    | Raised => [ClientPing]
    | Returned _ =>
        match MPDPlayerController.client_setvol mpd v with
        | Raised => [ClientPing; ClientSetvol v]
        | Returned _ => [ClientPing; ClientSetvol v; NotifyVolumeChange v]
        end
    end.
Proof.
  unfold MPDPlayerController.set_volume, MPDPlayerController._ensure_connected.
  cbv [bind get emit answer try_except ret trace_of modify].
  destruct (MPDPlayerController.client_ping mpd) as [[]|]; cbn; [|reflexivity].
  destruct (MPDPlayerController.client_setvol mpd _) as [[]|]; cbn; [|reflexivity].
  destruct (0 <? Z.max 0 (Z.min 100 volume))%Z; reflexivity.
Qed.

(** C4 (amended).  The engine's [set_volume] forwards its argument to the
    active backend unchanged, whatever its value, returns the backend's
    answer and changes nothing in the engine: [set_volume(150)] reaches the
    backend as 150.  The clamping to the range 0..100 is done by the MPD
    backend, on the value it sends to the MPD daemon: the daemon is sent
    [max(0, min(100, volume))] and never a volume above 100. *)
Theorem C4_set_volume_forwarded_unchanged :
  forall (self : t) (controller : PlayerController.t) (volume : Z),
    active_controller self = Some controller ->
    set_volume volume self =
      (PlayerController.set_volume controller volume, self,
       [Call (PlayerController.player_id controller) (CmdSetVolume volume)]) /\
    (forall (mpd : MPDPlayerController.t) (v : Z),
       In (ClientSetvol v) (trace_of (MPDPlayerController.set_volume volume mpd)) ->
       v = Z.max 0 (Z.min 100 volume) /\ (0 <= v <= 100)%Z) /\
    (forall (mpd : MPDPlayerController.t),
       MPDPlayerController.client_ping mpd = Returned tt ->
       In (ClientSetvol (Z.max 0 (Z.min 100 volume)))
          (trace_of (MPDPlayerController.set_volume volume mpd))).
Proof.
  intros self controller volume Hc. split; [now apply set_volume_forwards|].
  split.
  - intros mpd v Hin. rewrite mpd_set_volume_trace in Hin.
    assert (Hv : v = Z.max 0 (Z.min 100 volume)).
    { destruct (MPDPlayerController.client_ping mpd) as [[]|];
        [destruct (MPDPlayerController.client_setvol mpd _) as [[]|]|];
        simpl in Hin;
        repeat (destruct Hin as [Hin | Hin]; try discriminate; try tauto);
        congruence. }
    split; [exact Hv | lia].
  - intros mpd Hping. rewrite mpd_set_volume_trace, Hping.
    destruct (MPDPlayerController.client_setvol mpd _) as [[]|]; simpl; tauto.
Qed.

Lemma C4_set_volume_forwarded_unchanged_witness :
  active_controller one_backend
    = Some (connected_backend "mpd" PLAYING (Some 50) (Some 200)) /\
  set_volume 150 one_backend =
    (Returned true, one_backend, [Call "mpd" (CmdSetVolume 150)]).
Proof.
  split; [reflexivity|].
  apply (proj1 (C4_set_volume_forwarded_unchanged one_backend
                  (connected_backend "mpd" PLAYING (Some 50) (Some 200))
                  150%Z eq_refl)).
Defined.

(** C4 as stated fails: [set_volume(150)] is neither rejected nor clamped by
    the engine; the active backend is called with 150. *)
Lemma C4_counterexample :
  result_of (set_volume 150 one_backend) = Returned true /\
  trace_of (set_volume 150 one_backend) = [Call "mpd" (CmdSetVolume 150)] /\
  ~ (150 <= 100)%Z.
Proof.
  split; [reflexivity|]. split; [reflexivity|]. lia.
Qed.

(** ** Plugins and the event bus *)

Lemma listener_key_str_never_event s e :
  listener_key_eqb (KeyStr s) (KeyEvent e) = false.
Proof. reflexivity. Qed.

Lemma matching_callbacks_app e l1 l2 :
  matching_callbacks e (l1 ++ l2) = matching_callbacks e l1 ++ matching_callbacks e l2.
Proof. unfold matching_callbacks. now rewrite filter_app, map_app. Qed.

Lemma matching_callbacks_In e cb ls :
  In cb (matching_callbacks e ls) <-> In (KeyEvent e, cb) ls.
Proof.
  unfold matching_callbacks. rewrite in_map_iff. split.
  - intros [[k cb'] [Hcb Hin]]. simpl in Hcb. subst cb'.
    apply filter_In in Hin as [Hin Hk]. simpl in Hk.
    destruct k as [e'|s]; [|discriminate].
    destruct e, e'; try discriminate; exact Hin.
  - intros Hin. exists (KeyEvent e, cb). split; [reflexivity|].
    apply filter_In. split; [exact Hin|]. simpl. now destruct e.
Qed.

(** Subscribing a pair keyed by a string leaves every dispatch as it was. *)
Lemma add_listener_str_dispatch s cb self e d :
  trace_of (_notify_listeners e d (state_of (add_listener (KeyStr s) cb self)))
  = trace_of (_notify_listeners e d self).
Proof.
  rewrite !_notify_listeners_spec. unfold trace_of, state_of. cbn [snd].
  unfold add_listener. cbv [bind get ret modify]. cbn [fst snd].
  destruct (existsb (listener_eqb (KeyStr s, cb)) (_listeners self));
    cbn [fst snd]; [reflexivity|].
  cbn [_listeners set_listeners].
  rewrite matching_callbacks_app. unfold matching_callbacks at 2. simpl.
  now rewrite app_nil_r.
Qed.

Lemma add_listener_In k cb self :
  In (k, cb) (_listeners (state_of (add_listener k cb self))).
Proof.
  unfold add_listener, state_of. cbv [bind get ret modify]. cbn [fst snd].
  destruct (existsb (listener_eqb (k, cb)) (_listeners self)) eqn:E; cbn [fst snd].
  - apply existsb_exists in E as [[k' cb'] [Hin Heq]].
    unfold listener_eqb in Heq. cbn [fst snd] in Heq.
    apply andb_prop in Heq as [Hk Hcb]. apply String.eqb_eq in Hcb. subst cb'.
    assert (k = k') as ->; [|exact Hin].
    destruct k as [x|x], k' as [y|y]; simpl in Hk; try discriminate.
    + destruct x, y; try discriminate; reflexivity.
    + apply String.eqb_eq in Hk. now subst.
  - cbn [_listeners set_listeners]. apply in_or_app. right. now left.
Qed.

Lemma autopause_enable_spec self :
  @Plugin.enable AutoPausePlugin.hooks
    {| Plugin._audio_controller := Some self; Plugin._enabled := false |}
  = (Returned true,
     {| Plugin._audio_controller :=
          Some (state_of (add_listener (KeyStr "player_state_change")
                            AutoPausePlugin._on_player_state_change self));
        Plugin._enabled := true |},
     [HookEnable "AutoPause"]).
Proof.
  unfold Plugin.enable, Plugin._enable_plugin, AutoPausePlugin.hooks,
    AutoPausePlugin._enable_plugin, Plugin.on_engine, add_listener, state_of.
  cbv [bind get ret modify emit try_except]. cbn.
  destruct (existsb _ (_listeners self)); reflexivity.
Qed.

Lemma volumenorm_enable_spec self :
  @Plugin.enable VolumeNormalizationPlugin.hooks
    {| Plugin._audio_controller := Some self; Plugin._enabled := false |}
  = (Returned true,
     {| Plugin._audio_controller :=
          Some (state_of (add_listener (KeyStr "song_change")
                            VolumeNormalizationPlugin._on_song_change self));
        Plugin._enabled := true |},
     [HookEnable "VolumeNormalization"]).
Proof.
  unfold Plugin.enable, Plugin._enable_plugin, VolumeNormalizationPlugin.hooks,
    VolumeNormalizationPlugin._enable_plugin, Plugin.on_engine, add_listener,
    state_of.
  cbv [bind get ret modify emit try_except]. cbn.
  destruct (existsb _ (_listeners self)); reflexivity.
Qed.

(** C5.  A dispatch of an [EventType] member invokes exactly the callbacks
    of the pairs keyed by that member, and a string key never equals a
    member.  Enabling the AutoPause (resp. VolumeNormalization) plugin
    succeeds and subscribes its callback under the string
    ["player_state_change"] (resp. ["song_change"]); every dispatch on the
    engine then invokes what it invoked before the subscription and nothing
    more, and a callback that is subscribed under string keys only is
    invoked by no dispatch. *)
Theorem C5_plugin_callbacks_never_dispatched :
  forall (self : t) (event_type : EventType) (data : event_data),
    trace_of (_notify_listeners event_type data self) =
      Dispatched event_type data ::
      map (fun cb => Invoked cb data)
        (matching_callbacks event_type (_listeners self)) /\
    (forall s, listener_key_eqb (KeyStr s) (KeyEvent event_type) = false) /\
    (forall cb d,
       (forall k, In (k, cb) (_listeners self) -> exists s, k = KeyStr s) ->
       ~ In (Invoked cb d) (trace_of (_notify_listeners event_type data self))) /\
    (let r := @Plugin.enable AutoPausePlugin.hooks
                {| Plugin._audio_controller := Some self;
                   Plugin._enabled := false |} in
     result_of r = Returned true /\
     In (KeyStr "player_state_change", AutoPausePlugin._on_player_state_change)
        (_listeners (bound_engine r self)) /\
     forall cb d,
       In (Invoked cb d)
          (trace_of (_notify_listeners event_type data (bound_engine r self))) <->
       In (Invoked cb d) (trace_of (_notify_listeners event_type data self))) /\
    (let r := @Plugin.enable VolumeNormalizationPlugin.hooks
                {| Plugin._audio_controller := Some self;
                   Plugin._enabled := false |} in
     result_of r = Returned true /\
     In (KeyStr "song_change", VolumeNormalizationPlugin._on_song_change)
        (_listeners (bound_engine r self)) /\
     forall cb d,
       In (Invoked cb d)
          (trace_of (_notify_listeners event_type data (bound_engine r self))) <->
       In (Invoked cb d) (trace_of (_notify_listeners event_type data self))).
Proof.
  intros self event_type data.
  split; [now rewrite _notify_listeners_spec|].
  split; [reflexivity|]. split; [|split].
  - intros cb d Honly Hin. rewrite _notify_listeners_spec in Hin.
    unfold trace_of in Hin. cbn [snd] in Hin.
    destruct Hin as [Hin | Hin]; [discriminate|].
    apply in_map_iff in Hin as [cb' [Heq Hin]]. injection Heq as -> _.
    apply matching_callbacks_In in Hin.
    destruct (Honly _ Hin) as [s Hs]. discriminate.
  - intros r. subst r. rewrite autopause_enable_spec.
    unfold bound_engine, result_of. cbn [fst snd state_of Plugin._audio_controller].
    split; [reflexivity|]. split.
    + apply add_listener_In.
    + intros cb d. now rewrite add_listener_str_dispatch.
  - intros r. subst r. rewrite volumenorm_enable_spec.
    unfold bound_engine, result_of. cbn [fst snd state_of Plugin._audio_controller].
    split; [reflexivity|]. split.
    + apply add_listener_In.
    + intros cb d. now rewrite add_listener_str_dispatch.
Qed.

(** ** Plugin lifecycle *)

(** C10.  [enable] on an enabled plugin returns [True] without invoking
    [_enable_plugin], and [disable] on a plugin that is not enabled (a
    freshly constructed plugin is not) returns [True] without invoking
    [_disable_plugin]; neither changes the plugin.  In the other two cases
    the hook is invoked. *)
Theorem C10_enable_disable_idempotent :
  forall (H : Plugin.Hooks) (self : Plugin.t),
    (Plugin._enabled self = true ->
     Plugin.enable self = (Returned true, self, [])) /\
    (Plugin._enabled self = false ->
     Plugin.disable self = (Returned true, self, [])) /\
    Plugin._enabled Plugin.__init__ = false /\
    (Plugin._enabled self = false ->
     exists tr, trace_of (Plugin.enable self) = HookEnable Plugin.name :: tr) /\
    (Plugin._enabled self = true ->
     exists tr, trace_of (Plugin.disable self) = HookDisable Plugin.name :: tr).
Proof.
  intros H self. unfold Plugin.enable, Plugin.disable.
  cbv [bind get ret emit try_except modify trace_of]. cbn [fst snd].
  split; [now intros ->|]. split; [now intros ->|]. split; [reflexivity|].
  split; intros ->; cbn [negb app].
  - destruct (Plugin._enable_plugin self) as [[[b|] s1] tr1]; cbn; eauto.
  - destruct (Plugin._disable_plugin self) as [[[b|] s1] tr1]; cbn; eauto.
Qed.

Lemma C10_enable_disable_idempotent_witness :
  Plugin._enabled Plugin.__init__ = false /\
  @Plugin.disable AutoPausePlugin.hooks Plugin.__init__
  = (Returned true, Plugin.__init__, []).
Proof.
  split; [reflexivity|].
  apply (proj1 (proj2 (C10_enable_disable_idempotent
                         AutoPausePlugin.hooks Plugin.__init__))).
  reflexivity.
Defined.

(** ** Position extrapolation *)

Lemma clamp_le_duration x d : clamp_to_duration x (Some d) <= d.
Proof.
  unfold clamp_to_duration. destruct (Qle_bool d x) eqn:E.
  - apply Qle_refl.
  - destruct (Qlt_le_dec x d) as [Hlt | Hle]; [now apply Qlt_le_weak|].
    apply Qle_bool_iff in Hle. congruence.
Qed.

Lemma clamp_mono x y dur : x <= y -> clamp_to_duration x dur <= clamp_to_duration y dur.
Proof.
  intros Hxy. destruct dur as [d|]; simpl; [|exact Hxy].
  destruct (Qle_bool d x) eqn:Ex, (Qle_bool d y) eqn:Ey.
  - apply Qle_refl.
  - apply Qle_bool_iff in Ex.
    assert (Hdy : d <= y) by (eapply Qle_trans; eassumption).
    apply Qle_bool_iff in Hdy. congruence.
  - destruct (Qlt_le_dec x d) as [Hlt | Hle]; [now apply Qlt_le_weak|].
    apply Qle_bool_iff in Hle. congruence.
  - exact Hxy.
Qed.

Lemma clamp_restart x dur now :
  let v := clamp_to_duration x dur in
  v <= clamp_to_duration (v + (now - now)) dur.
Proof.
  intros v. destruct dur as [d|].
  - assert (Hv : v <= d) by apply clamp_le_duration.
    generalize dependent v. intros v Hv. unfold clamp_to_duration.
    destruct (Qle_bool d (v + (now - now))); [exact Hv | lra].
  - generalize dependent v. intros v. simpl. lra.
Qed.

Lemma get_position_extrapolating self p0 t0 now :
  extrapolating self p0 t0 ->
  get_position now self =
    Some (clamp_to_duration (p0 + (now - t0)) (_current_song_duration self)).
Proof.
  intros (Hap & Hp & Ht & c & info & Hc & Hinfo & Hplay).
  unfold get_position. rewrite Hp, Ht, Hc, Hinfo, Hplay.
  destruct (Qle_bool (_auto_progress self) 0) eqn:E; [|reflexivity].
  apply Qle_bool_iff in E. exfalso. now apply (Qlt_not_le _ _ Hap).
Qed.

Lemma get_position_disabled self now :
  _auto_progress self <= 0 ->
  get_position now self =
    match active_controller self with
    | Some controller => PlayerController.get_position controller
    | None => None
    end.
Proof.
  intros Hap. unfold get_position. apply Qle_bool_iff in Hap. now rewrite Hap.
Qed.

Lemma extrapolate_spec self p0 t0 now flag :
  _last_known_position self = Some p0 ->
  _last_position_update_time self = Some t0 ->
  let v := clamp_to_duration (p0 + (now - t0)) (_current_song_duration self) in
  extrapolate now flag self =
    if Qle_bool (_auto_progress self) (now - t0) then
      (Returned (if match _current_song_duration self with
                    | Some d => Qle_bool d (p0 + (now - t0))
                    | None => false
                    end
                 then false else flag),
       set_last_position_update_time (Some now)
         (set_last_known_position (Some v) self),
       Dispatched POSITION_CHANGE (DataPosition (Some v))
       :: map (fun cb => Invoked cb (DataPosition (Some v)))
            (matching_callbacks POSITION_CHANGE (_listeners self)))
    else (Returned flag, self, []).
Proof.
  intros Hp Ht v. unfold extrapolate. cbv [bind get]. rewrite Hp, Ht.
  destruct (Qle_bool (_auto_progress self) (now - t0)); [|reflexivity].
  cbv [modify ret]. rewrite _notify_listeners_spec. cbn [app].
  now rewrite app_nil_r.
Qed.

Lemma worker_extrapolating self p0 t0 init_time now flag :
  extrapolating self p0 t0 ->
  _auto_progress_worker init_time now flag self = extrapolate now true self.
Proof.
  intros (Hap & Hp & Ht & c & info & Hc & Hinfo & Hplay).
  assert (E : Qle_bool (_auto_progress self) 0 = false).
  { destruct (Qle_bool (_auto_progress self) 0) eqn:E; [|reflexivity].
    apply Qle_bool_iff in E. exfalso. now apply (Qlt_not_le _ _ Hap). }
  unfold _auto_progress_worker, try_except. cbv [bind get].
  rewrite E, Hc, Hinfo, Hplay, Hp.
  destruct flag; cbn [negb]; cbv [ret];
    rewrite (extrapolate_spec self p0 t0 now true Hp Ht);
    destruct (Qle_bool (_auto_progress self) (now - t0)); reflexivity.
Qed.

Lemma extrapolating_after_tick self p0 t0 now :
  extrapolating self p0 t0 ->
  let v := clamp_to_duration (p0 + (now - t0)) (_current_song_duration self) in
  extrapolating
    (set_last_position_update_time (Some now)
       (set_last_known_position (Some v) self)) v now.
Proof.
  intros (Hap & Hp & Ht & c & info & Hc & Hinfo & Hplay) v.
  split; [exact Hap|]. split; [reflexivity|]. split; [reflexivity|].
  exists c, info. auto.
Qed.

Lemma emitted_positions_invoked (cbs : list callback) (d : event_data) :
  emitted_positions (map (fun cb => Invoked cb d) cbs) = [].
Proof. induction cbs; simpl; auto. Qed.

Lemma nondecreasing_cons p l :
  Forall (fun q => p <= q) l -> nondecreasing l -> nondecreasing (p :: l).
Proof.
  intros Hall Hl. destruct l as [|q l]; simpl; [tauto|].
  split; [now inversion Hall | exact Hl].
Qed.

(** Along observations whose clock starts at [tmin], not before the stored
    timestamp, the positions seen are non-decreasing, none is below the
    position extrapolated for [tmin], and none is above a known duration. *)
Lemma observe_extrapolating obs :
  forall self flag p0 t0 tmin,
    extrapolating self p0 t0 ->
    t0 <= tmin ->
    clock_from tmin obs ->
    let seen := observe obs flag self in
    nondecreasing seen /\
    Forall (fun p => clamp_to_duration (p0 + (tmin - t0))
                       (_current_song_duration self) <= p) seen /\
    (forall d, _current_song_duration self = Some d ->
               Forall (fun p => p <= d) seen).
Proof.
  induction obs as [|o obs IH]; intros self flag p0 t0 tmin Hext Ht0 Hclock seen;
    subst seen.
  - simpl. auto.
  - destruct Hclock as [Hnow Hrest]. destruct o as [now | init_time now];
      cbn [time_of] in *.
    + (* a query *)
      simpl. rewrite (get_position_extrapolating self p0 t0 now Hext).
      assert (Ht0' : t0 <= now) by (eapply Qle_trans; eassumption).
      destruct (IH self flag p0 t0 now Hext Ht0' Hrest) as (Hs & Hlow & Hhigh).
      split; [now apply nondecreasing_cons|]. split.
      * constructor; [apply clamp_mono; lra|].
        eapply Forall_impl; [|exact Hlow]. cbv beta. intros q Hq.
        eapply Qle_trans; [|exact Hq]. apply clamp_mono. lra.
      * intros d Hd. constructor; [rewrite Hd; apply clamp_le_duration|].
        now apply Hhigh.
    + (* a turn of the worker *)
      cbn [observe]. rewrite (worker_extrapolating self p0 t0 init_time now flag Hext).
      destruct Hext as (Hap & Hp & Ht & Hback).
      rewrite (extrapolate_spec self p0 t0 now true Hp Ht).
      assert (Hext : extrapolating self p0 t0) by (repeat split; assumption).
      assert (Ht0' : t0 <= now) by (eapply Qle_trans; eassumption).
      destruct (Qle_bool (_auto_progress self) (now - t0)).
      * unfold trace_of, state_of, flag_of, result_of. cbn [fst snd].
        cbn [emitted_positions]. rewrite emitted_positions_invoked. cbn [app].
        set (v := clamp_to_duration (p0 + (now - t0)) (_current_song_duration self)).
        pose proof (extrapolating_after_tick self p0 t0 now Hext) as Hext'.
        cbv zeta in Hext'. fold v in Hext'.
        match goal with
        | |- context [observe obs ?f ?s] =>
            destruct (IH s f v now now Hext' (Qle_refl now) Hrest)
              as (Hs & Hlow & Hhigh)
        end.
        cbn [_current_song_duration set_last_position_update_time
             set_last_known_position] in Hlow, Hhigh.
        assert (Hv : v <= clamp_to_duration (v + (now - now))
                            (_current_song_duration self))
          by apply clamp_restart.
        assert (Hlow' : Forall (fun q => v <= q)
                          (observe obs
                             (if match _current_song_duration self with
                                 | Some d => Qle_bool d (p0 + (now - t0))
                                 | None => false
                                 end then false else true)
                             (set_last_position_update_time (Some now)
                                (set_last_known_position (Some v) self)))).
        { eapply Forall_impl; [|exact Hlow]. cbv beta. intros q Hq.
          eapply Qle_trans; eassumption. }
        split; [now apply nondecreasing_cons|]. split.
        -- constructor; [apply clamp_mono; lra|].
           eapply Forall_impl; [|exact Hlow']. cbv beta. intros q Hq.
           eapply Qle_trans; [|exact Hq]. apply clamp_mono. lra.
        -- intros d Hd. constructor; [unfold v; rewrite Hd; apply clamp_le_duration|].
           now apply Hhigh.
      * unfold trace_of, state_of, flag_of, result_of. cbn [fst snd].
        cbn [emitted_positions app].
        destruct (IH self true p0 t0 now Hext Ht0' Hrest) as (Hs & Hlow & Hhigh).
        split; [exact Hs|]. split; [|exact Hhigh].
        eapply Forall_impl; [|exact Hlow]. cbv beta. intros q Hq.
        eapply Qle_trans; [|exact Hq]. apply clamp_mono. lra.
Qed.

Lemma seek_success self controller position now :
  active_controller self = Some controller ->
  PlayerController.seek controller position = Returned true ->
  seek position now self =
    (Returned true,
     set_last_position_update_time (Some now)
       (set_last_known_position (Some position) self),
     [Call (PlayerController.player_id controller) (CmdSeek position)]).
Proof.
  intros Hc Hseek. unfold seek, invoke. cbv [bind get emit answer].
  rewrite Hc, Hseek. reflexivity.
Qed.

Lemma play_success self controller position now :
  active_controller self = Some controller ->
  PlayerController.play controller = Returned true ->
  PlayerController.get_position controller = Some position ->
  play now self =
    (Returned true,
     set_last_position_update_time (Some now)
       (set_last_known_position (Some position) self),
     [Call (PlayerController.player_id controller) CmdPlay]).
Proof.
  intros Hc Hplay Hpos. unfold play, invoke. cbv [bind get emit answer].
  rewrite Hc, Hplay, Hpos. reflexivity.
Qed.

(** C3 (amended).  While the engine extrapolates (auto-progress interval
    above 0, a stored position and timestamp, the active backend reporting
    PLAYING), [get_position] returns the stored position plus the time
    elapsed since the stored timestamp, clamped to the song duration when
    it is known.  Along any series of [get_position] calls and worker turns
    with no other engine operation in between, at clock readings that do
    not go back and start at the stored timestamp, the positions returned
    and emitted are non-decreasing and never exceed the known duration.  A
    successful [seek], and a successful [play] on a backend that reports a
    position, store that position with the time of the call.  With
    auto-progress disabled, which is the default, [get_position] returns
    what the active backend reports. *)
Theorem C3_extrapolated_positions_monotone :
  forall (self : t) (p0 t0 : Q) (obs : list observation) (flag : bool),
    extrapolating self p0 t0 ->
    clock_from t0 obs ->
    let seen := observe obs flag self in
    nondecreasing seen /\
    (forall d, _current_song_duration self = Some d ->
               Forall (fun p => p <= d) seen) /\
    (forall now,
       get_position now self =
         Some (clamp_to_duration (p0 + (now - t0)) (_current_song_duration self))) /\
    (forall s controller position now,
       active_controller s = Some controller ->
       PlayerController.seek controller position = Returned true ->
       let s' := state_of (seek position now s) in
       _last_known_position s' = Some position /\
       _last_position_update_time s' = Some now) /\
    (forall s controller position now,
       active_controller s = Some controller ->
       PlayerController.play controller = Returned true ->
       PlayerController.get_position controller = Some position ->
       let s' := state_of (play now s) in
       _last_known_position s' = Some position /\
       _last_position_update_time s' = Some now) /\
    (forall s now,
       _auto_progress s <= 0 ->
       get_position now s =
         match active_controller s with
         | Some controller => PlayerController.get_position controller
         | None => None
         end) /\
    _auto_progress __init__ == 0.
Proof.
  intros self p0 t0 obs flag Hext Hclock seen. subst seen.
  destruct (observe_extrapolating obs self flag p0 t0 t0 Hext (Qle_refl t0) Hclock)
    as (Hs & _ & Hhigh).
  split; [exact Hs|]. split; [exact Hhigh|].
  split; [intros now; now apply get_position_extrapolating|].
  split; [|split; [|split]].
  - intros s c position now Hc Hseek s'. subst s'.
    rewrite (seek_success s c position now Hc Hseek). now split.
  - intros s c position now Hc Hplay Hpos s'. subst s'.
    rewrite (play_success s c position now Hc Hplay Hpos). now split.
  - intros s now. apply get_position_disabled.
  - reflexivity.
Qed.

Lemma C3_extrapolated_positions_monotone_witness :
  extrapolating playing_engine 50 0 /\
  observe [Query 10; Tick 20 20; Query 100; Tick 170 170; Query 180] false
    playing_engine
  = [60; 70; 150; 200; 200] /\
  nondecreasing
    (observe [Query 10; Tick 20 20; Query 100; Tick 170 170; Query 180] false
       playing_engine).
Proof.
  assert (Hext : extrapolating playing_engine 50 0).
  { split; [reflexivity|]. split; [reflexivity|]. split; [reflexivity|].
    eexists. eexists. split; [reflexivity|]. split; reflexivity. }
  split; [exact Hext|]. split; [reflexivity|].
  apply (C3_extrapolated_positions_monotone playing_engine 50 0
           [Query 10; Tick 20 20; Query 100; Tick 170 170; Query 180] false Hext).
  simpl. repeat split; discriminate.
Defined.

(** C3 as stated fails.  Ten seconds after [play], [get_position] returns
    60.  The backend then reports position 30 (the listener was sent back
    by another client); this is neither a pause, a stop nor a song change,
    and one second later [get_position] returns 31.  An engine [seek(20)]
    at the same point has the same effect: 21 after 60. *)
Lemma C3_counterexample :
  get_position 10 playing_engine = Some 60 /\
  get_position 11 (state_of (on_position_change (Some 30) 10 playing_engine))
  = Some 31 /\
  result_of (seek 20 10 playing_engine) = Returned true /\
  get_position 11 (state_of (seek 20 10 playing_engine)) = Some 21 /\
  ~ 60 <= 31 /\ ~ 60 <= 21.
Proof.
  repeat (split; [reflexivity|]). split; intros H; apply H; reflexivity.
Qed.

(** ** The stored position and the stored duration *)

Lemma extrapolate_emits s now flag d p :
  _current_song_duration s = Some d ->
  In p (emitted_positions (trace_of (extrapolate now flag s))) ->
  p <= d /\
  _last_known_position (state_of (extrapolate now flag s)) = Some p /\
  _current_song_duration (state_of (extrapolate now flag s)) = Some d.
Proof.
  intros Hd Hin.
  destruct (_last_known_position s) as [p0|] eqn:Hp;
    [destruct (_last_position_update_time s) as [t0|] eqn:Ht|].
  - rewrite (extrapolate_spec s p0 t0 now flag Hp Ht) in *.
    destruct (Qle_bool (_auto_progress s) (now - t0)); [|destruct Hin].
    unfold trace_of, state_of in *. cbn [fst snd] in *.
    cbn [emitted_positions] in Hin. rewrite emitted_positions_invoked in Hin.
    destruct Hin as [<- | []]. rewrite Hd. split; [apply clamp_le_duration|].
    split; [reflexivity | exact Hd].
  - unfold extrapolate in Hin. cbv [bind get ret trace_of] in Hin.
    rewrite Hp, Ht in Hin. destruct Hin.
  - unfold extrapolate in Hin. cbv [bind get ret trace_of] in Hin.
    rewrite Hp in Hin. destruct Hin.
Qed.

Lemma extrapolate_returns s now flag :
  exists b, result_of (extrapolate now flag s) = Returned b.
Proof.
  unfold extrapolate. cbv [bind get ret modify result_of].
  destruct (_last_known_position s); [|simpl; eauto].
  destruct (_last_position_update_time s); [|simpl; eauto].
  destruct (Qle_bool _ _); [|simpl; eauto].
  rewrite _notify_listeners_spec. simpl. eauto.
Qed.

(** A turn of the worker's loop either does nothing or comes down to the
    extrapolation step, possibly after the position tracking was started
    (which leaves the duration alone). *)
Lemma worker_cases self init_time now flag :
  (exists b, _auto_progress_worker init_time now flag self = (Returned b, self, [])) \/
  (exists s b,
     _current_song_duration s = _current_song_duration self /\
     _auto_progress_worker init_time now flag self = extrapolate now b s).
Proof.
  assert (Hstep : forall s,
    (let '(r, s2, tr2) := extrapolate now true s in
     match r with
     | Returned a => (Returned a, s2, tr2)
     | Raised => (Returned false, s2, tr2 ++ [])
     end) = extrapolate now true s).
  { intros s. destruct (extrapolate_returns s now true) as [b' Hb].
    unfold result_of in Hb.
    destruct (extrapolate now true s) as [[r s1] tr1]. simpl in Hb. now subst r. }
  unfold _auto_progress_worker, try_except. cbv [bind get ret modify].
  destruct (Qle_bool (_auto_progress self) 0); [left; eexists; reflexivity|].
  destruct (active_controller self) as [c|]; [|left; eexists; reflexivity].
  destruct flag; cbn [negb].
  - right. exists self, true. split; [reflexivity|].
    rewrite <- (Hstep self) at 2.
    destruct (extrapolate now true self) as [[[b|] s1] tr1]; reflexivity.
  - destruct (PlayerController.get_player_info c) as [info|];
      [|left; eexists; reflexivity].
    destruct (is_PLAYING (state info)); [|left; eexists; reflexivity].
    right. destruct (_last_known_position self) as [p|] eqn:Hp.
    + exists self, true. split; [reflexivity|].
      rewrite <- (Hstep self) at 2.
      destruct (extrapolate now true self) as [[[b|] s1] tr1]; reflexivity.
    + match goal with
      | |- context [extrapolate now true ?s'] =>
          exists s', true; split; [reflexivity|];
          rewrite <- (Hstep s') at 2;
          destruct (extrapolate now true s') as [[[b|] s1] tr1]; reflexivity
      end.
Qed.

(** C9 (amended).  Whenever a turn of the extrapolation worker emits a
    position while the song duration is known, that position is what it
    stores as [last_known_position], and it does not exceed the duration.
    [seek] (when the backend accepts it) and [on_position_change] (when a
    controller is active) store the position they are given as it is, and
    leave the stored duration alone; the stored position is then not
    bounded by the stored duration.  The bound is applied when the position
    is read: while the engine extrapolates, [get_position] returns at most
    the known duration. *)
Theorem C9_stored_position_and_duration :
  forall (self : t) (now : Q),
    (forall init_time flag d p,
       _current_song_duration self = Some d ->
       let r := _auto_progress_worker init_time now flag self in
       In p (emitted_positions (trace_of r)) ->
       p <= d /\
       _last_known_position (state_of r) = Some p /\
       _current_song_duration (state_of r) = Some d) /\
    (forall controller position,
       active_controller self = Some controller ->
       PlayerController.seek controller position = Returned true ->
       let r := seek position now self in
       _last_known_position (state_of r) = Some position /\
       _current_song_duration (state_of r) = _current_song_duration self) /\
    (forall position,
       _active_controller_id self <> None ->
       let r := on_position_change position now self in
       _last_known_position (state_of r) = position /\
       _current_song_duration (state_of r) = _current_song_duration self) /\
    (forall p0 t0 d,
       extrapolating self p0 t0 ->
       _current_song_duration self = Some d ->
       exists p, get_position now self = Some p /\ p <= d).
Proof.
  intros self now. split; [|split; [|split]].
  - intros init_time flag d p Hd r Hin. subst r.
    destruct (worker_cases self init_time now flag) as [[b Hw] | (s & b & Hs & Hw)];
      rewrite Hw in *.
    + destruct Hin.
    + apply extrapolate_emits; [congruence | exact Hin].
  - intros c position Hc Hseek r. subst r.
    rewrite (seek_success self c position now Hc Hseek). now split.
  - intros position Hact r. subst r.
    unfold on_position_change. cbv [bind get modify].
    destruct (_active_controller_id self); [|congruence]. cbn [is_None negb].
    rewrite _notify_listeners_spec. now split.
  - intros p0 t0 d Hext Hd.
    rewrite (get_position_extrapolating self p0 t0 now Hext), Hd.
    eexists. split; [reflexivity | apply clamp_le_duration].
Qed.

Lemma C9_stored_position_and_duration_witness :
  active_controller engine_with_song
    = Some (connected_backend "mpd" PLAYING (Some 50) (Some 200)) /\
  _last_known_position (state_of (seek 120 3 engine_with_song)) = Some 120 /\
  _current_song_duration (state_of (seek 120 3 engine_with_song)) = Some 200.
Proof.
  split; [reflexivity|].
  apply (proj1 (proj2 (C9_stored_position_and_duration engine_with_song 3))
           (connected_backend "mpd" PLAYING (Some 50) (Some 200)) 120);
    reflexivity.
Defined.

(** C9 as stated fails: with a song of 200 s, a [seek(500)] that the
    backend accepts stores 500 as the last known position, and so does a
    position of 500 reported by the backend. *)
Lemma C9_counterexample :
  _current_song_duration (state_of (seek 500 3 engine_with_song)) = Some 200 /\
  result_of (seek 500 3 engine_with_song) = Returned true /\
  _last_known_position (state_of (seek 500 3 engine_with_song)) = Some 500 /\
  _last_known_position
    (state_of (on_position_change (Some 500) 3 engine_with_song)) = Some 500 /\
  ~ 500 <= 200.
Proof.
  repeat (split; [reflexivity|]). intros H. apply H. reflexivity.
Qed.

(** * Further properties of the code *)

(** ** Registry: lookup, round trip, and who is active *)

Section DictMoreFacts.
Context {V : Type}.
Implicit Types (d : Dict.t V) (k : string).

Lemma lookup_set_same k (v : V) d : Dict.lookup k (Dict.set k v d) = Some v.
Proof.
  induction d as [|[k' v'] d IH]; simpl.
  - now rewrite String.eqb_refl.
  - destruct (String.eqb k k') eqn:E; simpl; rewrite ?String.eqb_refl, ?E; auto.
Qed.

Lemma lookup_set_other k k' (v : V) d :
  k' <> k -> Dict.lookup k' (Dict.set k v d) = Dict.lookup k' d.
Proof.
  intros Hne. apply String.eqb_neq in Hne.
  induction d as [|[k0 v0] d IH]; simpl.
  - now rewrite Hne.
  - destruct (String.eqb k k0) eqn:E; simpl.
    + apply String.eqb_eq in E. subst k0. now rewrite Hne.
    + now rewrite IH.
Qed.

Lemma lookup_remove_same k d : Dict.lookup k (Dict.remove k d) = None.
Proof.
  induction d as [|[k0 v0] d IH]; simpl; [reflexivity|].
  destruct (String.eqb k k0) eqn:E; simpl; [exact IH|]. now rewrite E.
Qed.

Lemma lookup_remove_other k k' d :
  k' <> k -> Dict.lookup k' (Dict.remove k d) = Dict.lookup k' d.
Proof.
  intros Hne. apply String.eqb_neq in Hne.
  induction d as [|[k0 v0] d IH]; simpl; [reflexivity|].
  destruct (String.eqb k k0) eqn:E; simpl.
  - apply String.eqb_eq in E. subst k0. now rewrite Hne.
  - now rewrite IH.
Qed.

Lemma lookup_none_mem k d : Dict.lookup k d = None <-> Dict.mem k d = false.
Proof.
  unfold Dict.mem, Dict.keys.
  induction d as [|[k0 v0] d IH]; simpl; [tauto|].
  destruct (String.eqb k k0); simpl; [split; discriminate | exact IH].
Qed.

Lemma set_fresh_app k (v : V) d : Dict.mem k d = false -> Dict.set k v d = d ++ [(k, v)].
Proof.
  induction d as [|[k0 v0] d IH]; simpl; intros Hm; [reflexivity|].
  unfold Dict.mem in Hm. simpl in Hm. apply orb_false_elim in Hm as [Hk Hm].
  rewrite Hk. f_equal. now apply IH.
Qed.

Lemma remove_set_fresh k (v : V) d :
  Dict.mem k d = false -> Dict.remove k (Dict.set k v d) = d.
Proof.
  intros Hm. rewrite set_fresh_app by assumption.
  unfold Dict.remove. rewrite filter_app. simpl. rewrite String.eqb_refl. simpl.
  rewrite app_nil_r.
  induction d as [|[k0 v0] d IH]; simpl; [reflexivity|].
  unfold Dict.mem in Hm. simpl in Hm. apply orb_false_elim in Hm as [Hk Hm].
  rewrite Hk. simpl. f_equal. now apply IH.
Qed.

End DictMoreFacts.

Lemma record_eta (self : t) :
  {| _controllers := _controllers self;
     _active_controller_id := _active_controller_id self;
     _listeners := _listeners self;
     _auto_pause := _auto_pause self;
     _auto_progress := _auto_progress self;
     _last_known_position := _last_known_position self;
     _last_position_update_time := _last_position_update_time self;
     _current_song_duration := _current_song_duration self |} = self.
Proof. now destruct self. Qed.

(** After a registration the controller is found under its id and the other
    ids answer as before; a second controller under a taken id is refused
    and the first one stays; after the unregistration the id is not found.
    *)
Theorem register_get_controller :
  forall (self : t) (controller : PlayerController.t),
    Dict.mem (PlayerController.player_id controller) (_controllers self) = false ->
    let id := PlayerController.player_id controller in
    let registered := state_of (register_controller controller self) in
    get_controller id registered = Some controller /\
    (forall other, other <> id ->
       get_controller other registered = get_controller other self) /\
    (forall second, PlayerController.player_id second = id ->
       register_controller second registered = (Returned false, registered, [])) /\
    get_controller id (state_of (unregister_controller id registered)) = None /\
    (forall other, other <> id ->
       get_controller other (state_of (unregister_controller id registered))
       = get_controller other self).
Proof.
  intros self controller Hm id registered. subst registered.
  rewrite register_controller_fresh by assumption. fold id.
  unfold state_of, get_controller. cbn [fst snd].
  assert (Hc : forall s,
    _controllers
      (match _active_controller_id self with
       | None => set_active_controller_id s
                   (set_controllers (Dict.set id controller (_controllers self)) self)
       | Some _ => set_controllers (Dict.set id controller (_controllers self)) self
       end) = Dict.set id controller (_controllers self))
    by (intros s; now destruct (_active_controller_id self)).
  set (registered := match _active_controller_id self with
                     | None => _ | Some _ => _ end) in *.
  assert (Hin : Dict.mem id (_controllers registered) = true).
  { unfold registered. rewrite Hc. apply mem_In. rewrite keys_set_fresh by assumption.
    apply in_or_app. right. now left. }
  split; [unfold registered; rewrite Hc; apply lookup_set_same|].
  split; [intros other Hne; unfold registered; rewrite Hc;
          now apply lookup_set_other|].
  split; [intros second Hs; apply register_controller_duplicate; now rewrite Hs|].
  rewrite unregister_controller_present by assumption. cbn [fst snd].
  assert (Hr : forall s,
    _controllers
      (if opt_id_eqb (_active_controller_id registered) (Some id)
       then set_active_controller_id s
              (set_controllers (Dict.remove id (_controllers registered)) registered)
       else set_controllers (Dict.remove id (_controllers registered)) registered)
    = Dict.remove id (_controllers registered))
    by (intros s; now destruct (opt_id_eqb _ _)).
  rewrite Hr. split; [apply lookup_remove_same|].
  intros other Hne. rewrite lookup_remove_other by assumption.
  unfold registered. rewrite Hc. now apply lookup_set_other.
Qed.

Lemma register_get_controller_witness :
  get_controller "mpd" one_backend
  = Some (connected_backend "mpd" PLAYING (Some 50) (Some 200)) /\
  get_controller "mpd" (state_of (unregister_controller "mpd" one_backend)) = None.
Proof.
  pose proof (register_get_controller __init__
    (connected_backend "mpd" PLAYING (Some 50) (Some 200)) eq_refl) as H.
  cbv zeta in H. destruct H as (Hfound & _ & _ & Hgone & _).
  split; [exact Hfound | exact Hgone].
Defined.

Lemma settled_register controller self :
  settled self -> settled (state_of (register_controller controller self)).
Proof.
  intros [Hok Hnone]. split; [now apply registry_ok_register|].
  destruct (Dict.mem (PlayerController.player_id controller) (_controllers self)) eqn:Hm.
  - now rewrite register_controller_duplicate.
  - rewrite register_controller_fresh by assumption. unfold state_of. cbn [fst snd].
    destruct (_active_controller_id self) eqn:Ha;
      cbn [_active_controller_id set_controllers set_active_controller_id];
      [rewrite Ha|]; discriminate.
Qed.

Lemma settled_unregister player_id self :
  settled self -> settled (state_of (unregister_controller player_id self)).
Proof.
  intros [Hok Hnone]. split; [now apply registry_ok_unregister|].
  destruct (Dict.mem player_id (_controllers self)) eqn:Hm.
  - rewrite unregister_controller_present by assumption. unfold state_of.
    cbn [fst snd].
    destruct (opt_id_eqb (_active_controller_id self) (Some player_id)) eqn:E.
    + cbn [_active_controller_id set_active_controller_id _controllers set_controllers].
      destruct (Dict.remove player_id (_controllers self)) as [|[k v] rest];
        [reflexivity | discriminate].
    + cbn [_active_controller_id _controllers set_controllers]. intros Ha.
      rewrite (Hnone Ha). reflexivity.
  - now rewrite unregister_controller_absent.
Qed.

(** After any run of registrations and unregistrations on a fresh engine a
    controller is active exactly when the registry is not empty, and the
    property [active_controller] then answers the registered controller
    that [get_controller] finds under the active id. *)
Theorem active_iff_registered :
  forall (cs : list registry_call),
    let self := perform_all cs __init__ in
    (_active_controller_id self = None <-> _controllers self = []) /\
    (active_controller self = None <-> _controllers self = []) /\
    (forall id, _active_controller_id self = Some id ->
       exists controller, active_controller self = Some controller /\
                          get_controller id self = Some controller).
Proof.
  intros cs self.
  assert (Hs : settled self).
  { subst self. generalize __init__ (conj registry_ok_init
      (fun _ : _active_controller_id __init__ = None => eq_refl)
      : settled __init__).
    induction cs as [|c cs IH]; intros s Hs; simpl; [exact Hs|].
    apply IH. destruct c; [now apply settled_register | now apply settled_unregister]. }
  destruct Hs as [[Hnd Hact] Hnone].
  assert (Hlook : forall id, _active_controller_id self = Some id ->
            exists controller, Dict.lookup id (_controllers self) = Some controller).
  { intros id Hid. specialize (Hact id Hid). unfold get_controller_ids in Hact.
    destruct (Dict.lookup id (_controllers self)) as [c|] eqn:E; [eauto|].
    apply lookup_none_mem, mem_false_not_In in E. contradiction. }
  split; [|split].
  - split; [exact Hnone|]. intros He.
    destruct (_active_controller_id self) as [id|] eqn:Hid; [|reflexivity].
    specialize (Hact id eq_refl). unfold get_controller_ids in Hact.
    rewrite He in Hact. destruct Hact.
  - unfold active_controller. split.
    + destruct (_active_controller_id self) as [id|] eqn:Hid; [|auto].
      destruct (Hlook id eq_refl) as [c Hc]. rewrite Hc. discriminate.
    + intros He. rewrite He. now destruct (_active_controller_id self).
  - intros id Hid. destruct (Hlook id Hid) as [c Hc]. exists c.
    unfold active_controller, get_controller. rewrite Hid. auto.
Qed.

(** On an engine left by registrations and unregistrations, registering a
    new controller and unregistering it again gives the engine back as it
    was. *)
Theorem register_unregister_round_trip :
  forall (self : t) (controller : PlayerController.t),
    settled self ->
    Dict.mem (PlayerController.player_id controller) (_controllers self) = false ->
    state_of (unregister_controller (PlayerController.player_id controller)
                (state_of (register_controller controller self))) = self.
Proof.
  intros self controller [[Hnd Hact] Hnone] Hm.
  set (id := PlayerController.player_id controller) in *.
  rewrite register_controller_fresh by assumption. fold id.
  unfold state_of at 2. cbn [fst snd].
  destruct (_active_controller_id self) as [a|] eqn:Ha.
  - assert (Hne : opt_id_eqb (Some a) (Some id) = false).
    { simpl. apply String.eqb_neq. intros ->.
      apply mem_false_not_In in Hm. apply Hm. now apply Hact. }
    rewrite unregister_controller_present.
    + unfold state_of. cbn [fst snd _active_controller_id _controllers set_controllers].
      rewrite Ha, Hne. rewrite remove_set_fresh by assumption.
      unfold set_controllers. cbn. apply record_eta.
    + cbn [_controllers set_controllers]. apply mem_In.
      rewrite keys_set_fresh by assumption. apply in_or_app. right. now left.
  - rewrite unregister_controller_present.
    + unfold state_of.
      cbn [fst snd _active_controller_id _controllers set_controllers
           set_active_controller_id].
      simpl opt_id_eqb. rewrite String.eqb_refl.
      rewrite remove_set_fresh by assumption.
      assert (Hfk : Dict.first_key (_controllers self) = None)
        by now rewrite (Hnone eq_refl).
      rewrite Hfk. unfold set_active_controller_id, set_controllers.
      cbn. rewrite <- Ha. apply record_eta.
    + cbn [_controllers set_controllers set_active_controller_id]. apply mem_In.
      rewrite keys_set_fresh by assumption. apply in_or_app. right. now left.
Qed.

Lemma register_unregister_round_trip_witness :
  settled one_backend /\
  state_of (unregister_controller "radio"
    (state_of (register_controller (NullPlayerController "radio") one_backend)))
  = one_backend.
Proof.
  assert (Hs : settled one_backend).
  { split; [split|].
    - repeat constructor. simpl. tauto.
    - intros id [= <-]. now left.
    - discriminate. }
  split; [exact Hs|].
  apply (register_unregister_round_trip one_backend (NullPlayerController "radio") Hs).
  reflexivity.
Defined.

(** ** Listeners: subscribing and unsubscribing *)

Lemma listener_key_eqb_eq a b : listener_key_eqb a b = true <-> a = b.
Proof.
  destruct a as [x|x], b as [y|y]; simpl; try (split; congruence).
  - destruct x, y; simpl; split; congruence.
  - rewrite String.eqb_eq. split; congruence.
Qed.

Lemma listener_eqb_eq a b : listener_eqb a b = true <-> a = b.
Proof.
  destruct a as [k cb], b as [k' cb']. unfold listener_eqb. cbn [fst snd].
  rewrite andb_true_iff, listener_key_eqb_eq, String.eqb_eq. split.
  - intros [-> ->]. reflexivity.
  - intros [= -> ->]. auto.
Qed.

Lemma existsb_listener l ls :
  existsb (listener_eqb l) ls = true <-> In l ls.
Proof.
  rewrite existsb_exists. split.
  - intros [x [Hin Heq]]. apply listener_eqb_eq in Heq. now subst.
  - intros Hin. exists l. split; [assumption | now apply listener_eqb_eq].
Qed.

Lemma add_listener_listeners k cb self :
  add_listener k cb self =
    (Returned tt,
     (if existsb (listener_eqb (k, cb)) (_listeners self) then self
      else set_listeners (_listeners self ++ [(k, cb)]) self),
     []).
Proof.
  unfold add_listener. cbv [bind get ret modify].
  now destruct (existsb _ _).
Qed.

Lemma remove_listener_listeners k cb self :
  remove_listener k cb self =
    (Returned tt,
     set_listeners
       (filter (fun l => negb (listener_eqb (k, cb) l)) (_listeners self)) self,
     []).
Proof. reflexivity. Qed.

Lemma filter_absent (l : listener_key * callback) ls :
  ~ In l ls -> filter (fun x => negb (listener_eqb l x)) ls = ls.
Proof.
  induction ls as [|x ls IH]; simpl; intros Hn; [reflexivity|].
  destruct (listener_eqb l x) eqn:E.
  - apply listener_eqb_eq in E. subst. exfalso. apply Hn. now left.
  - simpl. f_equal. apply IH. tauto.
Qed.

Lemma listeners_set_facts :
  forall (self : t) (k : listener_key) (cb : callback),
    let added := state_of (add_listener k cb self) in
    let removed := state_of (remove_listener k cb self) in
    In (k, cb) (_listeners added) /\
    ~ In (k, cb) (_listeners removed) /\
    state_of (add_listener k cb added) = added /\
    (forall other, other <> (k, cb) ->
       (In other (_listeners added) <-> In other (_listeners self)) /\
       (In other (_listeners removed) <-> In other (_listeners self))) /\
    (listeners_unique self -> listeners_unique added /\ listeners_unique removed) /\
    (~ In (k, cb) (_listeners self) ->
     state_of (remove_listener k cb added) = self).
Proof.
  intros self k cb added removed. subst added removed.
  rewrite remove_listener_listeners. rewrite !add_listener_listeners.
  unfold state_of. cbn [fst snd].
  destruct (existsb (listener_eqb (k, cb)) (_listeners self)) eqn:E.
  - assert (Hin : In (k, cb) (_listeners self)) by now apply existsb_listener.
    rewrite E. split; [exact Hin|]. split.
    { cbn [_listeners set_listeners]. rewrite filter_In. intros [_ Hneg].
      rewrite (proj2 (listener_eqb_eq (k, cb) (k, cb)) eq_refl) in Hneg.
      discriminate. }
    split; [reflexivity|]. split.
    { intros other Hne. split; [tauto|].
      cbn [_listeners set_listeners]. rewrite filter_In. split; [tauto|].
      intros Hin'. split; [exact Hin'|].
      destruct (listener_eqb (k, cb) other) eqn:E'; [|reflexivity].
      apply listener_eqb_eq in E'. congruence. }
    split.
    { intros Hu. split; [exact Hu|]. unfold listeners_unique.
      cbn [_listeners set_listeners]. now apply NoDup_filter. }
    intros Hn. contradiction.
  - assert (Hn : ~ In (k, cb) (_listeners self)).
    { intros Hin. apply existsb_listener in Hin. congruence. }
    cbn [_listeners set_listeners].
    assert (E2 : existsb (listener_eqb (k, cb)) (_listeners self ++ [(k, cb)]) = true).
    { apply existsb_listener, in_or_app. right. now left. }
    rewrite E2. split; [apply in_or_app; right; now left|]. split.
    { rewrite filter_In. intros [_ Hneg].
      rewrite (proj2 (listener_eqb_eq (k, cb) (k, cb)) eq_refl) in Hneg.
      discriminate. }
    split; [reflexivity|]. split.
    { intros other Hne. split.
      - rewrite in_app_iff. simpl. split; [|tauto].
        intros [H | [H | []]]; [exact H | congruence].
      - rewrite filter_In. split; [tauto|]. intros Hin'. split; [exact Hin'|].
        destruct (listener_eqb (k, cb) other) eqn:E'; [|reflexivity].
        apply listener_eqb_eq in E'. congruence. }
    split.
    { unfold listeners_unique. cbn [_listeners set_listeners]. intros Hu. split.
      - apply NoDup_app; [exact Hu | repeat constructor; simpl; tauto |].
        intros x Hx [<- | []]. contradiction.
      - now apply NoDup_filter. }
    intros _. rewrite remove_listener_listeners. cbn [fst snd _listeners set_listeners].
    rewrite filter_app. simpl.
    rewrite (proj2 (listener_eqb_eq (k, cb) (k, cb)) eq_refl). simpl.
    rewrite app_nil_r, filter_absent by assumption.
    unfold set_listeners. cbn. apply record_eta.
Qed.

(** [add_listener] and [remove_listener] treat [_listeners] as a set: a
    pair is never stored twice, adding it a second time changes nothing,
    removing it leaves no copy, the other pairs are untouched, and adding
    then removing a pair that was not subscribed gives the engine back. *)
Theorem listeners_are_a_set :
  forall (self : t) (k : listener_key) (cb : callback),
    let added := state_of (add_listener k cb self) in
    let removed := state_of (remove_listener k cb self) in
    In (k, cb) (_listeners added) /\
    ~ In (k, cb) (_listeners removed) /\
    state_of (add_listener k cb added) = added /\
    (forall other, other <> (k, cb) ->
       (In other (_listeners added) <-> In other (_listeners self)) /\
       (In other (_listeners removed) <-> In other (_listeners self))) /\
    (listeners_unique self -> listeners_unique added /\ listeners_unique removed) /\
    (~ In (k, cb) (_listeners self) ->
     state_of (remove_listener k cb added) = self).
Proof. exact listeners_set_facts. Qed.

Lemma matching_callbacks_NoDup e ls :
  NoDup ls -> NoDup (matching_callbacks e ls).
Proof.
  induction 1 as [|[k c] ls Hnotin Hnd IH]; [constructor|].
  unfold matching_callbacks in *. simpl.
  destruct (listener_key_eqb k (KeyEvent e)) eqn:E; [|exact IH].
  apply listener_key_eqb_eq in E. subst k. simpl. constructor; [|exact IH].
  intros Hc. apply Hnotin. now apply (matching_callbacks_In e c ls).
Qed.

(** A callback subscribed under an [EventType] member is invoked by every
    dispatch of that member, once and not more when the listener set has
    no duplicates, and by no dispatch of another member unless it is
    subscribed there too; once unsubscribed it is not invoked by a dispatch
    of that member. *)
Theorem subscribed_callbacks_are_invoked :
  forall (self : t) (e : EventType) (cb : callback) (data : event_data),
    let added := state_of (add_listener (KeyEvent e) cb self) in
    let removed := state_of (remove_listener (KeyEvent e) cb self) in
    In (Invoked cb data) (trace_of (_notify_listeners e data added)) /\
    (listeners_unique self ->
     count_occ String.string_dec (matching_callbacks e (_listeners added)) cb = 1%nat) /\
    ~ In (Invoked cb data) (trace_of (_notify_listeners e data removed)) /\
    (forall e', e' <> e ->
       trace_of (_notify_listeners e' data added)
       = trace_of (_notify_listeners e' data self)).
Proof.
  intros self e cb data added removed.
  pose proof (listeners_set_facts self (KeyEvent e) cb) as H. cbv zeta in H.
  fold added removed in H. destruct H as (Hin & Hout & _ & _ & Huniq & _).
  rewrite !_notify_listeners_spec. unfold trace_of. cbn [snd].
  split; [right; apply (in_map (fun c => Invoked c data));
          now apply matching_callbacks_In|].
  split; [|split].
  - intros Hu. destruct (Huniq Hu) as [Hu' _].
    apply NoDup_count_occ'.
    + now apply matching_callbacks_NoDup.
    + now apply matching_callbacks_In.
  - intros [Hd | Hi]; [discriminate|].
    apply in_map_iff in Hi as [cb' [Heq Hi]]. injection Heq as ->.
    now apply matching_callbacks_In in Hi.
  - intros e' Hne.
    assert (Hsame : matching_callbacks e' (_listeners added)
                    = matching_callbacks e' (_listeners self)).
    { subst added. rewrite add_listener_listeners. unfold state_of. cbn [fst snd].
      destruct (existsb _ _); [reflexivity|]. cbn [_listeners set_listeners].
      rewrite matching_callbacks_app. unfold matching_callbacks at 2. simpl.
      destruct e, e'; try congruence; simpl; now rewrite app_nil_r. }
    rewrite !_notify_listeners_spec. cbn [snd]. now rewrite Hsame.
Qed.

(** ** Choosing the active controller *)

Lemma set_active_controller_unknown id now self :
  Dict.mem id (_controllers self) = false ->
  set_active_controller id now self = (Returned false, self, []).
Proof.
  intros Hm. unfold set_active_controller. cbv [bind get]. now rewrite Hm.
Qed.

Lemma set_active_controller_same id now self :
  Dict.mem id (_controllers self) = true ->
  _active_controller_id self = Some id ->
  set_active_controller id now self = (Returned true, self, []).
Proof.
  intros Hm Ha. unfold set_active_controller. cbv [bind get].
  rewrite Hm, Ha. simpl. now rewrite String.eqb_refl.
Qed.

Lemma set_active_controller_switch id now self controller :
  Dict.lookup id (_controllers self) = Some controller ->
  _active_controller_id self <> Some id ->
  set_active_controller id now self =
    (Returned true,
     set_current_song_duration
       (duration_of (PlayerController.get_current_song controller))
       (set_last_position_update_time
          (match PlayerController.get_position controller with
           | Some _ => Some now
           | None => None
           end)
          (set_last_known_position (PlayerController.get_position controller)
             (set_active_controller_id (Some id) self))),
     []).
Proof.
  intros Hl Ha. unfold set_active_controller. cbv [bind get modify ret].
  assert (Hm : Dict.mem id (_controllers self) = true).
  { destruct (Dict.mem id (_controllers self)) eqn:E; [reflexivity|].
    apply lookup_none_mem in E. congruence. }
  rewrite Hm.
  destruct (opt_id_eqb (_active_controller_id self) (Some id)) eqn:E.
  - apply opt_id_eqb_eq in E. contradiction.
  - cbn [negb]. rewrite Hl. reflexivity.
Qed.

Lemma set_active_controller_facts :
  forall (self : t) (id : string) (now : Q),
    (Dict.mem id (_controllers self) = false ->
     set_active_controller id now self = (Returned false, self, [])) /\
    (forall controller,
       Dict.lookup id (_controllers self) = Some controller ->
       let r := set_active_controller id now self in
       result_of r = Returned true /\
       trace_of r = [] /\
       _controllers (state_of r) = _controllers self /\
       _active_controller_id (state_of r) = Some id /\
       active_controller (state_of r) = Some controller /\
       (forall later, set_active_controller id later (state_of r)
                      = (Returned true, state_of r, [])) /\
       (_active_controller_id self = Some id -> state_of r = self) /\
       (_active_controller_id self <> Some id ->
        _last_known_position (state_of r) = PlayerController.get_position controller /\
        _last_position_update_time (state_of r) =
          match PlayerController.get_position controller with
          | Some _ => Some now
          | None => None
          end /\
        _current_song_duration (state_of r) =
          duration_of (PlayerController.get_current_song controller))).
Proof.
  intros self id now. split; [apply set_active_controller_unknown|].
  intros controller Hl r. subst r.
  assert (Hm : Dict.mem id (_controllers self) = true).
  { destruct (Dict.mem id (_controllers self)) eqn:E; [reflexivity|].
    apply lookup_none_mem in E. congruence. }
  destruct (opt_id_eqb (_active_controller_id self) (Some id)) eqn:E.
  - apply opt_id_eqb_eq in E.
    rewrite (set_active_controller_same id now self Hm E).
    unfold result_of, state_of, trace_of, active_controller. cbn [fst snd].
    rewrite E, Hl. repeat (split; [reflexivity|]).
    split; [intros later; now apply set_active_controller_same|].
    split; [reflexivity | contradiction].
  - assert (Hne : _active_controller_id self <> Some id).
    { intros H. apply opt_id_eqb_eq in H. congruence. }
    rewrite (set_active_controller_switch id now self controller Hl Hne).
    unfold result_of, state_of, trace_of, active_controller. cbn [fst snd].
    cbn [_active_controller_id _controllers _last_known_position
         _last_position_update_time _current_song_duration
         set_current_song_duration set_last_position_update_time
         set_last_known_position set_active_controller_id].
    rewrite Hl. repeat (split; [reflexivity|]).
    split; [intros later; now apply set_active_controller_same|].
    split; [contradiction|]. intros _. repeat split.
Qed.

(** [set_active_controller] refuses an id that is not registered and
    changes nothing.  For a registered id it succeeds without calling a
    backend command, the property [active_controller] then answers that
    controller, and a second call changes nothing.  When the active
    controller changes, the extrapolation state is taken from the new
    backend: its position, the time of the call if it has a position and no
    timestamp otherwise, and the duration of its current song. *)
Theorem set_active_controller_behaviour :
  forall (self : t) (id : string) (now : Q),
    (Dict.mem id (_controllers self) = false ->
     set_active_controller id now self = (Returned false, self, [])) /\
    (forall controller,
       Dict.lookup id (_controllers self) = Some controller ->
       let r := set_active_controller id now self in
       result_of r = Returned true /\
       trace_of r = [] /\
       _controllers (state_of r) = _controllers self /\
       _active_controller_id (state_of r) = Some id /\
       active_controller (state_of r) = Some controller /\
       (forall later, set_active_controller id later (state_of r)
                      = (Returned true, state_of r, [])) /\
       (_active_controller_id self = Some id -> state_of r = self) /\
       (_active_controller_id self <> Some id ->
        _last_known_position (state_of r) = PlayerController.get_position controller /\
        _last_position_update_time (state_of r) =
          match PlayerController.get_position controller with
          | Some _ => Some now
          | None => None
          end /\
        _current_song_duration (state_of r) =
          duration_of (PlayerController.get_current_song controller))).
Proof. exact set_active_controller_facts. Qed.

Lemma set_active_controller_behaviour_witness :
  let r := set_active_controller "mpd" 7 three_backends in
  _active_controller_id three_backends = Some "radio" /\
  _active_controller_id (state_of r) = Some "mpd" /\
  _last_known_position (state_of r) = Some 50 /\
  _last_position_update_time (state_of r) = Some 7 /\
  _current_song_duration (state_of r) = Some 200.
Proof.
  intros r. subst r.
  destruct (proj2 (set_active_controller_behaviour three_backends "mpd" 7)
              (connected_backend "mpd" PLAYING (Some 50) (Some 200)) eq_refl)
    as (_ & _ & _ & Ha & _ & _ & _ & Hext).
  destruct Hext as (Hp & Ht & Hd); [discriminate|].
  split; [reflexivity|]. split; [exact Ha|].
  split; [exact Hp|]. split; [exact Ht | exact Hd].
Defined.

Lemma find_some_key {V} (p : string * V -> bool) (d : Dict.t V) k v :
  find p d = Some (k, v) -> In k (Dict.keys d).
Proof.
  intros Hf. apply find_some in Hf as [Hin _].
  unfold Dict.keys. change k with (fst (k, v)). now apply in_map.
Qed.

(** The two selection operations keep the registry invariant: whatever
    they answer, the registry is unchanged and the active id afterwards is
    a registered one (or none). *)
Theorem selection_keeps_registry_ok :
  forall (self : t) (id : string) (now : Q),
    registry_ok self ->
    registry_ok (state_of (set_active_controller id now self)) /\
    registry_ok (state_of (auto_select_active_controller self)) /\
    _controllers (state_of (set_active_controller id now self)) = _controllers self /\
    _controllers (state_of (auto_select_active_controller self)) = _controllers self.
Proof.
  intros self id now [Hnd Hact].
  assert (Hsel : forall k, In k (get_controller_ids self) ->
            registry_ok (set_active_controller_id (Some k) self)).
  { intros k Hk. split; [exact Hnd|]. intros x [= <-]. exact Hk. }
  assert (Hset : registry_ok (state_of (set_active_controller id now self)) /\
                 _controllers (state_of (set_active_controller id now self))
                 = _controllers self).
  { destruct (Dict.lookup id (_controllers self)) as [c|] eqn:Hl.
    - destruct (proj2 (set_active_controller_facts self id now) c Hl)
        as (_ & _ & Hc & Ha & _).
      split; [|exact Hc]. split.
      + unfold get_controller_ids. rewrite Hc. exact Hnd.
      + intros x Hx. unfold get_controller_ids. rewrite Hc.
        rewrite Ha in Hx. injection Hx as <-.
        apply mem_In. destruct (Dict.mem id (_controllers self)) eqn:E; [reflexivity|].
        apply lookup_none_mem in E. congruence.
    - apply lookup_none_mem in Hl.
      rewrite set_active_controller_unknown by assumption. now split. }
  assert (Hauto : registry_ok (state_of (auto_select_active_controller self)) /\
                  _controllers (state_of (auto_select_active_controller self))
                  = _controllers self).
  { unfold auto_select_active_controller. cbv [bind get modify ret state_of].
    destruct (find _ (_controllers self)) as [[k v]|] eqn:F1; cbn [fst snd].
    - split; [|reflexivity]. apply Hsel. eapply find_some_key; eassumption.
    - destruct (find (fun kv => PlayerController.isConnected (snd kv))
                  (_controllers self)) as [[k v]|] eqn:F2; cbn [fst snd].
      + split; [|reflexivity]. apply Hsel. eapply find_some_key; eassumption.
      + now split. }
  tauto.
Qed.

Lemma selection_keeps_registry_ok_witness :
  registry_ok three_backends /\
  registry_ok (state_of (set_active_controller "bt" 0 three_backends)) /\
  registry_ok (state_of (auto_select_active_controller three_backends)).
Proof.
  assert (Hok : registry_ok three_backends).
  { apply (registry_ok_perform_all _ __init__ registry_ok_init). }
  split; [exact Hok|].
  destruct (selection_keeps_registry_ok three_backends "bt" 0 Hok) as (H1 & H2 & _).
  split; assumption.
Defined.

(** The state-change handler does not check that the reporting player is
    registered.  A PLAYING report from a registered player keeps the
    registry invariant.  A PLAYING report under an id that is not
    registered makes that id the active one all the same: the engine is
    then the old one with the active id replaced, [active_controller]
    answers nothing, the invariant is lost, and the commands fail as they
    do without an active controller. *)
Theorem promotion_does_not_check_registration :
  forall (self : t) (player : Player) (id : string) (now : Q),
    player_id player = Some id ->
    is_PLAYING (state player) = true ->
    _active_controller_id self <> Some id ->
    let promoted := state_of (on_player_state_change player now self) in
    (registry_ok self -> Dict.mem id (_controllers self) = true ->
     registry_ok promoted) /\
    (Dict.mem id (_controllers self) = false ->
     promoted = set_active_controller_id (Some id) self /\
     active_controller promoted = None /\
     ~ registry_ok promoted /\
     forall later, play later promoted = (Returned false, promoted, []) /\
                   pause promoted = (Returned false, promoted, [])).
Proof.
  intros self player id now Hid Hplay Hother promoted. subst promoted.
  rewrite (on_player_state_change_promotes self player id now Hid Hplay Hother).
  unfold state_of. cbn [fst snd]. split.
  - intros [Hnd Hact] Hm.
    assert (Hk : In id (get_controller_ids self)) by now apply mem_In.
    destruct (get_position now (set_active_controller_id (Some id) self));
      (split; [exact Hnd | intros x [= <-]; exact Hk]).
  - intros Hm.
    assert (Hnone : active_controller (set_active_controller_id (Some id) self) = None).
    { unfold active_controller. cbn [_active_controller_id set_active_controller_id
                                      _controllers].
      now apply lookup_none_mem. }
    assert (Hpos : get_position now (set_active_controller_id (Some id) self) = None).
    { unfold get_position. rewrite Hnone.
      destruct (negb _); [|reflexivity].
      destruct (_last_known_position _); [|reflexivity].
      now destruct (_last_position_update_time _). }
    rewrite Hpos. split; [reflexivity|]. split; [exact Hnone|]. split.
    + intros [_ Hact]. specialize (Hact id eq_refl).
      apply mem_false_not_In in Hm. contradiction.
    + intros later.
      destruct (commands_without_controller _ Hnone later 0 0%Z true true LOOP_NONE)
        as (Hplay' & Hpause' & _).
      now split.
Qed.

Lemma promotion_does_not_check_registration_witness :
  let promoted := state_of (on_player_state_change mpd_playing 0 __init__) in
  _active_controller_id promoted = Some "mpd" /\
  active_controller promoted = None /\
  play 1 promoted = (Returned false, promoted, []).
Proof.
  intros promoted. subst promoted.
  assert (Hne : _active_controller_id __init__ <> Some "mpd") by discriminate.
  destruct (proj2 (promotion_does_not_check_registration __init__ mpd_playing "mpd" 0
                     eq_refl eq_refl Hne) eq_refl)
    as (Heq & Hnone & _ & Hcmd).
  split; [now rewrite Heq|]. split; [exact Hnone|]. exact (proj1 (Hcmd 1)).
Defined.

(** ** Forwarded commands *)




(** ** Pause, stop and the events pushed by backends *)

Lemma get_position_suspended self now :
  _last_position_update_time self = None ->
  get_position now self =
    match active_controller self with
    | Some controller => PlayerController.get_position controller
    | None => None
    end.
Proof.
  intros Ht. unfold get_position. rewrite Ht.
  destruct (negb _); [|reflexivity]. now destruct (_last_known_position self).
Qed.

(** After a [pause] or a [stop] that the backend accepts, the engine has no
    timestamp, so [get_position] stops advancing: at every clock reading it
    is the backend's own position.  [stop] also resets the stored position
    to 0, and from then on a turn of the worker emits nothing, whatever the
    backend reports, until a timestamp is stored again. *)
Theorem pause_and_stop_suspend_extrapolation :
  forall (self : t) (c : PlayerController.t),
    active_controller self = Some c ->
    (PlayerController.pause c = Returned true ->
     let paused := state_of (pause self) in
     _last_position_update_time paused = None /\
     _last_known_position paused = _last_known_position self /\
     forall now, get_position now paused = PlayerController.get_position c) /\
    (PlayerController.stop c = Returned true ->
     let stopped := state_of (stop self) in
     _last_position_update_time stopped = None /\
     _last_known_position stopped = Some 0 /\
     (forall now, get_position now stopped = PlayerController.get_position c) /\
     forall init_time now flag,
       _auto_progress_worker init_time now flag stopped
       = (Returned (if Qle_bool (_auto_progress self) 0 then false
                    else if flag then true
                    else reports_PLAYING c),
          stopped, [])).
Proof.
  intros self c Hc. split.
  - intros Hp paused. subst paused. unfold pause, invoke.
    cbv [bind get emit answer ret modify state_of]. rewrite Hc, Hp. cbn [fst snd].
    split; [reflexivity|]. split; [reflexivity|]. intros now.
    rewrite get_position_suspended by reflexivity.
    unfold active_controller in *. cbn [_active_controller_id _controllers
      set_last_position_update_time]. now rewrite Hc.
  - intros Hs stopped. subst stopped. unfold stop, invoke.
    cbv [bind get emit answer ret modify state_of]. rewrite Hc, Hs. cbn [fst snd].
    set (stopped := set_last_known_position (Some 0)
                      (set_last_position_update_time None self)).
    assert (Hc' : active_controller stopped = Some c).
    { unfold active_controller in *. exact Hc. }
    split; [reflexivity|]. split; [reflexivity|]. split.
    + intros now. rewrite get_position_suspended by reflexivity. now rewrite Hc'.
    + intros init_time now flag.
      unfold _auto_progress_worker, try_except, extrapolate.
      cbv [bind get ret modify]. rewrite Hc'.
      change (_auto_progress stopped) with (_auto_progress self).
      destruct (Qle_bool (_auto_progress self) 0); [reflexivity|].
      unfold reports_PLAYING.
      destruct flag; cbn [negb]; [reflexivity|].
      destruct (PlayerController.get_player_info c) as [info|]; [|reflexivity].
      now destruct (is_PLAYING (state info)).
Qed.

Lemma pause_and_stop_suspend_extrapolation_witness :
  get_position 10 playing_engine = Some 60 /\
  get_position 10 (state_of (pause playing_engine)) = Some 50 /\
  get_position 99 (state_of (pause playing_engine)) = Some 50.
Proof.
  destruct (proj1 (pause_and_stop_suspend_extrapolation playing_engine
                     (connected_backend "mpd" PLAYING (Some 50) (Some 200)) eq_refl)
              eq_refl) as (_ & _ & Hpos).
  split; [reflexivity|]. split; apply Hpos.
Defined.

(** A state report that is not PLAYING is dropped when it comes from a
    player other than the active one: nothing changes and no listener is
    called.  When it comes from the active player, the timestamp is
    cleared, nothing else changes, no backend is called, and the listeners
    of PLAYER_STATE_CHANGE are handed the report. *)
Theorem state_reports_that_are_not_playing :
  forall (self : t) (player : Player) (now : Q),
    is_PLAYING (state player) = false ->
    (player_id player <> _active_controller_id self ->
     on_player_state_change player now self = (Returned tt, self, [])) /\
    (player_id player = _active_controller_id self ->
     on_player_state_change player now self =
       (Returned tt, set_last_position_update_time None self,
        Dispatched PLAYER_STATE_CHANGE (DataPlayer player)
        :: map (fun cb => Invoked cb (DataPlayer player))
             (matching_callbacks PLAYER_STATE_CHANGE (_listeners self)))).
Proof.
  intros self player now Hnp. split; intros Hid.
  - assert (E : opt_id_eqb (player_id player) (_active_controller_id self) = false).
    { destruct (opt_id_eqb _ _) eqn:E; [|reflexivity].
      apply opt_id_eqb_eq in E. contradiction. }
    unfold on_player_state_change. rewrite Hnp. cbv [bind get ret andb].
    now rewrite E.
  - assert (E : opt_id_eqb (player_id player) (_active_controller_id self) = true)
      by now apply opt_id_eqb_eq.
    unfold on_player_state_change. rewrite Hnp. cbv [bind get ret modify andb].
    rewrite E. cbn [orb]. rewrite _notify_listeners_spec.
    reflexivity.
Qed.

Lemma state_reports_that_are_not_playing_witness :
  on_player_state_change
    {| name := "bt"; player_id := Some "bt"; state := StateEnum PAUSED;
       volume := None; position := None |} 5 playing_engine
  = (Returned tt, playing_engine, []).
Proof.
  apply (proj1 (state_reports_that_are_not_playing playing_engine
    {| name := "bt"; player_id := Some "bt"; state := StateEnum PAUSED;
       volume := None; position := None |} 5 eq_refl)).
  discriminate.
Defined.

Lemma event_handlers_facts :
  forall (self : t) (song : option Song) (v : Z) (p : option Q)
         (caps : list string) (now : Q),
    (_active_controller_id self = None ->
     on_song_change song now self = (Returned tt, self, []) /\
     on_volume_change v self = (Returned tt, self, []) /\
     on_position_change p now self = (Returned tt, self, [])) /\
    trace_of (on_capability_change caps self) =
      Dispatched CAPABILITY_CHANGE (DataCapabilities caps)
      :: map (fun cb => Invoked cb (DataCapabilities caps))
           (matching_callbacks CAPABILITY_CHANGE (_listeners self)) /\
    state_of (on_capability_change caps self) = self /\
    (_active_controller_id self <> None ->
     let r := on_song_change song now self in
     _current_song_duration (state_of r) = duration_of song /\
     _last_known_position (state_of r) = Some 0 /\
     _last_position_update_time (state_of r) = Some now /\
     same_registry self (state_of r) /\
     trace_of r =
       Dispatched SONG_CHANGE (DataSong song)
       :: map (fun cb => Invoked cb (DataSong song))
            (matching_callbacks SONG_CHANGE (_listeners self))).
Proof.
  intros self song v p caps now. split; [|split; [|split]].
  - intros Hnone. unfold on_song_change, on_volume_change, on_position_change.
    cbv [bind get ret]. rewrite Hnone. cbn. auto.
  - unfold on_capability_change. now rewrite _notify_listeners_spec.
  - unfold on_capability_change. now rewrite _notify_listeners_spec.
  - intros Ha r. subst r. unfold on_song_change. cbv [bind get ret modify].
    destruct (_active_controller_id self) eqn:E; [|congruence]. cbn [is_None negb].
    rewrite _notify_listeners_spec. unfold state_of, trace_of. cbn [fst snd].
    repeat split.
Qed.

(** Without an active controller the song, volume and position events are
    dropped: nothing changes and no listener is called.  A capability
    event is dispatched in every case.  With an active controller a song
    event stores the song's duration (none without a song), puts the
    stored position back to 0 at the time of the event, and is handed to
    the listeners of SONG_CHANGE. *)
Theorem events_need_an_active_controller :
  forall (self : t) (song : option Song) (v : Z) (p : option Q)
         (caps : list string) (now : Q),
    (_active_controller_id self = None ->
     on_song_change song now self = (Returned tt, self, []) /\
     on_volume_change v self = (Returned tt, self, []) /\
     on_position_change p now self = (Returned tt, self, [])) /\
    trace_of (on_capability_change caps self) =
      Dispatched CAPABILITY_CHANGE (DataCapabilities caps)
      :: map (fun cb => Invoked cb (DataCapabilities caps))
           (matching_callbacks CAPABILITY_CHANGE (_listeners self)) /\
    state_of (on_capability_change caps self) = self /\
    (_active_controller_id self <> None ->
     let r := on_song_change song now self in
     _current_song_duration (state_of r) = duration_of song /\
     _last_known_position (state_of r) = Some 0 /\
     _last_position_update_time (state_of r) = Some now /\
     same_registry self (state_of r) /\
     trace_of r =
       Dispatched SONG_CHANGE (DataSong song)
       :: map (fun cb => Invoked cb (DataSong song))
            (matching_callbacks SONG_CHANGE (_listeners self))).
Proof. exact event_handlers_facts. Qed.

Lemma events_need_an_active_controller_witness :
  on_song_change (Some {| title := None; duration := Some 200 |}) 0 __init__
  = (Returned tt, __init__, []).
Proof.
  apply (proj1 (events_need_an_active_controller __init__
    (Some {| title := None; duration := Some 200 |}) 0%Z None [] 0)).
  reflexivity.
Defined.

(** After a song event, while auto-progress is on and the active backend
    reports PLAYING, the position restarts from 0: [get_position] returns
    the time elapsed since the event, clamped to the new song's duration
    when it has one. *)
Theorem song_change_restarts_the_position :
  forall (self : t) (song : option Song) (now later : Q) (c : PlayerController.t),
    0 < _auto_progress self ->
    active_controller self = Some c ->
    reports_PLAYING c = true ->
    let changed := state_of (on_song_change song now self) in
    extrapolating changed 0 now /\
    get_position later changed
    = Some (clamp_to_duration (0 + (later - now)) (duration_of song)).
Proof.
  intros self song now later c Hap Hc Hplay changed.
  assert (Ha : _active_controller_id self <> None).
  { unfold active_controller in Hc. destruct (_active_controller_id self); congruence. }
  destruct (proj2 (proj2 (proj2 (event_handlers_facts
              self song 0%Z None [] now))) Ha) as (Hd & Hp & Ht & Hreg & _).
  fold changed in Hd, Hp, Ht, Hreg.
  assert (Hext : extrapolating changed 0 now).
  { split; [|split; [exact Hp | split; [exact Ht|]]].
    - subst changed. unfold on_song_change. cbv [bind get ret modify state_of].
      destruct (negb _); [rewrite _notify_listeners_spec|]; exact Hap.
    - unfold reports_PLAYING in Hplay.
      destruct (PlayerController.get_player_info c) as [info|] eqn:Hi; [|discriminate].
      exists c, info. split; [|split; [exact Hi | exact Hplay]].
      destruct Hreg as (Hctl & Hact & _). unfold active_controller in *.
      now rewrite Hact, Hctl. }
  split; [exact Hext|].
  rewrite (get_position_extrapolating changed 0 now later Hext). now rewrite Hd.
Qed.

Lemma song_change_restarts_the_position_witness :
  let self := state_of (set_auto_progress 1 one_backend) in
  get_position 12
    (state_of (on_song_change (Some {| title := None; duration := Some 300 |}) 10 self))
  = Some (clamp_to_duration (0 + (12 - 10)) (Some 300)).
Proof.
  intros self.
  apply (song_change_restarts_the_position self
           (Some {| title := None; duration := Some 300 |}) 10 12
           (connected_backend "mpd" PLAYING (Some 50) (Some 200)));
    reflexivity.
Defined.

(** ** The extrapolation worker *)

(** [set_auto_progress] stores [max(0, interval)] and touches nothing
    else.  An interval of 0 or below disables the extrapolation: a turn of
    the worker then does nothing and [get_position] is the backend's own
    position. *)
Theorem set_auto_progress_behaviour :
  forall (self : t) (interval : Q),
    let s' := state_of (set_auto_progress interval self) in
    0 <= get_auto_progress s' /\
    (0 <= interval -> get_auto_progress s' = interval) /\
    same_registry self s' /\
    _last_known_position s' = _last_known_position self /\
    _last_position_update_time s' = _last_position_update_time self /\
    _current_song_duration s' = _current_song_duration self /\
    (interval <= 0 ->
     get_auto_progress s' == 0 /\
     (forall init_time now flag,
        _auto_progress_worker init_time now flag s' = (Returned false, s', [])) /\
     (forall now,
        get_position now s' =
          match active_controller self with
          | Some c => PlayerController.get_position c
          | None => None
          end)).
Proof.
  intros self interval s'. subst s'. unfold set_auto_progress, get_auto_progress.
  cbv [modify state_of]. cbn [fst snd].
  destruct (Qle_bool 0 interval) eqn:E.
  - apply Qle_bool_iff in E.
    cbn [_auto_progress set_auto_progress_value _last_known_position
         _last_position_update_time _current_song_duration].
    split; [exact E|]. split; [reflexivity|]. split; [repeat split|].
    do 3 (split; [reflexivity|]). intros Hle.
    assert (H0 : interval == 0) by now apply Qle_antisym.
    split; [exact H0|]. split.
    + intros init_time now flag. unfold _auto_progress_worker, try_except.
      cbv [bind get ret]. cbn [_auto_progress set_auto_progress_value].
      apply Qle_bool_iff in Hle. now rewrite Hle.
    + intros now. rewrite get_position_disabled; [reflexivity | exact Hle].
  - cbn [_auto_progress set_auto_progress_value _last_known_position
         _last_position_update_time _current_song_duration].
    split; [apply Qle_refl|]. split.
    { intros H. apply Qle_bool_iff in H. congruence. }
    split; [repeat split|]. do 3 (split; [reflexivity|]). intros _.
    split; [reflexivity|]. split.
    + intros init_time now flag. reflexivity.
    + intros now. rewrite get_position_disabled; [reflexivity | apply Qle_refl].
Qed.

Lemma set_auto_progress_behaviour_witness :
  get_auto_progress (state_of (set_auto_progress (-3) playing_engine)) == 0 /\
  get_position 10 playing_engine = Some 60 /\
  get_position 10 (state_of (set_auto_progress (-3) playing_engine)) = Some 50.
Proof.
  destruct (set_auto_progress_behaviour playing_engine (-3))
    as (_ & _ & _ & _ & _ & _ & Hoff).
  destruct Hoff as (H0 & _ & Hpos); [discriminate|].
  split; [exact H0|]. split; [reflexivity|]. apply Hpos.
Defined.

(** The worker sleeps between a tenth of a second and half a second: half
    the configured interval when that lies in between, and half a second
    when the extrapolation is disabled. *)
Theorem sleep_time_bounds :
  forall (self : t),
    1 # 10 <= sleep_time self /\
    sleep_time self <= 1 # 2 /\
    (_auto_progress self <= 0 -> sleep_time self = 1 # 2) /\
    (1 # 5 <= _auto_progress self -> _auto_progress self <= 1 ->
     sleep_time self == _auto_progress self / 2).
Proof.
  intros self. unfold sleep_time.
  destruct (Qle_bool (_auto_progress self) 0) eqn:E; cbn [negb].
  - split; [discriminate|]. split; [apply Qle_refl|]. split; [reflexivity|].
    intros H1 _. apply Qle_bool_iff in E. lra.
  - assert (Hpos : ~ _auto_progress self <= 0).
    { intros H. apply Qle_bool_iff in H. congruence. }
    generalize dependent (_auto_progress self). intros a _ Hpos.
    unfold Qdiv. change (/ 2) with (1 # 2).
    split; [apply Q.le_max_l|]. split.
    { apply Q.max_lub; [discriminate | apply Q.le_min_l]. }
    split; [contradiction|]. intros H1 H2.
    assert (Hmin : Qmin (1 # 2) (a * (1 # 2)) == a * (1 # 2))
      by (apply Q.min_r; lra).
    rewrite Hmin. apply Q.max_r. lra.
Qed.

Lemma sleep_time_bounds_witness :
  sleep_time playing_engine == 1 # 2 /\ sleep_time __init__ = 1 # 2.
Proof.
  split.
  - apply (proj2 (proj2 (proj2 (sleep_time_bounds playing_engine)))); discriminate.
  - apply (proj1 (proj2 (proj2 (sleep_time_bounds __init__)))). discriminate.
Defined.

Lemma same_registry_refl self : same_registry self self.
Proof. repeat split. Qed.

Lemma same_registry_trans a b c :
  same_registry a b -> same_registry b c -> same_registry a c.
Proof.
  intros (H1 & H2 & H3 & H4) (K1 & K2 & K3 & K4).
  repeat split; congruence.
Qed.

Lemma extrapolate_frame s now flag :
  let r := extrapolate now flag s in
  (exists b, result_of r = Returned b) /\
  same_registry s (state_of r) /\
  _auto_progress (state_of r) = _auto_progress s /\
  _current_song_duration (state_of r) = _current_song_duration s /\
  backend_calls (trace_of r) = [].
Proof.
  intros r. subst r. split; [apply extrapolate_returns|].
  destruct (_last_known_position s) as [p0|] eqn:Hp;
    [destruct (_last_position_update_time s) as [t0|] eqn:Ht|].
  - rewrite (extrapolate_spec s p0 t0 now flag Hp Ht).
    destruct (Qle_bool (_auto_progress s) (now - t0));
      unfold state_of, trace_of; cbn [fst snd].
    + split; [repeat split|]. split; [reflexivity|]. split; [reflexivity|].
      simpl. induction (matching_callbacks POSITION_CHANGE (_listeners s));
        simpl; auto.
    + split; [apply same_registry_refl|]. auto.
  - unfold extrapolate. cbv [bind get ret state_of trace_of]. rewrite Hp, Ht.
    cbn [fst snd]. split; [apply same_registry_refl|]. auto.
  - unfold extrapolate. cbv [bind get ret state_of trace_of]. rewrite Hp.
    cbn [fst snd]. split; [apply same_registry_refl|]. auto.
Qed.

Lemma worker_cases_framed self init_time now flag :
  (exists b, _auto_progress_worker init_time now flag self = (Returned b, self, [])) \/
  (exists s b,
     (same_registry self s /\
      _auto_progress s = _auto_progress self /\
      _current_song_duration s = _current_song_duration self) /\
     _auto_progress_worker init_time now flag self = extrapolate now b s).
Proof.
  assert (Hstep : forall s,
    (let '(r, s2, tr2) := extrapolate now true s in
     match r with
     | Returned a => (Returned a, s2, tr2)
     | Raised => (Returned false, s2, tr2 ++ [])
     end) = extrapolate now true s).
  { intros s. destruct (extrapolate_returns s now true) as [b' Hb].
    unfold result_of in Hb.
    destruct (extrapolate now true s) as [[r s1] tr1]. simpl in Hb. now subst r. }
  unfold _auto_progress_worker, try_except. cbv [bind get ret modify].
  destruct (Qle_bool (_auto_progress self) 0); [left; eexists; reflexivity|].
  destruct (active_controller self) as [c|]; [|left; eexists; reflexivity].
  destruct flag; cbn [negb].
  - right. exists self, true. split; [repeat split|].
    rewrite <- (Hstep self) at 2.
    destruct (extrapolate now true self) as [[[b|] s1] tr1]; reflexivity.
  - destruct (PlayerController.get_player_info c) as [info|];
      [|left; eexists; reflexivity].
    destruct (is_PLAYING (state info)); [|left; eexists; reflexivity].
    right. destruct (_last_known_position self) as [p|] eqn:Hp.
    + exists self, true. split; [repeat split|].
      rewrite <- (Hstep self) at 2.
      destruct (extrapolate now true self) as [[[b|] s1] tr1]; reflexivity.
    + match goal with
      | |- context [extrapolate now true ?s'] =>
          exists s', true; split; [repeat split|];
          rewrite <- (Hstep s') at 2;
          destruct (extrapolate now true s') as [[[b|] s1] tr1]; reflexivity
      end.
Qed.

(** A turn of the worker never raises, calls no backend command, and
    leaves the registry, the active id, the listeners, the auto-pause flag,
    the interval and the song duration as they were: all it may change is
    the stored position and timestamp. *)
Theorem worker_changes_the_position_only :
  forall (self : t) (init_time now : Q) (flag : bool),
    let r := _auto_progress_worker init_time now flag self in
    (exists b, result_of r = Returned b) /\
    same_registry self (state_of r) /\
    _auto_progress (state_of r) = _auto_progress self /\
    _current_song_duration (state_of r) = _current_song_duration self /\
    backend_calls (trace_of r) = [] /\
    (active_controller self = None -> r = (Returned false, self, [])).
Proof.
  intros self init_time now flag r. subst r.
  assert (Hnone : active_controller self = None ->
            _auto_progress_worker init_time now flag self = (Returned false, self, [])).
  { intros Hc. unfold _auto_progress_worker, try_except. cbv [bind get ret].
    rewrite Hc. now destruct (Qle_bool _ _). }
  destruct (worker_cases_framed self init_time now flag)
    as [[b Hw] | (s & b & (Hreg & Hap & Hd) & Hw)]; rewrite Hw in *.
  - unfold result_of, state_of, trace_of. cbn [fst snd].
    split; [eauto|]. split; [apply same_registry_refl|]. auto.
  - destruct (extrapolate_frame s now b) as (Hr & Hreg' & Hap' & Hd' & Hcalls).
    split; [exact Hr|]. split; [eapply same_registry_trans; eassumption|].
    split; [congruence|]. split; [congruence|]. split; [exact Hcalls|].
    exact Hnone.
Qed.

(** While the engine extrapolates and the interval has elapsed, a turn of
    the worker stores and emits the extrapolated position.  Short of a
    known duration it keeps its flag raised; at or beyond the duration it
    stores and emits exactly the duration and lowers the flag, so that the
    next turn asks the backend for its state again.  When the interval has
    not elapsed the turn changes nothing. *)
Theorem worker_reaches_the_end_of_the_song :
  forall (self : t) (p0 t0 init_time now : Q) (flag : bool),
    extrapolating self p0 t0 ->
    let r := _auto_progress_worker init_time now flag self in
    (now - t0 < _auto_progress self -> r = (Returned true, self, [])) /\
    (_auto_progress self <= now - t0 ->
     forall d, _current_song_duration self = Some d ->
       (d <= p0 + (now - t0) ->
        result_of r = Returned false /\
        emitted_positions (trace_of r) = [d] /\
        _last_known_position (state_of r) = Some d /\
        _last_position_update_time (state_of r) = Some now) /\
       (p0 + (now - t0) < d ->
        result_of r = Returned true /\
        emitted_positions (trace_of r) = [p0 + (now - t0)] /\
        _last_known_position (state_of r) = Some (p0 + (now - t0)) /\
        _last_position_update_time (state_of r) = Some now)).
Proof.
  intros self p0 t0 init_time now flag Hext r. subst r.
  rewrite (worker_extrapolating self p0 t0 init_time now flag Hext).
  destruct Hext as (Hap & Hp & Ht & _).
  rewrite (extrapolate_spec self p0 t0 now true Hp Ht). split.
  - intros Hlt. destruct (Qle_bool (_auto_progress self) (now - t0)) eqn:E;
      [|reflexivity].
    apply Qle_bool_iff in E. exfalso. now apply (Qlt_not_le _ _ Hlt).
  - intros Hle d Hd. apply Qle_bool_iff in Hle. rewrite Hle, Hd.
    unfold result_of, state_of, trace_of. cbn [fst snd emitted_positions].
    rewrite emitted_positions_invoked. cbn [clamp_to_duration].
    split; intros Hcmp.
    + apply Qle_bool_iff in Hcmp. rewrite Hcmp. repeat split.
    + assert (E : Qle_bool d (p0 + (now - t0)) = false).
      { destruct (Qle_bool d (p0 + (now - t0))) eqn:E; [|reflexivity].
        apply Qle_bool_iff in E. exfalso. now apply (Qlt_not_le _ _ Hcmp). }
      rewrite E. repeat split.
Qed.

Lemma worker_reaches_the_end_of_the_song_witness :
  let r := _auto_progress_worker 170 170 true playing_engine in
  extrapolating playing_engine 50 0 /\
  result_of r = Returned false /\
  emitted_positions (trace_of r) = [200].
Proof.
  intros r. subst r.
  assert (Hext : extrapolating playing_engine 50 0).
  { split; [reflexivity|]. split; [reflexivity|]. split; [reflexivity|].
    eexists. eexists. split; [reflexivity|]. split; reflexivity. }
  split; [exact Hext|].
  destruct (proj2 (worker_reaches_the_end_of_the_song
                     playing_engine 50 0 170 170 true Hext)) with (d := 200)
    as [Hend _]; [discriminate | reflexivity |].
  destruct Hend as (Hr & He & _); [discriminate|]. now split.
Defined.

(** ** Plugin lifecycle, continued *)

Lemma enable_when_enabled (H : Plugin.Hooks) (self : Plugin.t) :
  Plugin._enabled self = true -> Plugin.enable self = (Returned true, self, []).
Proof.
  intros He. unfold Plugin.enable. cbv [bind get ret]. now rewrite He.
Qed.

Lemma disable_when_disabled (H : Plugin.Hooks) (self : Plugin.t) :
  Plugin._enabled self = false -> Plugin.disable self = (Returned true, self, []).
Proof.
  intros He. unfold Plugin.disable. cbv [bind get ret]. now rewrite He.
Qed.

Lemma enable_when_disabled (H : Plugin.Hooks) (self : Plugin.t) r s tr :
  Plugin._enabled self = false ->
  Plugin._enable_plugin self = (r, s, tr) ->
  Plugin.enable self =
    match r with
    | Returned b => (Returned b, Plugin.set_enabled b s, HookEnable Plugin.name :: tr)
    | Raised => (Returned false, s, HookEnable Plugin.name :: tr)
    end.
Proof.
  intros He Hr. unfold Plugin.enable. cbv [bind get ret emit try_except modify].
  rewrite He, Hr. destruct r; cbn; now rewrite ?app_nil_r.
Qed.

Lemma disable_when_enabled (H : Plugin.Hooks) (self : Plugin.t) r s tr :
  Plugin._enabled self = true ->
  Plugin._disable_plugin self = (r, s, tr) ->
  Plugin.disable self =
    match r with
    | Returned b =>
        (Returned b, Plugin.set_enabled (negb b) s, HookDisable Plugin.name :: tr)
    | Raised => (Returned false, s, HookDisable Plugin.name :: tr)
    end.
Proof.
  intros He Hr. unfold Plugin.disable. cbv [bind get ret emit try_except modify].
  rewrite He. cbn [negb]. rewrite Hr.
  destruct r; cbn; rewrite ?app_nil_r, ?negb_involutive; reflexivity.
Qed.

(** [enable] and [disable] never raise.  When the hooks leave the flag
    [_enabled] alone, [enable] answers exactly whether the plugin is
    enabled afterwards and [disable] whether it is disabled afterwards: a
    hook that answers [False] or raises leaves the plugin in the state it
    was in and the call reports failure. *)
Theorem lifecycle_reports_the_state :
  forall (H : Plugin.Hooks) (self : Plugin.t),
    (exists b, result_of (Plugin.enable self) = Returned b) /\
    (exists b, result_of (Plugin.disable self) = Returned b) /\
    ((forall r s tr, Plugin._enable_plugin self = (r, s, tr) ->
                     Plugin._enabled s = Plugin._enabled self) ->
     result_of (Plugin.enable self)
     = Returned (Plugin._enabled (state_of (Plugin.enable self))) /\
     (result_of (Plugin._enable_plugin self) <> Returned true ->
      Plugin._enabled (state_of (Plugin.enable self)) = Plugin._enabled self)) /\
    ((forall r s tr, Plugin._disable_plugin self = (r, s, tr) ->
                     Plugin._enabled s = Plugin._enabled self) ->
     result_of (Plugin.disable self)
     = Returned (negb (Plugin._enabled (state_of (Plugin.disable self)))) /\
     (result_of (Plugin._disable_plugin self) <> Returned true ->
      Plugin._enabled (state_of (Plugin.disable self)) = Plugin._enabled self)).
Proof.
  intros H self.
  destruct (Plugin._enable_plugin self) as [[re se] tre] eqn:Hen.
  destruct (Plugin._disable_plugin self) as [[rd sd] trd] eqn:Hdi.
  case_eq (Plugin._enabled self); intros He.
  - rewrite (enable_when_enabled H self He).
    rewrite (disable_when_enabled H self rd sd trd He Hdi).
    unfold result_of, state_of. cbn [fst snd].
    split; [eauto|]. split; [destruct rd; cbn; eauto|].
    split; [intros _; split; [congruence | intros _; congruence]|].
    intros Hk. specialize (Hk _ _ _ eq_refl).
    destruct rd as [b|]; cbn [fst snd].
    + cbn. rewrite negb_involutive. split; [reflexivity|].
      intros Hne. destruct b; [congruence | reflexivity || congruence].
    + rewrite Hk. split; [reflexivity | intros _; congruence].
  - rewrite (disable_when_disabled H self He).
    rewrite (enable_when_disabled H self re se tre He Hen).
    unfold result_of, state_of. cbn [fst snd].
    split; [destruct re; cbn; eauto|]. split; [eauto|]. split.
    + intros Hk. specialize (Hk _ _ _ eq_refl).
      destruct re as [b|]; cbn [fst snd].
      * cbn. split; [reflexivity|].
        intros Hne. destruct b; [congruence | reflexivity || congruence].
      * rewrite Hk. split; [reflexivity | intros _; congruence].
    + intros _. rewrite He. split; [reflexivity | intros _; congruence].
Qed.

Lemma autopause_disable_spec self :
  @Plugin.disable AutoPausePlugin.hooks
    {| Plugin._audio_controller := Some self; Plugin._enabled := true |}
  = (Returned true,
     {| Plugin._audio_controller :=
          Some (state_of (remove_listener (KeyStr "player_state_change")
                            AutoPausePlugin._on_player_state_change self));
        Plugin._enabled := false |},
     [HookDisable "AutoPause"]).
Proof. reflexivity. Qed.

Lemma volumenorm_disable_spec self :
  @Plugin.disable VolumeNormalizationPlugin.hooks
    {| Plugin._audio_controller := Some self; Plugin._enabled := true |}
  = (Returned true,
     {| Plugin._audio_controller :=
          Some (state_of (remove_listener (KeyStr "song_change")
                            VolumeNormalizationPlugin._on_song_change self));
        Plugin._enabled := false |},
     [HookDisable "VolumeNormalization"]).
Proof. reflexivity. Qed.

(** For both plugins: bound to an engine on which its pair is not yet
    subscribed, the plugin is enabled by [enable], and [disable] then gives
    back the plugin and the engine as they were before; each call runs its
    hook once.  A plugin that is not bound to an engine cannot be enabled:
    [enable] runs the hook, answers [False] and the plugin stays disabled.
    *)
Theorem plugins_enable_disable_round_trip :
  forall (self : t),
    let bound := {| Plugin._audio_controller := Some self;
                    Plugin._enabled := false |} in
    (~ In (KeyStr "player_state_change", AutoPausePlugin._on_player_state_change)
          (_listeners self) ->
     let enabled := state_of (@Plugin.enable AutoPausePlugin.hooks bound) in
     Plugin._enabled enabled = true /\
     @Plugin.disable AutoPausePlugin.hooks enabled
     = (Returned true, bound, [HookDisable "AutoPause"])) /\
    (~ In (KeyStr "song_change", VolumeNormalizationPlugin._on_song_change)
          (_listeners self) ->
     let enabled := state_of (@Plugin.enable VolumeNormalizationPlugin.hooks bound) in
     Plugin._enabled enabled = true /\
     @Plugin.disable VolumeNormalizationPlugin.hooks enabled
     = (Returned true, bound, [HookDisable "VolumeNormalization"])) /\
    @Plugin.enable AutoPausePlugin.hooks Plugin.__init__
    = (Returned false, Plugin.__init__, [HookEnable "AutoPause"]) /\
    @Plugin.enable VolumeNormalizationPlugin.hooks Plugin.__init__
    = (Returned false, Plugin.__init__, [HookEnable "VolumeNormalization"]).
Proof.
  intros self bound. subst bound. split; [|split; [|split; reflexivity]].
  - intros Hn enabled. subst enabled. rewrite autopause_enable_spec.
    destruct (listeners_set_facts self (KeyStr "player_state_change")
                AutoPausePlugin._on_player_state_change)
      as (_ & _ & _ & _ & _ & Hback).
    specialize (Hback Hn).
    set (added := state_of (add_listener _ _ self)) in *.
    cbn [state_of fst snd]. split; [reflexivity|].
    rewrite autopause_disable_spec. now rewrite Hback.
  - intros Hn enabled. subst enabled. rewrite volumenorm_enable_spec.
    destruct (listeners_set_facts self (KeyStr "song_change")
                VolumeNormalizationPlugin._on_song_change)
      as (_ & _ & _ & _ & _ & Hback).
    specialize (Hback Hn).
    set (added := state_of (add_listener _ _ self)) in *.
    cbn [state_of fst snd]. split; [reflexivity|].
    rewrite volumenorm_disable_spec. now rewrite Hback.
Qed.

Lemma plugins_enable_disable_round_trip_witness :
  @Plugin.disable AutoPausePlugin.hooks
    (state_of (@Plugin.enable AutoPausePlugin.hooks
       {| Plugin._audio_controller := Some one_backend; Plugin._enabled := false |}))
  = (Returned true,
     {| Plugin._audio_controller := Some one_backend; Plugin._enabled := false |},
     [HookDisable "AutoPause"]).
Proof.
  apply (proj1 (plugins_enable_disable_round_trip one_backend)).
  simpl. tauto.
Defined.

(** ** The AutoPause handler *)

Lemma filter_map_snd {A B} (p : B -> bool) (l : list (A * B)) :
  filter p (map snd l) = map snd (filter (fun kv => p (snd kv)) l).
Proof.
  induction l as [|[a b] l IH]; simpl; [reflexivity|].
  destruct (p b); simpl; now rewrite IH.
Qed.

Lemma filter_andb {A} (p q : A -> bool) (l : list A) :
  filter (fun x => p x && q x) l = filter q (filter p l).
Proof.
  induction l as [|x l IH]; simpl; [reflexivity|].
  destruct (p x); simpl; [destruct (q x)|]; now rewrite IH.
Qed.

Lemma _pause_other_players_spec ac enabled id :
  AutoPauseHandler._pause_other_players id
    {| Plugin._audio_controller := Some ac; Plugin._enabled := enabled |}
  = (Returned tt,
     {| Plugin._audio_controller := Some ac; Plugin._enabled := enabled |},
     map (fun c => Call (PlayerController.player_id c) CmdPause)
       (playing_others id ac)).
Proof.
  unfold AutoPauseHandler._pause_other_players. cbv [bind get]. cbn [fst snd
    Plugin._audio_controller].
  rewrite (for_each_pure _
    (fun kv : string * PlayerController.t =>
       if negb (opt_id_eqb (Some (fst kv)) id) && reports_PLAYING (snd kv)
       then [Call (PlayerController.player_id (snd kv)) CmdPause] else [])).
  - rewrite (flat_map_filter
               (fun kv => negb (opt_id_eqb (Some (fst kv)) id) && reports_PLAYING (snd kv))
               (fun kv => Call (PlayerController.player_id (snd kv)) CmdPause)).
    cbn [app]. unfold playing_others.
    rewrite filter_map_snd, map_map, <- filter_andb. reflexivity.
  - intros [k c] _. cbn [fst snd]. unfold reports_PLAYING.
    destruct (negb (opt_id_eqb (Some k) id)); cbn [andb]; [|reflexivity].
    unfold try_except. cbv [bind emit answer ret].
    destruct (PlayerController.get_player_info c) as [info|]; [|reflexivity].
    destruct (is_PLAYING (state info)); [|reflexivity].
    destruct (PlayerController.pause c); reflexivity.
Qed.

(** The AutoPause handler, when the plugin is bound to an engine.  A
    report that is not PLAYING, or that comes from the active player, is
    ignored.  Otherwise the reporting player is made active through
    [set_active_controller] (so only if it is registered), and [pause] is
    sent to exactly those other registered controllers that report
    PLAYING, in registration order; a [pause] that fails or raises stops
    neither the others nor the handler.  Nothing else is called. *)
Theorem autopause_handler_pauses_playing_others :
  forall (ac : t) (enabled : bool) (player : Player) (now : Q),
    let plugin := {| Plugin._audio_controller := Some ac;
                     Plugin._enabled := enabled |} in
    let r := AutoPauseHandler._on_player_state_change player now plugin in
    (is_PLAYING (state player) = false -> r = (Returned tt, plugin, [])) /\
    (_active_controller_id ac = player_id player -> r = (Returned tt, plugin, [])) /\
    (forall id,
       player_id player = Some id ->
       is_PLAYING (state player) = true ->
       _active_controller_id ac <> Some id ->
       r = (Returned tt,
            {| Plugin._audio_controller :=
                 Some (state_of (set_active_controller id now ac));
               Plugin._enabled := enabled |},
            map (fun c => Call (PlayerController.player_id c) CmdPause)
              (playing_others (Some id) ac))).
Proof.
  intros ac enabled player now plugin r. subst r plugin.
  unfold AutoPauseHandler._on_player_state_change. split; [|split].
  - intros Hnp. now rewrite Hnp.
  - intros Hsame. destruct (is_PLAYING (state player)); [|reflexivity].
    cbv [bind get negb]. cbn [fst snd Plugin._audio_controller].
    rewrite (proj2 (opt_id_eqb_eq _ _) Hsame). reflexivity.
  - intros id Hid Hplay Hne. rewrite Hplay. cbv [bind get negb].
    cbn [fst snd Plugin._audio_controller]. rewrite Hid.
    destruct (opt_id_eqb (_active_controller_id ac) (Some id)) eqn:E.
    { apply opt_id_eqb_eq in E. contradiction. }
    unfold Plugin.on_engine. cbn [Plugin._audio_controller Plugin._enabled].
    assert (Hctl : _controllers (state_of (set_active_controller id now ac))
                   = _controllers ac).
    { destruct (Dict.lookup id (_controllers ac)) as [c|] eqn:Hl.
      - now destruct (proj2 (set_active_controller_facts ac id now) c Hl)
          as (_ & _ & Hc & _).
      - apply lookup_none_mem in Hl.
        now rewrite set_active_controller_unknown. }
    assert (Hres : exists b, set_active_controller id now ac
                             = (Returned b, state_of (set_active_controller id now ac), [])).
    { destruct (Dict.lookup id (_controllers ac)) as [c|] eqn:Hl.
      - destruct (proj2 (set_active_controller_facts ac id now) c Hl)
          as (Hr & Htr & _).
        exists true. unfold result_of, trace_of, state_of in *.
        destruct (set_active_controller id now ac) as [[r s] tr].
        cbn [fst snd] in *. now subst.
      - apply lookup_none_mem in Hl. exists false.
        now rewrite set_active_controller_unknown. }
    destruct Hres as [b Hres]. rewrite Hres. cbv [ret]. cbn [fst snd].
    rewrite _pause_other_players_spec. cbn [app].
    unfold playing_others. now rewrite Hctl.
Qed.

Lemma autopause_handler_pauses_playing_others_witness :
  let engine :=
    perform_all [Register (connected_backend "radio" PLAYING None None);
                 Register (connected_backend "bt" PAUSED None None);
                 Register (connected_backend "mpd" PLAYING (Some 50) (Some 200))]
      __init__ in
  trace_of (AutoPauseHandler._on_player_state_change mpd_playing 0
              {| Plugin._audio_controller := Some engine; Plugin._enabled := true |})
  = [Call "radio" CmdPause].
Proof.
  intros engine.
  assert (Hne : _active_controller_id engine <> Some "mpd") by discriminate.
  rewrite (proj2 (proj2 (autopause_handler_pauses_playing_others
                           engine true mpd_playing 0)) "mpd" eq_refl eq_refl Hne).
  reflexivity.
Defined.

(** ** The plugin manager *)

Lemma load_plugin_spec (self : PluginManager.t) cls :
  PluginManager.load_plugin cls self =
    match PluginManager.instantiate cls with
    | Raised => (Returned None, self, [])
    | Returned h =>
        if Dict.mem (@Plugin.name h) (PluginManager._plugins self)
        then (Returned (Some (@Plugin.name h)), self, [])
        else (Returned (Some (@Plugin.name h)),
              PluginManager.set_plugins
                (Dict.set (@Plugin.name h)
                   {| PluginManager.hooks := h; PluginManager._enabled := false |}
                   (PluginManager._plugins self)) self,
              [])
    end.
Proof.
  unfold PluginManager.load_plugin, try_except. cbv [bind answer get ret modify].
  destruct (PluginManager.instantiate cls) as [h|]; [|reflexivity].
  now destruct (Dict.mem _ _).
Qed.

(** Loading a plugin class files the new instance, disabled, under the
    name the instance reports.  When a plugin of that name is loaded
    already, the manager is left as it is (the loaded plugin keeps its
    state) and the existing one is returned; so loading a class a second
    time changes nothing.  A class whose construction raises loads
    nothing. *)
Theorem load_plugin_is_idempotent :
  forall (self : PluginManager.t) (cls : PluginManager.plugin_class),
    (PluginManager.instantiate cls = Raised ->
     PluginManager.load_plugin cls self = (Returned None, self, [])) /\
    (forall h, PluginManager.instantiate cls = Returned h ->
       let id := @Plugin.name h in
       let r := PluginManager.load_plugin cls self in
       result_of r = Returned (Some id) /\
       trace_of r = [] /\
       PluginManager._audio_controller (state_of r)
       = PluginManager._audio_controller self /\
       (Dict.mem id (PluginManager._plugins self) = true -> state_of r = self) /\
       (Dict.mem id (PluginManager._plugins self) = false ->
        PluginManager.get_plugin id (state_of r)
        = Some {| PluginManager.hooks := h; PluginManager._enabled := false |} /\
        Dict.keys (PluginManager._plugins (state_of r))
        = Dict.keys (PluginManager._plugins self) ++ [id]) /\
       PluginManager.load_plugin cls (state_of r)
       = (Returned (Some id), state_of r, [])).
Proof.
  intros self cls. split.
  - intros Hr. now rewrite load_plugin_spec, Hr.
  - intros h Hh id r. subst r. rewrite !load_plugin_spec, Hh. fold id.
    destruct (Dict.mem id (PluginManager._plugins self)) eqn:Hm;
      unfold result_of, state_of, trace_of; cbn [fst snd].
    + rewrite Hm. repeat split; discriminate.
    + cbn [PluginManager._plugins PluginManager.set_plugins
           PluginManager._audio_controller].
      assert (Hin : Dict.mem id
                (Dict.set id {| PluginManager.hooks := h;
                                PluginManager._enabled := false |}
                   (PluginManager._plugins self)) = true).
      { apply mem_In. rewrite keys_set_fresh by assumption.
        apply in_or_app. right. now left. }
      rewrite Hin. split; [reflexivity|]. split; [reflexivity|].
      split; [reflexivity|]. split; [discriminate|]. split; [|reflexivity].
      intros _. split.
      * unfold PluginManager.get_plugin. cbn [PluginManager._plugins].
        apply lookup_set_same.
      * now apply keys_set_fresh.
Qed.

Lemma load_plugin_is_idempotent_witness :
  let r := PluginManager.load_plugin AutoPausePlugin_class (discovered one_backend) in
  result_of r = Returned (Some "AutoPause") /\
  PluginManager.load_plugin AutoPausePlugin_class (state_of r)
  = (Returned (Some "AutoPause"), state_of r, []).
Proof.
  intros r. subst r.
  destruct (proj2 (load_plugin_is_idempotent (discovered one_backend)
                     AutoPausePlugin_class) AutoPausePlugin.hooks eq_refl)
    as (Hr & _ & _ & _ & _ & Hagain).
  split; [exact Hr | exact Hagain].
Defined.

(** [enable_plugin] and [disable_plugin] on a name that is not loaded.
    [disable_plugin] answers [False].  [enable_plugin] answers [False] when
    no class is filed under the name or when the class cannot be
    constructed, and changes nothing.  Classes are filed under their class
    name, plugins under the name the instance reports: when the two
    differ, [enable_plugin] with the class name loads the plugin under its
    own name and then raises (the lookup under the class name is a
    KeyError); no hook has run and no plugin has been enabled. *)
Theorem enable_plugin_under_an_unloaded_name :
  forall (self : PluginManager.t) (plugin_id : string),
    Dict.mem plugin_id (PluginManager._plugins self) = false ->
    PluginManager.disable_plugin plugin_id self = (Returned false, self, []) /\
    (Dict.lookup plugin_id (PluginManager._plugin_classes self) = None ->
     PluginManager.enable_plugin plugin_id self = (Returned false, self, [])) /\
    (forall cls,
       Dict.lookup plugin_id (PluginManager._plugin_classes self) = Some cls ->
       PluginManager.instantiate cls = Raised ->
       PluginManager.enable_plugin plugin_id self = (Returned false, self, [])) /\
    (forall cls h,
       Dict.lookup plugin_id (PluginManager._plugin_classes self) = Some cls ->
       PluginManager.instantiate cls = Returned h ->
       @Plugin.name h <> plugin_id ->
       let r := PluginManager.enable_plugin plugin_id self in
       result_of r = Raised /\
       trace_of r = [] /\
       Dict.mem (@Plugin.name h) (PluginManager._plugins (state_of r)) = true /\
       Dict.mem plugin_id (PluginManager._plugins (state_of r)) = false /\
       PluginManager.get_enabled_plugins (state_of r)
       = PluginManager.get_enabled_plugins self).
Proof.
  intros self plugin_id Hm. split; [|split; [|split]].
  - unfold PluginManager.disable_plugin. cbv [bind get ret]. now rewrite Hm.
  - intros Hc. unfold PluginManager.enable_plugin, PluginManager.load_plugin_by_name.
    cbv [bind get ret]. rewrite Hm. cbn [negb]. now rewrite Hm, Hc.
  - intros cls Hc Hr.
    unfold PluginManager.enable_plugin, PluginManager.load_plugin_by_name.
    cbv [bind get ret]. rewrite Hm. cbn [negb].
    rewrite Hm, Hc, load_plugin_spec, Hr. reflexivity.
  - intros cls h Hc Hh Hne r. subst r.
    unfold PluginManager.enable_plugin, PluginManager.load_plugin_by_name.
    cbv [bind get ret]. rewrite Hm. cbn [negb].
    rewrite Hm, Hc, load_plugin_spec, Hh.
    assert (Hother : forall d : Dict.t PluginManager.instance,
              Dict.lookup plugin_id d = None ->
              forall i, Dict.lookup plugin_id (Dict.set (@Plugin.name h) i d) = None).
    { intros d Hd i. rewrite lookup_set_other; [exact Hd | congruence]. }
    assert (Hl : Dict.lookup plugin_id (PluginManager._plugins self) = None)
      by now apply lookup_none_mem.
    destruct (Dict.mem (@Plugin.name h) (PluginManager._plugins self)) eqn:Hn;
      cbn [is_None negb]; unfold PluginManager.on_plugin;
      cbn [PluginManager._plugins PluginManager.set_plugins].
    + rewrite Hl. unfold result_of, state_of, trace_of. cbn [fst snd].
      repeat split; assumption.
    + rewrite (Hother _ Hl). unfold result_of, state_of, trace_of. cbn [fst snd].
      cbn [PluginManager._plugins PluginManager.set_plugins].
      split; [reflexivity|]. split; [reflexivity|]. split.
      { apply mem_In. rewrite keys_set_fresh by assumption.
        apply in_or_app. right. now left. }
      split; [apply lookup_none_mem; now apply Hother|].
      unfold PluginManager.get_enabled_plugins.
      cbn [PluginManager._plugins PluginManager.set_plugins].
      rewrite set_fresh_app by assumption. rewrite filter_app. simpl.
      now rewrite app_nil_r.
Qed.

Lemma enable_plugin_under_an_unloaded_name_witness :
  result_of (PluginManager.enable_plugin "AutoPausePlugin" (discovered one_backend))
  = Raised /\
  PluginManager.enable_plugin "AutoPause" (discovered one_backend)
  = (Returned false, discovered one_backend, []).
Proof.
  split.
  - apply (proj2 (proj2 (proj2 (enable_plugin_under_an_unloaded_name
             (discovered one_backend) "AutoPausePlugin" eq_refl)))
             AutoPausePlugin_class AutoPausePlugin.hooks eq_refl eq_refl).
    discriminate.
  - apply (proj1 (proj2 (enable_plugin_under_an_unloaded_name
             (discovered one_backend) "AutoPause" eq_refl))).
    reflexivity.
Defined.

(** The start-up sequence of [main.py] on any engine: once the two classes
    are discovered and loaded, the plugins are filed as "AutoPause" and
    "VolumeNormalization", both disabled.  [enable_plugin("AutoPause")]
    then succeeds, runs the hook once, and subscribes the handler on the
    manager's engine; enabling "VolumeNormalization" after it subscribes
    its handler on the same engine, which keeps the first subscription.
    The enabled plugins are exactly those enabled so far. *)
Theorem plugins_share_the_engine :
  forall (ac : t),
    let loaded := PluginManager.load_all_plugins (discovered ac) in
    let first := PluginManager.enable_plugin "AutoPause" (state_of loaded) in
    let second := PluginManager.enable_plugin "VolumeNormalization" (state_of first) in
    result_of loaded = Returned ["AutoPause"; "VolumeNormalization"] /\
    PluginManager.get_enabled_plugins (state_of loaded) = [] /\
    PluginManager._audio_controller (state_of loaded) = ac /\
    result_of first = Returned true /\
    trace_of first = [HookEnable "AutoPause"] /\
    Dict.keys (PluginManager.get_enabled_plugins (state_of first)) = ["AutoPause"] /\
    PluginManager._audio_controller (state_of first)
    = state_of (add_listener (KeyStr "player_state_change")
                  AutoPausePlugin._on_player_state_change ac) /\
    result_of second = Returned true /\
    Dict.keys (PluginManager.get_enabled_plugins (state_of second))
    = ["AutoPause"; "VolumeNormalization"] /\
    PluginManager._audio_controller (state_of second)
    = state_of (add_listener (KeyStr "song_change")
                  VolumeNormalizationPlugin._on_song_change
                  (state_of (add_listener (KeyStr "player_state_change")
                               AutoPausePlugin._on_player_state_change ac))).
Proof.
  intros ac loaded first second.
  assert (Hloaded : loaded =
    (Returned ["AutoPause"; "VolumeNormalization"],
     {| PluginManager._audio_controller := ac;
        PluginManager._plugins :=
          [("AutoPause", {| PluginManager.hooks := AutoPausePlugin.hooks;
                            PluginManager._enabled := false |});
           ("VolumeNormalization",
            {| PluginManager.hooks := VolumeNormalizationPlugin.hooks;
               PluginManager._enabled := false |})];
        PluginManager._plugin_classes :=
          PluginManager._plugin_classes (discovered ac) |},
     [])) by reflexivity.
  assert (Hfirst : first =
    (Returned true,
     {| PluginManager._audio_controller :=
          state_of (add_listener (KeyStr "player_state_change")
                      AutoPausePlugin._on_player_state_change ac);
        PluginManager._plugins :=
          [("AutoPause", {| PluginManager.hooks := AutoPausePlugin.hooks;
                            PluginManager._enabled := true |});
           ("VolumeNormalization",
            {| PluginManager.hooks := VolumeNormalizationPlugin.hooks;
               PluginManager._enabled := false |})];
        PluginManager._plugin_classes :=
          PluginManager._plugin_classes (discovered ac) |},
     [HookEnable "AutoPause"])).
  { subst first. rewrite Hloaded. unfold state_of. cbn [fst snd].
    unfold PluginManager.enable_plugin, PluginManager.on_plugin.
    cbv [bind get ret]. cbn [PluginManager._plugins Dict.mem Dict.keys map fst
      existsb String.eqb Ascii.eqb Bool.eqb orb negb Dict.lookup
      PluginManager.hooks PluginManager._enabled PluginManager._audio_controller].
    rewrite autopause_enable_spec. reflexivity. }
  assert (Hsecond : second =
    (Returned true,
     {| PluginManager._audio_controller :=
          state_of (add_listener (KeyStr "song_change")
                      VolumeNormalizationPlugin._on_song_change
                      (state_of (add_listener (KeyStr "player_state_change")
                                   AutoPausePlugin._on_player_state_change ac)));
        PluginManager._plugins :=
          [("AutoPause", {| PluginManager.hooks := AutoPausePlugin.hooks;
                            PluginManager._enabled := true |});
           ("VolumeNormalization",
            {| PluginManager.hooks := VolumeNormalizationPlugin.hooks;
               PluginManager._enabled := true |})];
        PluginManager._plugin_classes :=
          PluginManager._plugin_classes (discovered ac) |},
     [HookEnable "VolumeNormalization"])).
  { subst second. rewrite Hfirst. unfold state_of at 1. cbn [fst snd].
    unfold PluginManager.enable_plugin, PluginManager.on_plugin.
    cbv [bind get ret]. cbn [PluginManager._plugins Dict.mem Dict.keys map fst
      existsb String.eqb Ascii.eqb Bool.eqb orb negb Dict.lookup
      PluginManager.hooks PluginManager._enabled PluginManager._audio_controller].
    rewrite volumenorm_enable_spec. reflexivity. }
  rewrite Hsecond, Hfirst, Hloaded. unfold result_of, state_of, trace_of.
  cbn [fst snd]. repeat split.
Qed.

(** ** The MPD backend: volume and mute *)

Lemma mpd_get_volume_spec (self : MPDMute.t) :
  MPDMute.get_volume self =
    match MPDPlayerController.client_ping (MPDMute.base self) with
    | Returned _ => (Returned (volume_read self), self, [ClientPing])
    | Raised => (Returned 0%Z, self, [ClientPing])
    end.
Proof.
  destruct self as [[muted vbm ping setvol] status].
  unfold MPDMute.get_volume, MPDMute.on_base, MPDPlayerController._ensure_connected,
    volume_read.
  cbv [bind get ret emit answer try_except]. cbn.
  destruct ping as [[]|]; cbn; [|reflexivity].
  destruct status as [[v|]|]; reflexivity.
Qed.

Lemma mpd_set_volume_facts :
  forall (self : MPDPlayerController.t) (volume : Z),
    let v := Z.max 0 (Z.min 100 volume) in
    let r := MPDPlayerController.set_volume volume self in
    (MPDPlayerController.client_ping self = Raised ->
     r = (Returned false, self, [ClientPing])) /\
    (MPDPlayerController.client_ping self = Returned tt ->
     MPDPlayerController.client_setvol self v = Raised ->
     r = (Returned false, self, [ClientPing; ClientSetvol v])) /\
    (MPDPlayerController.client_ping self = Returned tt ->
     MPDPlayerController.client_setvol self v = Returned tt ->
     result_of r = Returned true /\
     trace_of r = [ClientPing; ClientSetvol v; NotifyVolumeChange v] /\
     MPDPlayerController._is_muted (state_of r)
     = (if (0 <? v)%Z then false else MPDPlayerController._is_muted self) /\
     MPDPlayerController._volume_before_mute (state_of r)
     = MPDPlayerController._volume_before_mute self).
Proof.
  intros self volume v r. subst r.
  unfold MPDPlayerController.set_volume, MPDPlayerController._ensure_connected.
  cbv [bind get emit answer try_except ret modify]. fold v.
  split; [|split].
  - intros Hp. now rewrite Hp.
  - intros Hp Hs. rewrite Hp. cbn. now rewrite Hs.
  - intros Hp Hs. rewrite Hp. cbn. rewrite Hs. cbn.
    unfold result_of, state_of, trace_of.
    destruct (0 <? v)%Z; cbn; repeat split.
Qed.

(** [set_volume] on the MPD backend.  When the daemon cannot be reached
    nothing is sent and the answer is [False].  Otherwise the clamped
    volume is sent; if the daemon refuses it the answer is [False], the
    listeners are not notified and the mute flag is as before; if it
    accepts, the answer is [True], the listeners are notified of the
    clamped volume, and the mute flag is cleared exactly when that volume
    is above 0. *)
Theorem mpd_set_volume_behaviour :
  forall (self : MPDPlayerController.t) (volume : Z),
    let v := Z.max 0 (Z.min 100 volume) in
    let r := MPDPlayerController.set_volume volume self in
    (MPDPlayerController.client_ping self = Raised ->
     r = (Returned false, self, [ClientPing])) /\
    (MPDPlayerController.client_ping self = Returned tt ->
     MPDPlayerController.client_setvol self v = Raised ->
     r = (Returned false, self, [ClientPing; ClientSetvol v])) /\
    (MPDPlayerController.client_ping self = Returned tt ->
     MPDPlayerController.client_setvol self v = Returned tt ->
     result_of r = Returned true /\
     trace_of r = [ClientPing; ClientSetvol v; NotifyVolumeChange v] /\
     MPDPlayerController._is_muted (state_of r)
     = (if (0 <? v)%Z then false else MPDPlayerController._is_muted self) /\
     MPDPlayerController._volume_before_mute (state_of r)
     = MPDPlayerController._volume_before_mute self).
Proof. exact mpd_set_volume_facts. Qed.

Lemma mpd_set_volume_behaviour_witness :
  MPDPlayerController.set_volume 150
    {| MPDPlayerController._is_muted := true;
       MPDPlayerController._volume_before_mute := 40;
       MPDPlayerController.client_ping := Raised;
       MPDPlayerController.client_setvol := fun _ => Returned tt |}
  = (Returned false,
     {| MPDPlayerController._is_muted := true;
        MPDPlayerController._volume_before_mute := 40;
        MPDPlayerController.client_ping := Raised;
        MPDPlayerController.client_setvol := fun _ => Returned tt |},
     [ClientPing]).
Proof.
  apply (proj1 (mpd_set_volume_behaviour _ 150)). reflexivity.
Defined.

Lemma mpd_set_volume_keeps_ping (self : MPDPlayerController.t) (volume : Z) :
  MPDPlayerController.client_ping (state_of (MPDPlayerController.set_volume volume self))
  = MPDPlayerController.client_ping self.
Proof.
  unfold MPDPlayerController.set_volume, MPDPlayerController._ensure_connected.
  cbv [bind get emit answer try_except ret modify state_of].
  destruct (MPDPlayerController.client_ping self) as [[]|] eqn:Hp; cbn;
    [|exact Hp].
  destruct (MPDPlayerController.client_setvol self _) as [[]|]; cbn; [|exact Hp].
  destruct (0 <? _)%Z; exact Hp.
Qed.

Lemma mute_on_spec (self : MPDMute.t) :
  daemon_accepts self ->
  MPDMute.is_muted self = false ->
  MPDMute.mute true self =
    (Returned true,
     {| MPDMute.base :=
          MPDPlayerController.set_is_muted true
            (MPDMute.set_volume_before_mute (volume_read self) (MPDMute.base self));
        MPDMute.client_status_volume := MPDMute.client_status_volume self |},
     [ClientPing; ClientPing; ClientSetvol 0; NotifyVolumeChange 0]).
Proof.
  intros [Hp Hs] Hm. unfold MPDMute.is_muted in Hm.
  destruct self as [[muted vbm ping setvol] status]. cbn in Hp, Hs, Hm. subst.
  unfold MPDMute.mute, try_except, MPDMute.get_volume, MPDMute.on_base,
    MPDPlayerController._ensure_connected, volume_read.
  cbv [bind get ret emit answer modify]. cbn.
  destruct status as [[v|]|]; cbn; rewrite ?Hs; reflexivity.
Qed.

Lemma mute_off_spec (self : MPDMute.t) :
  daemon_accepts self ->
  MPDMute.is_muted self = true ->
  MPDMute.mute false self =
    (Returned true,
     {| MPDMute.base := MPDPlayerController.set_is_muted false (MPDMute.base self);
        MPDMute.client_status_volume := MPDMute.client_status_volume self |},
     [ClientPing;
      ClientSetvol (MPDPlayerController._volume_before_mute (MPDMute.base self));
      NotifyVolumeChange (MPDPlayerController._volume_before_mute (MPDMute.base self))]).
Proof.
  intros [Hp Hs] Hm. unfold MPDMute.is_muted in Hm.
  destruct self as [[muted vbm ping setvol] status]. cbn in Hp, Hs, Hm. subst.
  unfold MPDMute.mute, try_except, MPDMute.on_base,
    MPDPlayerController._ensure_connected.
  cbv [bind get ret emit answer modify]. cbn. rewrite !Hs. reflexivity.
Qed.

Lemma mute_same_spec (self : MPDMute.t) (m : bool) :
  MPDPlayerController.client_ping (MPDMute.base self) = Returned tt ->
  MPDMute.is_muted self = m ->
  MPDMute.mute m self = (Returned true, self, [ClientPing]).
Proof.
  intros Hp Hm. unfold MPDMute.is_muted in Hm.
  destruct self as [[muted vbm ping setvol] status]. cbn in Hp, Hm.
  subst ping m.
  unfold MPDMute.mute, try_except, MPDMute.on_base,
    MPDPlayerController._ensure_connected.
  cbv [bind get ret emit answer modify]. cbn.
  destruct muted; reflexivity.
Qed.

(** Muting on the MPD backend, with a reachable daemon that accepts every
    volume.  Muting stores the volume read from the daemon (0 when the
    status gives none) and sends volume 0; unmuting sends the stored volume
    back, as it is, and clears the flag; asking for the state the backend
    is already in sends nothing.  So mute followed by unmute restores the
    volume that was read.  Setting a volume above 0 while muted clears the
    flag, and a later unmute then sends nothing; setting volume 0 keeps
    the flag.  When the daemon cannot be reached [mute] answers [False]
    and changes nothing. *)
Theorem mpd_mute_then_unmute :
  forall (self : MPDMute.t),
    (MPDPlayerController.client_ping (MPDMute.base self) = Raised ->
     forall m, MPDMute.mute m self = (Returned false, self, [ClientPing])) /\
    (daemon_accepts self ->
     (forall m, MPDMute.is_muted self = m ->
        MPDMute.mute m self = (Returned true, self, [ClientPing])) /\
     (MPDMute.is_muted self = false ->
      let muted := state_of (MPDMute.mute true self) in
      trace_of (MPDMute.mute true self)
      = [ClientPing; ClientPing; ClientSetvol 0; NotifyVolumeChange 0] /\
      MPDMute.is_muted muted = true /\
      trace_of (MPDMute.mute false muted)
      = [ClientPing; ClientSetvol (volume_read self);
         NotifyVolumeChange (volume_read self)] /\
      MPDMute.is_muted (state_of (MPDMute.mute false muted)) = false /\
      (forall volume, (0 < volume)%Z ->
         let louder := state_of (MPDMute.set_volume volume muted) in
         MPDMute.is_muted louder = false /\
         MPDMute.mute false louder = (Returned true, louder, [ClientPing])) /\
      (forall volume, (volume <= 0)%Z ->
         MPDMute.is_muted (state_of (MPDMute.set_volume volume muted)) = true))).
Proof.
  intros self. split.
  - intros Hp m. destruct self as [[muted vbm ping setvol] status].
    cbn in Hp. subst.
    unfold MPDMute.mute, try_except, MPDMute.on_base,
      MPDPlayerController._ensure_connected.
    cbv [bind get ret emit answer modify]. reflexivity.
  - intros Hacc. split; [intros m Hm; apply mute_same_spec; [apply Hacc | exact Hm]|].
    intros Hm muted0. pose proof (mute_on_spec self Hacc Hm) as Hon.
    set (muted := {| MPDMute.base := _; MPDMute.client_status_volume := _ |}) in Hon.
    assert (Heq : muted0 = muted) by (unfold muted0; now rewrite Hon).
    clearbody muted0. subst muted0. rewrite Hon. clear Hon.
    assert (Hacc' : daemon_accepts muted).
    { destruct Hacc as [Hp Hs]. split; [exact Hp | exact Hs]. }
    assert (Hm' : MPDMute.is_muted muted = true) by reflexivity.
    split; [reflexivity|]. split; [reflexivity|].
    rewrite (mute_off_spec muted Hacc' Hm').
    split; [reflexivity|]. split; [reflexivity|]. split.
    + intros volume Hv louder. subst louder.
      destruct Hacc' as [Hp Hs].
      destruct (proj2 (proj2 (mpd_set_volume_facts (MPDMute.base muted) volume))
                  Hp (Hs _)) as (_ & _ & Hflag & _).
      assert (Hpos : (0 <? Z.max 0 (Z.min 100 volume))%Z = true)
        by (apply Z.ltb_lt; lia).
      rewrite Hpos in Hflag.
      assert (Hl : MPDMute.is_muted (state_of (MPDMute.set_volume volume muted)) = false).
      { unfold MPDMute.set_volume, MPDMute.on_base, MPDMute.is_muted, state_of in *.
        destruct (MPDPlayerController.set_volume volume (MPDMute.base muted))
          as [[r b] tr]. exact Hflag. }
      split; [exact Hl|]. apply mute_same_spec; [|exact Hl].
      pose proof (mpd_set_volume_keeps_ping (MPDMute.base muted) volume) as Hk.
      unfold MPDMute.set_volume, MPDMute.on_base, state_of in *.
      destruct (MPDPlayerController.set_volume volume (MPDMute.base muted))
        as [[r b] tr]. cbn [fst snd MPDMute.base] in *. now rewrite Hk.
    + intros volume Hv. destruct Hacc' as [Hp Hs].
      destruct (proj2 (proj2 (mpd_set_volume_facts (MPDMute.base muted) volume))
                  Hp (Hs _)) as (_ & _ & Hflag & _).
      assert (Hzero : (0 <? Z.max 0 (Z.min 100 volume))%Z = false)
        by (apply Z.ltb_ge; lia).
      rewrite Hzero in Hflag.
      unfold MPDMute.set_volume, MPDMute.on_base, MPDMute.is_muted, state_of in *.
      destruct (MPDPlayerController.set_volume volume (MPDMute.base muted))
        as [[r b] tr]. exact Hflag.
Qed.

Lemma mpd_mute_then_unmute_witness :
  daemon_accepts mpd_at_35 /\
  trace_of (MPDMute.mute false (state_of (MPDMute.mute true mpd_at_35)))
  = [ClientPing; ClientSetvol 35; NotifyVolumeChange 35].
Proof.
  assert (Hacc : daemon_accepts mpd_at_35) by (split; reflexivity).
  split; [exact Hacc|].
  destruct (proj2 (proj2 (mpd_mute_then_unmute mpd_at_35) Hacc) eq_refl)
    as (_ & _ & Hback & _).
  exact Hback.
Defined.

(** ** The callback table of a backend *)

Section DictSetFacts.
Context {V : Type}.
Implicit Types (d : Dict.t V) (k : string).

Lemma set_lookup_same k (v : V) d : Dict.lookup k d = Some v -> Dict.set k v d = d.
Proof.
  induction d as [|[k0 v0] d IH]; simpl; [discriminate|].
  destruct (String.eqb k k0) eqn:E.
  - intros [= ->]. apply String.eqb_eq in E. now subst.
  - intros H. f_equal. now apply IH.
Qed.

Lemma set_set k (v v' : V) d : Dict.set k v (Dict.set k v' d) = Dict.set k v d.
Proof.
  induction d as [|[k0 v0] d IH]; simpl.
  - now rewrite String.eqb_refl.
  - destruct (String.eqb k k0) eqn:E; simpl.
    + now rewrite String.eqb_refl.
    + rewrite E. f_equal. exact IH.
Qed.

Lemma keys_set_present k (v : V) d :
  Dict.mem k d = true -> Dict.keys (Dict.set k v d) = Dict.keys d.
Proof.
  induction d as [|[k0 v0] d IH]; simpl; [discriminate|].
  unfold Dict.mem. simpl. destruct (String.eqb k k0) eqn:E; simpl.
  - intros _. apply String.eqb_eq in E. now subst.
  - intros H. f_equal. now apply IH.
Qed.

Lemma In_set k (v : V) d kv :
  In kv (Dict.set k v d) -> kv = (k, v) \/ In kv d.
Proof.
  induction d as [|[k0 v0] d IH]; simpl.
  - intros [<- | []]. now left.
  - destruct (String.eqb k k0); simpl.
    + intros [<- | H]; [now left | right; now right].
    + intros [<- | H]; [right; now left|].
      destruct (IH H); [now left | right; now right].
Qed.

Lemma In_remove k d kv : In kv (Dict.remove k d) -> In kv d.
Proof. unfold Dict.remove. rewrite filter_In. tauto. Qed.

Lemma lookup_In_pair k (v : V) d : Dict.lookup k d = Some v -> In (k, v) d.
Proof.
  induction d as [|[k0 v0] d IH]; simpl; [discriminate|].
  destruct (String.eqb k k0) eqn:E.
  - intros [= ->]. apply String.eqb_eq in E. subst. now left.
  - intros H. right. now apply IH.
Qed.

End DictSetFacts.

Lemma existsb_callback cb l : existsb (String.eqb cb) l = true <-> In cb l.
Proof.
  rewrite existsb_exists. split.
  - intros [x [Hin Heq]]. apply String.eqb_eq in Heq. now subst.
  - intros Hin. exists cb. split; [assumption | apply String.eqb_refl].
Qed.

Lemma list_remove_absent cb l : ~ In cb l -> Callbacks.list_remove cb (l ++ [cb]) = l.
Proof.
  induction l as [|x l IH]; simpl; intros Hn.
  - now rewrite String.eqb_refl.
  - destruct (String.eqb cb x) eqn:E.
    + apply String.eqb_eq in E. subst. tauto.
    + f_equal. apply IH. tauto.
Qed.

Lemma list_remove_In cb l x : In x (Callbacks.list_remove cb l) -> In x l.
Proof.
  induction l as [|y l IH]; simpl; [tauto|].
  destruct (String.eqb cb y); simpl; [tauto|]. intros [H | H]; auto.
Qed.

Lemma list_remove_NoDup cb l :
  NoDup l -> NoDup (Callbacks.list_remove cb l) /\ ~ In cb (Callbacks.list_remove cb l).
Proof.
  induction 1 as [|y l Hy Hl IH]; simpl; [split; [constructor | tauto]|].
  destruct (String.eqb cb y) eqn:E.
  - apply String.eqb_eq in E. subst. now split.
  - destruct IH as [IH1 IH2]. split.
    + constructor; [|exact IH1]. intros H. apply Hy. eapply list_remove_In; eassumption.
    + simpl. intros [H | H]; [|tauto]. apply String.eqb_neq in E. congruence.
Qed.

Lemma register_callback_spec e cb (d : Callbacks.t) :
  Callbacks.register_callback e cb d =
    if existsb (String.eqb cb) (registered_for e d) then
      (if Dict.mem e d then d else Dict.set e [] d)
    else Dict.set e (registered_for e d ++ [cb]) d.
Proof.
  unfold Callbacks.register_callback, registered_for.
  destruct (Dict.mem e d) eqn:Hm.
  - destruct (Dict.lookup e d) as [l|] eqn:Hl.
    + destruct (existsb (String.eqb cb) l); reflexivity.
    + apply lookup_none_mem in Hl. congruence.
  - assert (Hl : Dict.lookup e d = None) by now apply lookup_none_mem.
    rewrite Hl, lookup_set_same. simpl. now rewrite set_set.
Qed.

(** The callback table of a backend.  The three methods keep the table
    well formed (no event without a callback, no callback twice for an
    event).  After [register_callback] the callback is registered for the
    event, after the other callbacks and once; registering it again changes
    nothing.  After [unregister_callback] it is not registered.
    Registering a callback that was not there and unregistering it gives
    the table back, the entry of the event included.  [trigger_callback]
    calls the callbacks registered for the event, in registration order,
    each of them whatever the earlier ones did, and it does not raise. *)
Theorem callback_table_round_trip :
  forall (d : Callbacks.t) (e : string) (cb : callback),
    Callbacks.well_formed d ->
    let added := Callbacks.register_callback e cb d in
    let removed := Callbacks.unregister_callback e cb d in
    Callbacks.well_formed added /\
    Callbacks.well_formed removed /\
    In cb (registered_for e added) /\
    ~ In cb (registered_for e removed) /\
    Callbacks.register_callback e cb added = added /\
    (~ In cb (registered_for e d) ->
     registered_for e added = registered_for e d ++ [cb] /\
     Callbacks.unregister_callback e cb added = d) /\
    (forall run data,
       Callbacks.trigger_callback run e data added
       = (Returned tt, added,
          map (fun c => Invoked c data) (registered_for e added))).
Proof.
  intros d e cb [Hnd Hwf] added removed.
  assert (Hlists : forall l, Dict.lookup e d = Some l -> l <> [] /\ NoDup l).
  { intros l Hl. apply (Hwf e l). now apply lookup_In_pair. }
  assert (Hadded : Callbacks.well_formed added /\
                   In cb (registered_for e added) /\
                   (~ In cb (registered_for e d) ->
                    registered_for e added = registered_for e d ++ [cb] /\
                    added = Dict.set e (registered_for e d ++ [cb]) d) /\
                   (In cb (registered_for e d) -> added = d)).
  { subst added. rewrite register_callback_spec.
    destruct (existsb (String.eqb cb) (registered_for e d)) eqn:E.
    - apply existsb_callback in E.
      assert (Hm : Dict.mem e d = true).
      { destruct (Dict.mem e d) eqn:Hm; [reflexivity|].
        apply lookup_none_mem in Hm. unfold registered_for in E.
        rewrite Hm in E. destruct E. }
      rewrite Hm. split; [now split|]. split; [exact E|]. split; [tauto | auto].
    - assert (Hn : ~ In cb (registered_for e d)).
      { intros H. apply existsb_callback in H. congruence. }
      assert (Hreg : registered_for e (Dict.set e (registered_for e d ++ [cb]) d)
                     = registered_for e d ++ [cb]).
      { unfold registered_for at 1. now rewrite lookup_set_same. }
      split; [|split; [rewrite Hreg; apply in_or_app; right; now left
                      | split; [auto | tauto]]].
      split.
      + destruct (Dict.mem e d) eqn:Hm.
        * now rewrite keys_set_present.
        * rewrite keys_set_fresh by assumption.
          apply NoDup_app; [exact Hnd | repeat constructor; simpl; tauto |].
          intros x Hx [<- | []]. now apply mem_false_not_In in Hm.
      + intros k l Hin. apply In_set in Hin as [[= -> ->] | Hin]; [|exact (Hwf _ _ Hin)].
        split; [intros H; apply app_eq_nil in H as [_ H]; discriminate|].
        apply NoDup_app; [| repeat constructor; simpl; tauto
                          | intros x Hx [<- | []]; contradiction].
        unfold registered_for. destruct (Dict.lookup e d) as [l|] eqn:Hl;
          [now apply Hlists | constructor]. }
  destruct Hadded as (Hwfa & Hina & Hfresh & Hold).
  assert (Hremoved : Callbacks.well_formed removed /\
                     ~ In cb (registered_for e removed)).
  { subst removed. unfold Callbacks.unregister_callback.
    destruct (Dict.lookup e d) as [l|] eqn:Hl.
    - destruct (existsb (String.eqb cb) l) eqn:E.
      + destruct (Hlists l eq_refl) as [_ Hl'].
        destruct (list_remove_NoDup cb l Hl') as [Hr1 Hr2].
        destruct (Callbacks.list_remove cb l) as [|x l'] eqn:Hrem.
        * split.
          -- split; [rewrite keys_remove; now apply NoDup_filter|].
             intros k l0 Hin. apply In_remove in Hin. exact (Hwf _ _ Hin).
          -- unfold registered_for. now rewrite lookup_remove_same.
        * split.
          -- split.
             ++ rewrite keys_set_present; [exact Hnd|].
                destruct (Dict.mem e d) eqn:Hm; [reflexivity|].
                apply lookup_none_mem in Hm. congruence.
             ++ intros k l0 Hin. apply In_set in Hin as [[= -> ->] | Hin];
                  [split; [discriminate | exact Hr1] | exact (Hwf _ _ Hin)].
          -- unfold registered_for. now rewrite lookup_set_same.
      + split; [now split|]. unfold registered_for. rewrite Hl.
        intros H. apply existsb_callback in H. congruence.
    - split; [now split|]. unfold registered_for. now rewrite Hl. }
  destruct Hremoved as (Hwfr & Hout).
  split; [exact Hwfa|]. split; [exact Hwfr|]. split; [exact Hina|].
  split; [exact Hout|]. split; [|split].
  - rewrite register_callback_spec.
    rewrite (proj2 (existsb_callback cb _) Hina).
    destruct (Dict.mem e added) eqn:Hm; [reflexivity|].
    apply lookup_none_mem in Hm. unfold registered_for in Hina.
    rewrite Hm in Hina. destruct Hina.
  - intros Hn. destruct (Hfresh Hn) as [Hreg Heq]. split; [exact Hreg|].
    unfold Callbacks.unregister_callback. rewrite Heq at 1. rewrite lookup_set_same.
    rewrite (proj2 (existsb_callback cb _)) by (apply in_or_app; right; now left).
    rewrite list_remove_absent by assumption.
    unfold registered_for in *. destruct (Dict.lookup e d) as [l|] eqn:Hl.
    + destruct (Hlists l eq_refl) as [Hne _].
      destruct l as [|x l]; [congruence|].
      rewrite Heq, set_set. now apply set_lookup_same.
    + rewrite Heq. apply remove_set_fresh. now apply lookup_none_mem.
  - intros run data. unfold Callbacks.trigger_callback, registered_for.
    cbv [bind get]. destruct (Dict.lookup e added) as [l|]; [|reflexivity].
    rewrite (for_each_pure _ (fun c => [Invoked c data])).
    + cbn [app]. f_equal.
    + intros c _. unfold try_except. cbv [bind emit answer ret].
      destruct (run c) as [[]|]; reflexivity.
Qed.

Lemma callback_table_round_trip_witness :
  let d := Callbacks.register_callback "volume_change" "ui" [] in
  Callbacks.well_formed d /\
  Callbacks.unregister_callback "song_change" "ui"
    (Callbacks.register_callback "song_change" "ui" d) = d /\
  Callbacks.unregister_callback "volume_change" "ui" d = [].
Proof.
  intros d.
  assert (Hwf : Callbacks.well_formed d).
  { split; [repeat constructor; simpl; tauto|].
    intros k l [[= <- <-] | []]. split; [discriminate|].
    repeat constructor. simpl. tauto. }
  split; [exact Hwf|]. split; [|reflexivity].
  destruct (callback_table_round_trip d "song_change" "ui" Hwf)
    as (_ & _ & _ & _ & _ & Hback & _).
  apply Hback. simpl. tauto.
Defined.



(** ** The earlier controller and the engine *)

Lemma legacy_pause_other_controllers_spec (l : LegacyController.t) :
  LegacyController.pause_other_controllers l =
    (Returned tt, l,
     if LegacyController.no_active_id l then []
     else map (fun kv => Call (PlayerController.player_id (snd kv)) CmdPause)
            (legacy_paused l)).
Proof.
  unfold LegacyController.pause_other_controllers, bind, get. cbn [fst snd].
  destruct (LegacyController.no_active_id l); [reflexivity|].
  rewrite (for_each_pure _
    (fun kv : string * PlayerController.t =>
       if negb (opt_id_eqb (Some (fst kv)) (LegacyController._active_controller_id l))
          && LegacyController.state_is_playing
               (PlayerController.get_player_info (snd kv))
       then [Call (PlayerController.player_id (snd kv)) CmdPause] else [])).
  - rewrite flat_map_filter. reflexivity.
  - intros [k c] _. cbn [fst snd].
    destruct (negb (opt_id_eqb (Some k) (LegacyController._active_controller_id l)));
      [|reflexivity].
    cbn [andb].
    destruct (LegacyController.state_is_playing (PlayerController.get_player_info c));
      [|reflexivity].
    unfold try_except, LegacyController.invoke, bind, emit, answer, ret.
    destruct (PlayerController.pause c); reflexivity.
Qed.







Lemma legacy_paused_enum (l : LegacyController.t) :
  (forall k c, In (k, c) (LegacyController._controllers l) -> reports_enum c) ->
  legacy_paused l = [].
Proof.
  intros Henum. unfold legacy_paused.
  induction (LegacyController._controllers l) as [|[k c] d IH]; [reflexivity|].
  cbn [filter fst snd].
  destruct (Henum k c (or_introl eq_refl)) as (info & st & Hinfo & Hst).
  unfold LegacyController.state_is_playing at 1. rewrite Hinfo, Hst.
  rewrite andb_false_r. apply IH. intros k' c' Hin. apply (Henum k' c'). now right.
Qed.

(** The earlier [pause_other_controllers] finds the playing players by
    comparing their state with the string ["playing"].  It sends [pause], in
    registration order, to the registered players other than the active one
    whose state is that string, to no one when the active id is missing or
    empty, changes nothing in the controller and does not raise.  Players
    that report a member of the enum, as the MPD backend does, are never
    paused by it.  Every player it pauses is one that the engine's
    [pause_other_controllers] pauses too. *)
Theorem earlier_controller_pauses_by_string :
  forall (l : LegacyController.t),
    LegacyController.pause_other_controllers l =
      (Returned tt, l,
       if LegacyController.no_active_id l then []
       else map (fun kv => Call (PlayerController.player_id (snd kv)) CmdPause)
              (legacy_paused l)) /\
    (forall kv, In kv (legacy_paused l) <->
       In kv (LegacyController._controllers l) /\
       Some (fst kv) <> LegacyController._active_controller_id l /\
       exists info, PlayerController.get_player_info (snd kv) = Some info /\
                    state info = StateStr "playing") /\
    ((forall k c, In (k, c) (LegacyController._controllers l) -> reports_enum c) ->
     trace_of (LegacyController.pause_other_controllers l) = []) /\
    (forall (e : t) x,
       same_selection l e ->
       In x (trace_of (LegacyController.pause_other_controllers l)) ->
       In x (trace_of (pause_other_controllers e))).
Proof.
  intros l. split; [apply legacy_pause_other_controllers_spec|].
  assert (Hin : forall kv, In kv (legacy_paused l) <->
       In kv (LegacyController._controllers l) /\
       Some (fst kv) <> LegacyController._active_controller_id l /\
       exists info, PlayerController.get_player_info (snd kv) = Some info /\
                    state info = StateStr "playing").
  { intros [k c]. unfold legacy_paused. rewrite filter_In, andb_true_iff, negb_true_iff.
    cbn [fst snd]. unfold LegacyController.state_is_playing.
    assert (Hid : opt_id_eqb (Some k) (LegacyController._active_controller_id l) = false
                  <-> Some k <> LegacyController._active_controller_id l).
    { unfold opt_id_eqb. destruct (LegacyController._active_controller_id l) as [a|].
      - rewrite String.eqb_neq. split; congruence.
      - split; [discriminate | reflexivity]. }
    rewrite Hid. split.
    - intros (H1 & H2 & H3). split; [exact H1|]. split; [exact H2|].
      destruct (PlayerController.get_player_info c) as [info|]; [|discriminate].
      exists info. split; [reflexivity|].
      destruct (state info) as [st|s]; [discriminate|].
      apply String.eqb_eq in H3. now subst.
    - intros (H1 & H2 & info & H3 & H4). split; [exact H1|]. split; [exact H2|].
      now rewrite H3, H4. }
  split; [exact Hin|]. split.
  - intros Henum. rewrite legacy_pause_other_controllers_spec. unfold trace_of.
    cbn [snd]. rewrite legacy_paused_enum by assumption.
    now destruct (LegacyController.no_active_id l).
  - intros e x [Hc Ha]. rewrite legacy_pause_other_controllers_spec,
      pause_other_controllers_spec. unfold trace_of. cbn [snd].
    destruct (LegacyController.no_active_id l); [intros []|].
    rewrite !in_map_iff. intros [[k c] [Hx Hkv]]. cbn [snd] in Hx.
    apply Hin in Hkv as (H1 & H2 & _). cbn [fst] in H2.
    exists c. split; [exact Hx|]. unfold other_controllers.
    apply in_map_iff. exists (k, c). split; [reflexivity|].
    apply filter_In. rewrite <- Hc, <- Ha. split; [exact H1|]. cbn [fst].
    apply negb_true_iff. unfold opt_id_eqb.
    destruct (LegacyController._active_controller_id l) as [a|]; [|reflexivity].
    apply String.eqb_neq. congruence.
Qed.

Lemma earlier_controller_pauses_by_string_witness :
  let backends := [("mpd", connected_backend "mpd" PLAYING None None);
                   ("bt", connected_backend "bt" PLAYING None None)] in
  trace_of (LegacyController.pause_other_controllers
              {| LegacyController._controllers := backends;
                 LegacyController._active_controller_id := Some "bt";
                 LegacyController._auto_pause := true |}) = [] /\
  trace_of (pause_other_controllers
              (set_active_controller_id (Some "bt") (set_controllers backends __init__)))
  = [Call "mpd" CmdPause].
Proof.
  intros backends. split; [|reflexivity].
  apply earlier_controller_pauses_by_string.
  intros k c [[= <- <-] | [[= <- <-] | []]];
    eexists; eexists; split; reflexivity.
Defined.
